(** * Question extractor: extraction, batch structuring and merging

    A shallow embedding of the Python sources of the question extractor
    ([config.py], [cost_tracker.py], [pdf_extractor.py],
    [pdf_extractor_v3.py], [question_validator.py], [process_claude.py],
    [process_questions_v2.py]) together with the properties stated about
    them.

    Conventions of the embedding.
    - Text is a [string] whose characters are code points below 256.
    - Python integers are [Z]; lengths and indices are [nat].
    - A dictionary with a fixed set of keys is a record; a key that the
      code reads with [.get], tests with [in] or fills with [setdefault]
      is an [option] field ([None]: the key is absent).
    - The answer of the generation service is modelled twice: as a record
      (module [structured]) when its keys hold values of the expected
      types, and as a JSON value (modules [json] and [untyped]) when the
      property depends on what the code does of a [null] or of a value of
      another type.
    - A function that can raise returns an [option] or a sum.
    - Files, the failure log and the generation service are fields of an
      explicit world state that is threaded through the code. *)

From Stdlib Require Import ZArith List Bool Ascii String DecimalString Lia.
From Stdlib Require Import SpecFloat.
From stdpp Require Import gmap strings list sorting.

Import ListNotations.
Local Open Scope string_scope.
Local Open Scope Z_scope.

(** ** Python string operations *)

Module py.

(** [str.isspace] on one character; also the class [\s] of [re]. *)
Definition isspace (c : ascii) : bool :=
  let n := nat_of_ascii c in
  ((9 <=? n) && (n <=? 13) || (28 <=? n) && (n <=? 32)
   || (n =? 133) || (n =? 160))%nat.

(** The class [\d] of [re]. *)
Definition isdigit (c : ascii) : bool :=
  let n := nat_of_ascii c in ((48 <=? n) && (n <=? 57))%nat.

(** [str.lower] on one character. *)
Definition lower_char (c : ascii) : ascii :=
  let n := nat_of_ascii c in
  if ((65 <=? n) && (n <=? 90)
      || (192 <=? n) && (n <=? 222) && negb (n =? 215))%nat
  then ascii_of_nat (n + 32) else c.

Fixpoint lower (s : string) : string :=
  match s with
  | EmptyString => EmptyString
  | String c s' => String (lower_char c) (lower s')
  end.

(** [len(s)] *)
Definition len (s : string) : nat := String.length s.

(** [s[n:]] and [s[:n]] for [n >= 0]. *)
Fixpoint drop (n : nat) (s : string) : string :=
  match n, s with
  | O, _ => s
  | S n', String _ s' => drop n' s'
  | S _, EmptyString => EmptyString
  end.

Fixpoint take (n : nat) (s : string) : string :=
  match n, s with
  | O, _ => EmptyString
  | S n', String c s' => String c (take n' s')
  | S _, EmptyString => EmptyString
  end.

(** [s[i:j]] for [0 <= i], [0 <= j]. *)
Definition slice (i j : nat) (s : string) : string := take (j - i) (drop i s).

(** [s.startswith(p)] *)
Fixpoint startswith (p s : string) : bool :=
  match p, s with
  | EmptyString, _ => true
  | String a p', String b s' => Ascii.eqb a b && startswith p' s'
  | String _ _, EmptyString => false
  end.

(** [s.endswith(p)] *)
Definition endswith (p s : string) : bool :=
  (String.length p <=? String.length s)%nat
  && String.eqb (drop (String.length s - String.length p) s) p.

(** [sub in s] *)
Fixpoint contains (sub s : string) : bool :=
  startswith sub s ||
  match s with
  | EmptyString => false
  | String _ s' => contains sub s'
  end.

Fixpoint lstrip (s : string) : string :=
  match s with
  | String c s' => if isspace c then lstrip s' else s
  | EmptyString => EmptyString
  end.

Fixpoint rstrip (s : string) : string :=
  match s with
  | EmptyString => EmptyString
  | String c s' =>
      match rstrip s' with
      | EmptyString => if isspace c then EmptyString else String c EmptyString
      | t => String c t
      end
  end.

(** [s.strip()] *)
Definition strip (s : string) : string := rstrip (lstrip s).

(** [s.split()]: the maximal runs of non-space characters.  [cur] is the
    word being read, reversed. *)
Definition rev_string (l : list ascii) : string :=
  string_of_list_ascii (List.rev l).

Fixpoint split_aux (s : string) (cur : list ascii) : list string :=
  match s with
  | EmptyString =>
      match cur with [] => [] | _ => [rev_string cur] end
  | String c s' =>
      if isspace c
      then match cur with
           | [] => split_aux s' []
           | _ => rev_string cur :: split_aux s' []
           end
      else split_aux s' (c :: cur)
  end.

Definition split (s : string) : list string := split_aux s [].

(** [sep.join(l)] *)
Definition join (sep : string) (l : list string) : string :=
  String.concat sep l.

(** [s.replace(old, '')] for a non-empty [old]; [skip] counts the
    characters of an occurrence still to be removed. *)
Fixpoint remove_all_aux (old s : string) (skip : nat) : string :=
  match s with
  | EmptyString => EmptyString
  | String c s' =>
      match skip with
      | S k => remove_all_aux old s' k
      | O =>
          if startswith old s
          then remove_all_aux old s' (String.length old - 1)
          else String c (remove_all_aux old s' O)
      end
  end.

Definition remove_all (old s : string) : string :=
  match old with
  | EmptyString => s
  | _ => remove_all_aux old s O
  end.

(** [int(s)] for a string of ASCII digits. *)
Fixpoint int_aux (s : string) (acc : Z) : option Z :=
  match s with
  | EmptyString => Some acc
  | String c s' =>
      if isdigit c
      then int_aux s' (10 * acc + Z.of_nat (nat_of_ascii c - 48))
      else None
  end.

Definition int (s : string) : option Z :=
  match s with
  | EmptyString => None
  | _ => int_aux s 0
  end.

(** [range(start, stop, step)]; [None] is the [ValueError] of a zero
    step. *)
Definition range (start stop step : Z) : option (list Z) :=
  if step =? 0 then None
  else
    let count :=
      if 0 <? step then (stop - start + step - 1) / step
      else (start - stop - step - 1) / (- step) in
    Some (List.map (fun k => start + Z.of_nat k * step)
            (List.seq 0 (Z.to_nat count))).

(** [l[i:j]], a negative index counting from the end *)
Definition clamp (k : Z) (n : nat) : nat :=
  if k <? 0 then Z.to_nat (Z.max (k + Z.of_nat n) 0)
  else Z.to_nat (Z.min k (Z.of_nat n)).

Definition slice_list {A : Type} (i j : Z) (l : list A) : list A :=
  let lo := clamp i (List.length l) in
  let hi := clamp j (List.length l) in
  List.firstn (hi - lo) (List.skipn lo l).

(** [s.find(sub)] and [s.rfind(sub)]; [None] is the result -1. *)
Fixpoint find (sub s : string) : option nat :=
  if startswith sub s then Some O
  else
    match s with
    | String _ s' =>
        match find sub s' with
        | Some i => Some (S i)
        | None => None
        end
    | EmptyString => None
    end.

Fixpoint rfind (sub s : string) : option nat :=
  match s with
  | String _ s' =>
      match rfind sub s' with
      | Some i => Some (S i)
      | None => if startswith sub s then Some O else None
      end
  | EmptyString => if startswith sub s then Some O else None
  end.

(** [s.split(sep)] for a non-empty [sep]: [skip] counts the characters of
    a separator still to be passed, [cur] is the part being read,
    reversed. *)
Fixpoint split_on_aux (sep s : string) (skip : nat) (cur : list ascii)
    : list string :=
  match s with
  | EmptyString => [rev_string cur]
  | String c s' =>
      match skip with
      | S k => split_on_aux sep s' k cur
      | O =>
          if startswith sep s
          then rev_string cur
                 :: split_on_aux sep s' (String.length sep - 1) []
          else split_on_aux sep s' O (c :: cur)
      end
  end.

Definition split_on (sep s : string) : list string := split_on_aux sep s O [].

End py.

(** ** The fragment of Python's [re] used by the sources

    Every quantifier in the patterns of the repository ranges over a single
    character class ([\s*], [\d+], [.*], [.*?], [.+?], [[^\(]*?]); groups are
    neither nested nor under a quantifier, so they complete in the order of
    their numbers.  Matching is by backtracking with ordered choice, written
    in continuation-passing style: the continuation receives the rest of the
    text and the groups captured so far. *)

Module re.

Inductive regex : Type :=
| Eps
| Chr (p : ascii -> bool)                 (* one character of a class *)
| Rep (greedy : bool) (p : ascii -> bool) (* p* (greedy) or p*? (lazy) *)
| Seq (r1 r2 : regex)
| Alt (r1 r2 : regex)
| Group (r : regex)                       (* ( r ) *)
| Look (r : regex)                        (* (?= r ) *)
| EndZ                                    (* \Z *)
| Dollar.                                 (* $ without MULTILINE *)

Fixpoint rep_match {A : Type} (greedy : bool) (p : ascii -> bool)
    (s : string) (k : string -> option A) : option A :=
  match s with
  | String c s' =>
      if p c then
        if greedy then
          match rep_match greedy p s' k with
          | Some a => Some a
          | None => k s
          end
        else
          match k s with
          | Some a => Some a
          | None => rep_match greedy p s' k
          end
      else k s
  | EmptyString => k s
  end.

Fixpoint rmatch (A : Type) (r : regex) (s : string) (caps : list string)
    (k : string -> list string -> option A) {struct r} : option A :=
  match r with
  | Eps => k s caps
  | Chr p =>
      match s with
      | String c s' => if p c then k s' caps else None
      | EmptyString => None
      end
  | Rep g p => rep_match g p s (fun s' => k s' caps)
  | Seq r1 r2 => rmatch A r1 s caps (fun s' caps' => rmatch A r2 s' caps' k)
  | Alt r1 r2 =>
      match rmatch A r1 s caps k with
      | Some a => Some a
      | None => rmatch A r2 s caps k
      end
  | Group r1 =>
      rmatch A r1 s caps (fun s' caps' =>
        k s' (caps' ++ [py.take (String.length s - String.length s') s])%list)
  | Look r1 =>
      match rmatch unit r1 s caps (fun _ _ => Some tt) with
      | Some _ => k s caps
      | None => None
      end
  | EndZ =>
      match s with
      | EmptyString => k s caps
      | _ => None
      end
  | Dollar =>
      match s with
      | EmptyString => k s caps
      | String c EmptyString =>
          if Ascii.eqb c "010"%char then k s caps else None
      | _ => None
      end
  end.

(** A match object: [start()], [end()], [group(0)] and the numbered
    groups. *)
Record Match : Type := mkMatch {
  m_start : nat;
  m_end : nat;
  group0 : string;
  groups : list string
}.

(** [pattern.match] at offset [pos], the text from there on being [s]. *)
Definition match_at (r : regex) (pos : nat) (s : string) : option Match :=
  rmatch Match r s []
    (fun s' caps =>
       let n := (String.length s - String.length s')%nat in
       Some (mkMatch pos (pos + n) (py.take n s) caps)).

(** [pattern.search(s)]: the leftmost match. *)
Fixpoint search_from (r : regex) (pos : nat) (s : string) : option Match :=
  match match_at r pos s with
  | Some m => Some m
  | None =>
      match s with
      | String _ s' => search_from r (S pos) s'
      | EmptyString => None
      end
  end.

Definition search (r : regex) (s : string) : option Match :=
  search_from r 0 s.

(** the truth value of [pattern.search(s)] *)
Definition found (r : regex) (s : string) : bool :=
  match search r s with
  | Some _ => true
  | None => false
  end.

(** [pattern.finditer(s)]: the non-overlapping matches from left to right.
    [skip] counts the characters of the last match still to be passed.
    No pattern of the repository matches the empty string, so the scan
    resumes at the end of each match. *)
Fixpoint finditer_from (r : regex) (pos skip : nat) (s : string)
    : list Match :=
  match skip with
  | S skip' =>
      match s with
      | String _ s' => finditer_from r (S pos) skip' s'
      | EmptyString => []
      end
  | O =>
      match match_at r pos s with
      | Some m =>
          m :: match s with
               | String _ s' =>
                   finditer_from r (S pos) (m_end m - m_start m - 1) s'
               | EmptyString => []
               end
      | None =>
          match s with
          | String _ s' => finditer_from r (S pos) O s'
          | EmptyString => []
          end
      end
  end.

Definition finditer (r : regex) (s : string) : list Match :=
  finditer_from r 0 0 s.

(** [pattern.findall(s)] for a pattern with groups: the groups of each
    match. *)
Definition findall (r : regex) (s : string) : list (list string) :=
  List.map groups (finditer r s).

(** *** Pattern syntax *)

Definition chr (c : ascii) : regex := Chr (Ascii.eqb c).

(** a letter under [re.I] *)
Definition chr_i (c : ascii) : regex :=
  Chr (fun x => Ascii.eqb (py.lower_char x) (py.lower_char c)).

Fixpoint lit (s : string) : regex :=
  match s with
  | EmptyString => Eps
  | String c EmptyString => chr c
  | String c s' => Seq (chr c) (lit s')
  end.

Fixpoint lit_i (s : string) : regex :=
  match s with
  | EmptyString => Eps
  | String c EmptyString => chr_i c
  | String c s' => Seq (chr_i c) (lit_i s')
  end.

Fixpoint seq (l : list regex) : regex :=
  match l with
  | [] => Eps
  | [r] => r
  | r :: l' => Seq r (seq l')
  end.

Fixpoint alt (l : list regex) : regex :=
  match l with
  | [] => Chr (fun _ => false)
  | [r] => r
  | r :: l' => Alt r (alt l')
  end.

(** [.] without and with [re.DOTALL] *)
Definition dot (c : ascii) : bool := negb (Ascii.eqb c "010"%char).
Definition dotall (c : ascii) : bool := true.

Definition star (p : ascii -> bool) : regex := Rep true p.
Definition star_lazy (p : ascii -> bool) : regex := Rep false p.
Definition plus (p : ascii -> bool) : regex := Seq (Chr p) (Rep true p).
Definition plus_lazy (p : ascii -> bool) : regex := Seq (Chr p) (Rep false p).

Definition in_range (lo hi : ascii) (c : ascii) : bool :=
  ((nat_of_ascii lo <=? nat_of_ascii c)
   && (nat_of_ascii c <=? nat_of_ascii hi))%nat.

End re.

(** ** config.py *)

Module config.

Import re.

(** [re.compile(r'a.*b.*c', re.I)]: the words in order on one line. *)
Definition words_i (ws : list string) : regex :=
  seq (List.concat
         (List.map (fun w => [star dot; lit_i w]) ws)).

Definition in_order_i (w : string) (ws : list string) : regex :=
  Seq (lit_i w) (words_i ws).

Definition INVALID_PATTERNS : list regex :=
  [ in_order_i "test" ["duration"; "hours"];
    in_order_i "blue" ["black"; "ball"; "point"; "pen"];
    in_order_i "rough" ["work"];
    in_order_i "admit" ["card"];
    in_order_i "OMR" ["sheet"];
    in_order_i "candidates" ["governed"];
    seq [lit_i "marking"; star dot; lit_i "scheme"; star dot;
         plus py.isdigit; star dot; lit_i "marks"];
    in_order_i "general" ["instructions"];
    in_order_i "use" ["HB"; "pencil"];
    in_order_i "do" ["not"; "fold"];
    in_order_i "follow" ["instructions"];
    in_order_i "negative" ["marking"; "deduct"];
    in_order_i "test" ["booklet"; "contains"];
    in_order_i "maximum" ["marks"; "are"];
    in_order_i "read" ["the"; "following"; "instructions"];
    in_order_i "darken" ["the"; "correct"; "choice"] ].

Definition SECTION_START_PATTERNS : list regex :=
  [ lit_i "PHYSICS";
    in_order_i "SECTION" ["A"; "PHYSICS"];
    seq [lit_i "Physics"; plus py.isspace; lit_i "Section"];
    in_order_i "PART" ["A"; "PHYSICS"] ].

Definition SECTION_END_PATTERNS : list regex :=
  [ lit_i "CHEMISTRY";
    lit_i "BIOLOGY";
    lit_i "BOTANY";
    lit_i "ZOOLOGY";
    in_order_i "SECTION" ["B"] ].

(** the lookahead [(?=\s*\(\d\)|\n\d+\.|\Z)] shared by the two patterns
    below *)
Definition until_next : regex :=
  Look (alt [ seq [star py.isspace; lit "("; Chr py.isdigit; lit ")"];
              seq [chr "010"; plus py.isdigit; lit "."];
              EndZ ]).

(** [(\d+)\.\s+(.*?)(?=\s*\(\d\)|\n\d+\.|\Z)], [re.DOTALL] *)
Definition QUESTION_PATTERN : regex :=
  seq [ Group (plus py.isdigit); lit "."; plus py.isspace;
        Group (star_lazy dotall); until_next ].

(** [\(([1-4])\)\s*(.+?)(?=\s*\(\d\)|\n\d+\.|\Z)], [re.DOTALL] *)
Definition OPTION_PATTERN : regex :=
  seq [ lit "("; Group (Chr (in_range "1" "4")); lit ")"; star py.isspace;
        Group (plus_lazy dotall); until_next ].

(** The placeholder patterns are kept as source text and compiled at each
    use, as [re.search(pattern, text)] does. *)
Definition PLACEHOLDER_PATTERNS : list (string * regex) :=
  [ ("placeholder", lit "placeholder");
    ("text\s+here", seq [lit "text"; plus py.isspace; lit "here"]);
    ("option\s+[A-D]\s+text",
       seq [lit "option"; plus py.isspace; Chr (in_range "A" "D");
            plus py.isspace; lit "text"]);
    ("sample.*question", seq [lit "sample"; star dot; lit "question"]);
    ("analysis\s+not\s+provided",
       seq [lit "analysis"; plus py.isspace; lit "not"; plus py.isspace;
            lit "provided"]);
    ("chapter\s+name\s+here",
       seq [lit "chapter"; plus py.isspace; lit "name"; plus py.isspace;
            lit "here"]);
    ("topic\s+name\s+here",
       seq [lit "topic"; plus py.isspace; lit "name"; plus py.isspace;
            lit "here"]) ].

End config.

(** ** cost_tracker.py *)

Module cost_tracker.

(** The counters of the [CostTracker] dataclass (the two price constants
    are floats and take no part in the counting). *)
Record CostTracker : Type := mkCostTracker {
  total_calls : Z;
  input_tokens : Z;
  output_tokens : Z;
  successful_calls : Z;
  failed_calls : Z
}.

(** [CostTracker()] *)
Definition new : CostTracker := mkCostTracker 0 0 0 0 0.

Definition record_call (self : CostTracker) (input output : Z)
    (success : bool) : CostTracker :=
  {| total_calls := total_calls self + 1;
     input_tokens := input_tokens self + input;
     output_tokens := output_tokens self + output;
     successful_calls :=
       if success then successful_calls self + 1 else successful_calls self;
     failed_calls :=
       if success then failed_calls self else failed_calls self + 1 |}.

(** One invocation of [record_call]: its three arguments. *)
Definition Call : Type := (Z * Z * bool)%type.

(** A sequence of invocations on one tracker. *)
Definition record_calls (self : CostTracker) (calls : list Call)
    : CostTracker :=
  fold_left (fun t '(i, o, ok) => record_call t i o ok) calls self.

End cost_tracker.

(** ** The section locator, shared by pdf_extractor.py and
    pdf_extractor_v3.py (the two copies of [find_section_bounds] are the
    same text) *)

Module section_locator.

(** [any(pattern.search(text) for pattern in patterns)], in order *)
Definition matches_any (patterns : list re.regex) (text : string) : bool :=
  existsb (fun p => re.found p text) patterns.

(** The first loop: the index of the first page matching a start pattern;
    [None] is the sentinel [-1].  [i] is the index of the head of
    [pages]. *)
Fixpoint find_start (pages : list string) (i : nat) : option nat :=
  match pages with
  | [] => None
  | page_text :: rest =>
      if matches_any config.SECTION_START_PATTERNS page_text
      then Some i
      else find_start rest (S i)
  end.

(** The second loop over [range(start_page + 1, len(pages))]: [pages] is
    the list from index [i] on. *)
Fixpoint find_end (pages : list string) (i : nat) : option nat :=
  match pages with
  | [] => None
  | page_text :: rest =>
      if matches_any config.SECTION_END_PATTERNS page_text
      then Some i
      else find_end rest (S i)
  end.

Definition find_section_bounds (pages : list string) : nat * nat :=
  let start_page :=
    match find_start pages 0 with
    | Some i => i
    | None => 0%nat
    end in
  let end_page :=
    match find_end (List.skipn (S start_page) pages) (S start_page) with
    | Some i => i
    | None => List.length pages
    end in
  (start_page, end_page).

End section_locator.

(** ** pdf_extractor.py *)

Module pdf_extractor.

(** A question dict of [extract_physics_questions_improved]. *)
Record Question : Type := mkQuestion {
  number : Z;
  text : string;
  question_text : string;
  options : gmap string string;
  correct_index : Z;
  correct_answer : option string;
  has_answer : bool
}.

Definition find_section_bounds : list string -> nat * nat :=
  section_locator.find_section_bounds.

(** [re.sub(r'[ \t]+', ' ', text)]; [in_run] tells that the previous
    character belonged to the run being replaced. *)
Definition isblank (c : ascii) : bool :=
  Ascii.eqb c " "%char || Ascii.eqb c "009"%char.

Fixpoint collapse_blanks (s : string) (in_run : bool) : string :=
  match s with
  | EmptyString => EmptyString
  | String c s' =>
      if isblank c
      then if in_run then collapse_blanks s' true
           else String " "%char (collapse_blanks s' true)
      else String c (collapse_blanks s' false)
  end.

(** The ligatures and full-width parentheses that [normalize_text] replaces
    first are code points above 255, which the text of this model does not
    contain. *)
Definition normalize_text (text : string) : string :=
  collapse_blanks text false.

(** [{'1': 'A', '2': 'B', '3': 'C', '4': 'D'}.get] *)
Definition option_map (num : string) : option string :=
  if String.eqb num "1" then Some "A"
  else if String.eqb num "2" then Some "B"
  else if String.eqb num "3" then Some "C"
  else if String.eqb num "4" then Some "D"
  else None.

(** [str(n)] for a natural number *)
Definition str_nat (n : nat) : string :=
  DecimalString.NilZero.string_of_uint (Nat.to_uint n).

(** An entry of the list returned by [parse_options]. *)
Record OptionEntry : Type := mkOptionEntry {
  id : string;
  opt_text : string
}.

(** The first loop of [parse_options], over the [(num, opt_text)] pairs. *)
Fixpoint collect_options (matches : list (list string)) : list OptionEntry :=
  match matches with
  | [] => []
  | [num; opt_text] :: rest =>
      match option_map num with
      | Some letter => mkOptionEntry letter (py.strip opt_text)
                         :: collect_options rest
      | None => collect_options rest
      end
  | _ :: rest => collect_options rest
  end.

(** [while len(options) < 4: options.append(...)].  [None] stands for the
    [KeyError] of [option_map[...]] and for exhausted fuel. *)
Fixpoint pad_options (fuel : nat) (options : list OptionEntry)
    : option (list OptionEntry) :=
  if (List.length options <? 4)%nat then
    match fuel with
    | O => None
    | S fuel' =>
        match option_map (str_nat (List.length options + 1)) with
        | Some letter =>
            pad_options fuel' (options ++ [mkOptionEntry letter ""])%list
        | None => None
        end
    end
  else Some options.

Definition parse_options (text : string) : option (list OptionEntry) :=
  let options := collect_options (re.findall config.OPTION_PATTERN text) in
  match pad_options 4 options with
  | Some options => Some (List.firstn 4 options)
  | None => None
  end.

(** The combined block pattern of [extract_physics_questions_improved],
    [re.DOTALL]. *)
Definition pattern : re.regex :=
  re.seq [ re.Group (re.plus py.isdigit); re.lit "."; re.star py.isspace;
           re.chr "010";
           re.Group (re.star_lazy re.dotall);
           re.lit "(1)"; re.star py.isspace; re.Group (re.star_lazy re.dotall);
           re.lit "(2)"; re.star py.isspace; re.Group (re.star_lazy re.dotall);
           re.lit "(3)"; re.star py.isspace; re.Group (re.star_lazy re.dotall);
           re.lit "(4)"; re.star py.isspace; re.Group (re.star_lazy re.dotall);
           re.lit "Answer"; re.star py.isspace; re.lit "(";
           re.Group (re.Chr py.isdigit); re.lit ")" ].

Definition num_to_letter : string -> option string := option_map.

(** [' '.join(s.split())] *)
Definition squeeze (s : string) : string := py.join " " (py.split s).

(** The body of the loop over the matches: [None] is a [continue] (the
    block is skipped), [Some q] is [questions.append(q)]. *)
Definition parse_block (match_ : list string) : option Question :=
  match match_ with
  | [q_num; q_text; opt1; opt2; opt3; opt4; answer_idx] =>
      match py.int q_num with
      | None => None                             (* ValueError *)
      | Some number =>
          let q_text := squeeze q_text in
          let opt1 := squeeze opt1 in
          let opt2 := squeeze opt2 in
          let opt3 := squeeze opt3 in
          let opt4 := squeeze opt4 in
          if (py.len q_text <? 20)%nat then None  (* question too short *)
          else
            match py.int answer_idx with
            | None => None                       (* ValueError *)
            | Some correct_index =>
                match num_to_letter answer_idx with
                | None => None                   (* invalid answer index *)
                | Some correct_answer =>
                    let options_dict : gmap string string :=
                      <["D" := opt4]> (<["C" := opt3]>
                        (<["B" := opt2]> (<["A" := opt1]> ∅))) in
                    Some {| number := number;
                            text := q_text;
                            question_text := q_text;
                            options := options_dict;
                            correct_index := correct_index;
                            correct_answer := Some correct_answer;
                            has_answer := true |}
                end
            end
      end
  | _ => None                                    (* ValueError: unpacking *)
  end.

Fixpoint parse_blocks (matches : list (list string)) : list Question :=
  match matches with
  | [] => []
  | match_ :: rest =>
      match parse_block match_ with
      | Some q => q :: parse_blocks rest
      | None => parse_blocks rest
      end
  end.

(** [re.compile(r'PHYSICS\s*\n', re.IGNORECASE)] *)
Definition physics_heading : re.regex :=
  re.seq [re.lit_i "PHYSICS"; re.star py.isspace; re.chr "010"].

Definition newline : string := String "010"%char EmptyString.

(** [extract_physics_questions_improved], from the page texts on. *)
Definition extract_physics_questions_improved (pages : list string)
    : list Question :=
  let '(start_page, end_page) := find_section_bounds pages in
  let physics_pages :=
    List.firstn (end_page - start_page) (List.skipn start_page pages) in
  let physics_text := normalize_text (py.join newline physics_pages) in
  let physics_text :=
    match re.search physics_heading physics_text with
    | Some m => py.drop (re.m_end m) physics_text
    | None => physics_text
    end in
  parse_blocks (re.findall pattern physics_text).

(** The dicts of [extract_questions_simple]. *)
Module simple.

Record Question : Type := mkQuestion {
  number : Z;
  text : string;
  options : list OptionEntry;
  raw_block : string
}.

End simple.

(** [if max_questions: matches = matches[:max_questions]] *)
Definition limit {A : Type} (max_questions : option Z) (matches : list A)
    : list A :=
  match max_questions with
  | Some n => if n =? 0 then matches else py.slice_list 0 n matches
  | None => matches
  end.

(** The body of the loop of [extract_questions_simple]: [None] is an
    exception, after which the loop goes on. *)
Definition simple_block (match_ : re.Match) : option simple.Question :=
  match re.groups match_ with
  | [g1; g2] =>
      match py.int g1 with
      | None => None
      | Some number =>
          let text := py.strip g2 in
          match parse_options text with
          | None => None
          | Some options =>
              Some {| simple.number := number;
                      simple.text := text;
                      simple.options := options;
                      simple.raw_block := text |}
          end
      end
  | _ => None
  end.

Fixpoint simple_blocks (matches : list re.Match) : list simple.Question :=
  match matches with
  | [] => []
  | match_ :: rest =>
      match simple_block match_ with
      | Some q => q :: simple_blocks rest
      | None => simple_blocks rest
      end
  end.

(** [extract_questions_simple], from the page texts on. *)
Definition extract_questions_simple (pages : list string)
    (max_questions : option Z) : list simple.Question :=
  let all_text := normalize_text (py.join newline pages) in
  let matches := re.finditer config.QUESTION_PATTERN all_text in
  simple_blocks (limit max_questions matches).

End pdf_extractor.

(** ** pdf_extractor_v3.py *)

Module pdf_extractor_v3.

(** A question dict of [extract_physics_questions_with_answers]. *)
Record Question : Type := mkQuestion {
  number : Z;
  question_text : string;
  options : gmap string string;
  correct_index : option Z;
  correct_answer : option string;
  full_text : string;
  has_answer : bool
}.

Definition find_section_bounds : list string -> nat * nat :=
  section_locator.find_section_bounds.

(** [(\d+)\.\s*(.*?)(?=\(\d\)|\nAnswer|\n\d+\.|\Z)], [re.DOTALL] *)
Definition question_block_pattern : re.regex :=
  re.seq [ re.Group (re.plus py.isdigit); re.lit "."; re.star py.isspace;
           re.Group (re.star_lazy re.dotall);
           re.Look (re.alt
             [ re.seq [re.lit "("; re.Chr py.isdigit; re.lit ")"];
               re.seq [re.chr "010"; re.lit "Answer"];
               re.seq [re.chr "010"; re.plus py.isdigit; re.lit "."];
               re.EndZ ]) ].

(** [\(([1-4])\)\s*([^\(]*?)(?=\s*\([1-4]\)|Answer|Sol\.|$)], [re.DOTALL] *)
Definition option_pattern : re.regex :=
  re.seq [ re.lit "("; re.Group (re.Chr (re.in_range "1" "4")); re.lit ")";
           re.star py.isspace;
           re.Group (re.star_lazy (fun c => negb (Ascii.eqb c "("%char)));
           re.Look (re.alt
             [ re.seq [re.star py.isspace; re.lit "(";
                       re.Chr (re.in_range "1" "4"); re.lit ")"];
               re.lit "Answer";
               re.lit "Sol.";
               re.Dollar ]) ].

(** [Answer\s*\((\d)\)], [re.IGNORECASE] *)
Definition answer_pattern : re.regex :=
  re.seq [ re.lit_i "Answer"; re.star py.isspace; re.lit "(";
           re.Group (re.Chr py.isdigit); re.lit ")" ].

Definition num_to_letter : string -> option string :=
  pdf_extractor.option_map.

Definition squeeze (s : string) : string := py.join " " (py.split s).

(** The loop filling [options_dict]. *)
Fixpoint fill_options (option_matches : list (list string))
    (options_dict : gmap string string) : gmap string string :=
  match option_matches with
  | [] => options_dict
  | [opt_num; opt_text] :: rest =>
      let opt_text := squeeze (py.strip opt_text) in
      match num_to_letter opt_num with
      | Some letter => fill_options rest (<[letter := opt_text]> options_dict)
      | None => fill_options rest options_dict
      end
  | _ :: rest => fill_options rest options_dict
  end.

(** The loop removing the option matches from the question text. *)
Fixpoint remove_options (opt_matches : list re.Match) (question_text : string)
    : string :=
  match opt_matches with
  | [] => question_text
  | opt_match :: rest =>
      remove_options rest (py.remove_all (re.group0 opt_match) question_text)
  end.

(** The answer read off a block: [(correct_index, correct_answer)];
    [None] at the top is the [ValueError] or [KeyError] of the lookups. *)
Definition read_answer (block_text : string)
    : option (option Z * option string) :=
  match re.search answer_pattern block_text with
  | Some answer_match =>
      match re.groups answer_match with
      | [digit] =>
          match py.int digit with
          | None => None
          | Some correct_index =>
              if (1 <=? correct_index) && (correct_index <=? 4)
              then
                match num_to_letter
                        (DecimalString.NilZero.string_of_int
                           (Z.to_int correct_index)) with
                | Some letter => Some (Some correct_index, Some letter)
                | None => None
                end
              else Some (Some correct_index, None)
          end
      | _ => None
      end
  | None => Some (None, None)
  end.

(** The text of a block: from the start of its match to the start of the
    next match, [next_start], or to the end of the text. *)
Definition block_text_of (physics_text : string) (match_ : re.Match)
    (next_start : option nat) : string :=
  match next_start with
  | Some next_start => py.slice (re.m_start match_) next_start physics_text
  | None => py.drop (re.m_start match_) physics_text
  end.

(** The body of the loop over the question matches; [next_start] is
    [matches[i + 1].start()] when there is a next match.  [None] is a
    [continue]. *)
Definition parse_block (physics_text : string) (match_ : re.Match)
    (next_start : option nat) : option Question :=
  match re.groups match_ with
  | [g1; g2] =>
      match py.int g1 with
      | None => None
      | Some number =>
          let full_block := py.strip g2 in
          if (py.len full_block <? 20)%nat then None
          else
            let block_text := block_text_of physics_text match_ next_start in
            let options_dict :=
              fill_options (re.findall option_pattern block_text) ∅ in
            if negb (size options_dict =? 4)%nat then None
            else
              let question_text :=
                remove_options (re.finditer option_pattern full_block)
                  full_block in
              let question_text := squeeze (py.strip question_text) in
              match read_answer block_text with
              | None => None
              | Some (correct_index, correct_answer) =>
                  Some {| number := number;
                          question_text := question_text;
                          options := options_dict;
                          correct_index := correct_index;
                          correct_answer := correct_answer;
                          full_text := full_block;
                          has_answer :=
                            match correct_answer with
                            | Some _ => true
                            | None => false
                            end |}
              end
      end
  | _ => None
  end.

Fixpoint parse_blocks (physics_text : string) (matches : list re.Match)
    : list Question :=
  match matches with
  | [] => []
  | match_ :: rest =>
      let next_start :=
        match rest with
        | next :: _ => Some (re.m_start next)
        | [] => None
        end in
      match parse_block physics_text match_ next_start with
      | Some q => q :: parse_blocks physics_text rest
      | None => parse_blocks physics_text rest
      end
  end.

(** [extract_physics_questions_with_answers], from the page texts on. *)
Definition extract_physics_questions_with_answers (pages : list string)
    : list Question :=
  let '(start_page, end_page) := find_section_bounds pages in
  let physics_pages :=
    List.firstn (end_page - start_page) (List.skipn start_page pages) in
  let physics_text := py.join pdf_extractor.newline physics_pages in
  parse_blocks physics_text (re.finditer question_block_pattern physics_text).

End pdf_extractor_v3.

(** ** The structured question

    The JSON object that the generation service is asked for, with the
    types that the prompt and [NEET_DB_SCHEMA] of config.py give to its
    keys.  Only the keys that the code reads or writes are kept.  A field
    is [None] when its key is absent; an answer in which a key holds
    [null] or a value of another type is not a record of this type, and
    is dealt with as a JSON value in modules [json] and [untyped]. *)

Module structured.

Record AnswerOption : Type := mkAnswerOption {
  opt_id : option string;
  opt_text : option string;
  isCorrect : option bool;
  analysis : option string
}.

Record Classification : Type := mkClassification {
  chapter : option string;
  topic : option string;
  conceptTags : option (list string)
}.

Record Step : Type := mkStep {
  title : string;
  content : string
}.

Record StructuredQuestion : Type := mkStructuredQuestion {
  id : option string;
  questionNumber : option Z;
  questionText : option string;
  options : option (list AnswerOption);
  correctOption : option string;
  classification : option Classification;
  stepByStep : option (list Step)
}.

(** [d.get(key, default)] and the truth value of a string *)
Definition get {A : Type} (field : option A) (default : A) : A :=
  match field with
  | Some v => v
  | None => default
  end.

Definition truthy (s : option string) : bool :=
  match s with
  | Some s => negb (String.eqb s "")
  | None => false
  end.

(** [==] on values that are a string or [None] *)
Definition eq_str (a b : option string) : bool :=
  match a, b with
  | Some a, Some b => String.eqb a b
  | None, None => true
  | _, _ => false
  end.

(** [f"{n:03d}"] and [f"{n:04d}"]: the decimal digits, padded with zeros
    after the sign to the given total width. *)
Fixpoint zeros (n : nat) : string :=
  match n with
  | O => EmptyString
  | S n' => String "0"%char (zeros n')
  end.

Definition format_0d (width : nat) (n : Z) : string :=
  let digits := NilZero.string_of_uint (N.to_uint (Z.abs_N n)) in
  if n <? 0
  then "-" ++ zeros (width - 1 - String.length digits) ++ digits
  else zeros (width - String.length digits) ++ digits.

(** [f"neet_2024_phy_{number:03d}"] *)
Definition default_id (number : Z) : string :=
  "neet_2024_phy_" ++ format_0d 3 number.

End structured.

(** ** question_validator.py *)

Module question_validator.

Import structured.

Definition is_valid_physics_question (text : string) : bool :=
  if String.eqb text "" || (py.len (py.strip text) <? 20)%nat then false
  else
    let text_lower := py.lower text in
    if existsb (fun pattern => re.found pattern text) config.INVALID_PATTERNS
    then false
    else
      let words := py.split text in
      if (List.length words <? 10)%nat then false
      else
        let has_question_markers :=
          existsb (fun marker => py.contains marker text)
            ["?"; "calculate"; "find"; "determine"; "if"; "when"] in
        let instruction_verbs :=
          ["read"; "fill"; "write"; "darken"; "use only"; "do not";
           "ensure"] in
        let starts_with_instruction :=
          existsb (fun verb => py.startswith verb (py.strip text_lower))
            instruction_verbs in
        if starts_with_instruction && negb has_question_markers then false
        else true.

(** The entries of the list of error reasons, one constructor for each
    message of [validate_question_completeness], carrying the values that
    the message interpolates. *)
Inductive Reason : Type :=
| MissingField (field : string)        (* Missing required field: ... *)
| TextTooShort (n : nat)               (* Question text too short: n chars *)
| PlaceholderPattern (pattern : string) (* Found placeholder pattern: ... *)
| ExpectedFourOptions (n : nat)        (* Expected 4 options, got n *)
| InvalidOptionIDs (ids : list (option string)) (* Invalid option IDs: ... *)
| PlaceholderInOption (id : option string) (* Placeholder found in option *)
| InvalidCorrectOption (c : option string) (* Invalid correctOption: ... *)
| ChapterMissing                       (* Chapter is missing or placeholder *)
| TopicMissing                         (* Topic is missing or placeholder *)
| InsufficientConceptTags (n : nat)    (* Insufficient concept tags: n *)
| PlaceholderConcepts                  (* Placeholder concepts found *)
| MissingStepByStep                    (* Missing stepByStep solution *)
| SolutionTooBrief (n : nat).          (* Solution too brief: n steps *)

Definition absent {A : Type} (field : option A) : bool :=
  match field with
  | Some _ => false
  | None => true
  end.

(** The loop over [required_fields]. *)
Definition missing_fields (question : StructuredQuestion) : list Reason :=
  List.concat
    (List.map (fun '(field, is_absent) =>
                 if (is_absent : bool) then [MissingField field] else [])
       [ ("id", absent (id question));
         ("questionText", absent (questionText question));
         ("options", absent (options question));
         ("correctOption", absent (correctOption question));
         ("classification", absent (classification question)) ]).

(** The loop over [PLACEHOLDER_PATTERNS], left at the first hit. *)
Fixpoint placeholder_errors (patterns : list (string * re.regex))
    (text_lower : string) : list Reason :=
  match patterns with
  | [] => []
  | (pattern, compiled) :: rest =>
      if re.found compiled text_lower
      then [PlaceholderPattern pattern]
      else placeholder_errors rest text_lower
  end.

(** [set(option_ids) != {'A', 'B', 'C', 'D'}] *)
Definition letters : gset (option string) :=
  {[ Some "A"; Some "B"; Some "C"; Some "D" ]}.

Definition ids_differ (option_ids : list (option string)) : bool :=
  negb (bool_decide ((list_to_set option_ids : gset (option string)) = letters)).

(** The loop looking for placeholder text in the options, left at the
    first hit. *)
Fixpoint option_placeholder_errors (opts : list AnswerOption) : list Reason :=
  match opts with
  | [] => []
  | opt :: rest =>
      let opt_text := py.lower (get (opt_text opt) "") in
      if py.contains "text here" opt_text
         || py.contains "option" opt_text && py.contains "text" opt_text
      then [PlaceholderInOption (opt_id opt)]
      else option_placeholder_errors rest
  end.

Definition option_errors (opts : list AnswerOption) : list Reason :=
  if negb (List.length opts =? 4)%nat
  then [ExpectedFourOptions (List.length opts)]
  else
    let option_ids := List.map opt_id opts in
    ((if ids_differ option_ids then [InvalidOptionIDs option_ids] else [])
     ++ option_placeholder_errors opts)%list.

Definition correct_option_errors (correct_option : option string)
    : list Reason :=
  if existsb (eq_str correct_option) [Some "A"; Some "B"; Some "C"; Some "D"]
  then []
  else [InvalidCorrectOption correct_option].

(** [not name or name.lower() in ['unknown', placeholder]] *)
Definition missing_or_placeholder (name placeholder : string) : bool :=
  String.eqb name ""
  || existsb (String.eqb (py.lower name)) ["unknown"; placeholder].

Definition placeholder_tag (tag : string) : bool :=
  py.contains "concept" (py.lower tag)
  && negb (py.startswith "concept" (py.lower tag)).

Definition concept_tag_errors (concept_tags : list string) : list Reason :=
  if (List.length concept_tags =? 0)%nat
     || (List.length concept_tags <? 2)%nat
  then [InsufficientConceptTags (List.length concept_tags)]
  else if existsb placeholder_tag concept_tags
       then [PlaceholderConcepts]
       else [].

Definition step_errors (steps : list Step) : list Reason :=
  if (List.length steps =? 0)%nat then [MissingStepByStep]
  else if (List.length steps <? 2)%nat
       then [SolutionTooBrief (List.length steps)]
       else [].

Definition validate_question_completeness (question : StructuredQuestion)
    : bool * list Reason :=
  let errors := missing_fields question in
  if negb (List.length errors =? 0)%nat then (false, errors)
  else
    let question_text := get (questionText question) "" in
    let errors :=
      (errors ++
       (if (py.len question_text <? 50)%nat
        then [TextTooShort (py.len question_text)] else []))%list in
    let text_lower := py.lower question_text in
    let errors :=
      (errors ++ placeholder_errors config.PLACEHOLDER_PATTERNS text_lower)%list
    in
    let opts := get (options question) [] in
    let errors := (errors ++ option_errors opts)%list in
    let correct_option := correctOption question in
    let errors := (errors ++ correct_option_errors correct_option)%list in
    let classification :=
      get (classification question) (mkClassification None None None) in
    let chapter := get (chapter classification) "" in
    let errors :=
      (errors ++
       (if missing_or_placeholder chapter "chapter name here"
        then [ChapterMissing] else []))%list in
    let topic := get (topic classification) "" in
    let errors :=
      (errors ++
       (if missing_or_placeholder topic "topic name here"
        then [TopicMissing] else []))%list in
    let concept_tags := get (conceptTags classification) [] in
    let errors := (errors ++ concept_tag_errors concept_tags)%list in
    let steps := get (stepByStep question) [] in
    let errors := (errors ++ step_errors steps)%list in
    ((List.length errors =? 0)%nat, errors).

(** The summary dict of [get_validation_summary]. *)
Record Summary : Type := mkSummary {
  total : Z;
  valid : Z;
  invalid : Z;
  error_breakdown : gmap string Z
}.

(** [breakdown[error] = breakdown.get(error, 0) + 1] *)
Definition count_error (breakdown : gmap string Z) (error : string)
    : gmap string Z :=
  <[error := get (breakdown !! error) 0 + 1]> breakdown.

(** The body of the loop of [get_validation_summary].  [message] is the
    text of a reason, as the f-strings of
    [validate_question_completeness] write it. *)
Definition summarize (message : Reason -> string) (summary : Summary)
    (q : StructuredQuestion) : Summary :=
  let '(is_valid, errors) := validate_question_completeness q in
  if is_valid
  then {| total := total summary;
          valid := valid summary + 1;
          invalid := invalid summary;
          error_breakdown := error_breakdown summary |}
  else {| total := total summary;
          valid := valid summary;
          invalid := invalid summary + 1;
          error_breakdown :=
            fold_left count_error (List.map message errors)
              (error_breakdown summary) |}.

Definition get_validation_summary (message : Reason -> string)
    (questions : list StructuredQuestion) : Summary :=
  fold_left (summarize message) questions
    {| total := Z.of_nat (List.length questions);
       valid := 0;
       invalid := 0;
       error_breakdown := ∅ |}.

End question_validator.

(** ** The generation service

    What one HTTP request to the service comes to, as far as the clients
    can tell.  The service is a list of the outcomes of the requests still
    to come; a service that has no outcome left fails the request. *)

Module generation_service.

Inductive Attempt : Type :=
| AttemptError
    (* the request raised, the status was >= 400, or the body was not the
       expected JSON envelope: an exception before the usage is recorded *)
| AttemptUnparsed (input_tokens output_tokens : Z)
    (* a completion in which extract_json_from_response finds no JSON *)
| AttemptParsed (input_tokens output_tokens : Z)
    (result : structured.StructuredQuestion).
    (* a completion from which extract_json_from_response returns result *)

Definition request (service : list Attempt) : Attempt * list Attempt :=
  match service with
  | outcome :: rest => (outcome, rest)
  | [] => (AttemptError, [])
  end.

End generation_service.

(** ** process_claude.py *)

Module process_claude.

Import structured generation_service.

(** The loop over the parts between the code fences of
    [extract_json_from_response].  [loads] is [json.loads], [None] being
    its [JSONDecodeError]. *)
Fixpoint code_blocks {A : Type} (loads : string -> option A)
    (parts : list string) : option A :=
  match parts with
  | [] => None
  | part :: rest =>
      let part := py.strip part in
      let part :=
        if py.startswith "json" part then py.strip (py.drop 4 part)
        else part in
      if py.startswith "{" part && py.endswith "}" part
      then
        match loads part with
        | Some v => Some v
        | None => code_blocks loads rest
        end
      else code_blocks loads rest
  end.

(** [extract_json_from_response]; [None] is its [ValueError]. *)
Definition extract_json_from_response {A : Type}
    (loads : string -> option A) (text : string) : option A :=
  let start := py.find "{" text in
  let end_ := py.rfind "}" text in
  let parsed :=
    match start, end_ with
    | Some start, Some end_ =>
        if (start <? end_)%nat
        then loads (py.slice start (end_ + 1) text)
        else None
    | _, _ => None
    end in
  match parsed with
  | Some v => Some v
  | None =>
      if py.contains "```" text
      then code_blocks loads (py.split_on "```" text)
      else None
  end.

(** [for opt in result.get('options', []):
        opt['isCorrect'] = (opt['id'] == question['correct_answer'])];
    [None] is the [KeyError] of [opt['id']]. *)
Fixpoint fix_options (correct_answer : option string)
    (opts : list AnswerOption) : option (list AnswerOption) :=
  match opts with
  | [] => Some []
  | opt :: rest =>
      match opt_id opt with
      | None => None
      | Some i =>
          match fix_options correct_answer rest with
          | None => None
          | Some rest' =>
              Some ({| opt_id := opt_id opt;
                       opt_text := opt_text opt;
                       isCorrect := Some (eq_str (Some i) correct_answer);
                       analysis := analysis opt |} :: rest')
          end
      end
  end.

(** The check "CRITICAL: Verify answer wasn't changed" of [call_claude_api].
    [None] is an exception, caught by the retry loop. *)
Definition verify_answer (question : pdf_extractor.Question)
    (result : StructuredQuestion) : option StructuredQuestion :=
  let correct_answer := pdf_extractor.correct_answer question in
  if negb (eq_str (correctOption result) correct_answer) then
    match options result with
    | None =>
        Some {| id := id result;
                questionNumber := questionNumber result;
                questionText := questionText result;
                options := None;
                correctOption := correct_answer;
                classification := classification result;
                stepByStep := stepByStep result |}
    | Some opts =>
        match fix_options correct_answer opts with
        | None => None
        | Some opts' =>
            Some {| id := id result;
                    questionNumber := questionNumber result;
                    questionText := questionText result;
                    options := Some opts';
                    correctOption := correct_answer;
                    classification := classification result;
                    stepByStep := stepByStep result |}
        end
    end
  else Some result.

(** [d.setdefault(key, value)] on one field, [None] being a key that is
    absent *)
Definition setdefault {A : Type} (field : option A) (value : option A)
    : option A :=
  match field with
  | Some v => Some v
  | None => value
  end.

(** "Ensure required fields" *)
Definition ensure_required_fields (question : pdf_extractor.Question)
    (result : StructuredQuestion) : StructuredQuestion :=
  {| id := setdefault (id result)
             (Some (default_id (pdf_extractor.number question)));
     questionNumber := setdefault (questionNumber result)
                         (Some (pdf_extractor.number question));
     questionText := setdefault (questionText result)
                       (Some (pdf_extractor.question_text question));
     options := options result;
     correctOption := setdefault (correctOption result)
                        (pdf_extractor.correct_answer question);
     classification := classification result;
     stepByStep := stepByStep result |}.

(** The retry loop [for attempt in range(1, max_retries + 1)], [n] attempts
    being left.  The pauses are not modelled. *)
Fixpoint attempts (n : nat) (question : pdf_extractor.Question)
    (tracker : cost_tracker.CostTracker) (service : list Attempt)
    : option StructuredQuestion * cost_tracker.CostTracker * list Attempt :=
  match n with
  | O => (None, tracker, service)
  | S n' =>
      let '(outcome, service) := request service in
      match outcome with
      | AttemptError =>
          attempts n' question
            (cost_tracker.record_call tracker 0 0 false) service
      | AttemptUnparsed input_tokens output_tokens =>
          let tracker :=
            cost_tracker.record_call tracker input_tokens output_tokens true
          in
          attempts n' question
            (cost_tracker.record_call tracker 0 0 false) service
      | AttemptParsed input_tokens output_tokens result =>
          let tracker :=
            cost_tracker.record_call tracker input_tokens output_tokens true
          in
          match verify_answer question result with
          | Some result =>
              (Some (ensure_required_fields question result), tracker,
               service)
          | None =>
              attempts n' question
                (cost_tracker.record_call tracker 0 0 false) service
          end
      end
  end.

Definition call_claude_api (question : pdf_extractor.Question)
    (max_retries : Z) (tracker : cost_tracker.CostTracker)
    (service : list Attempt)
    : option StructuredQuestion * cost_tracker.CostTracker * list Attempt :=
  attempts (Z.to_nat max_retries) question tracker service.

(** The truth value of an optional integer argument: [None] and 0 are
    false. *)
Definition truthy_int (n : option Z) : bool :=
  match n with
  | Some n => negb (n =? 0)
  | None => false
  end.

(** The options [--start-question] and [--end-question]. *)
Record Args : Type := mkArgs {
  start_question : option Z;
  end_question : option Z
}.

(** "Filter by question number range if specified": [start] is
    [args.start_question or 1] and [end] is
    [args.end_question or float('inf')]. *)
Definition select (args : Args) (questions : list pdf_extractor.Question)
    : list pdf_extractor.Question :=
  if truthy_int (start_question args) || truthy_int (end_question args)
  then
    let start :=
      if truthy_int (start_question args)
      then get (start_question args) 1 else 1 in
    List.filter
      (fun q =>
         (start <=? pdf_extractor.number q)
         && (if truthy_int (end_question args)
             then pdf_extractor.number q <=? get (end_question args) 0
             else true))
      questions
  else questions.

End process_claude.

(** ** process_questions_v2.py *)

Module process_questions_v2.

Import structured generation_service.

(** [extract_json_from_response] is the same text as in
    process_claude.py. *)
Definition extract_json_from_response {A : Type}
    : (string -> option A) -> string -> option A :=
  process_claude.extract_json_from_response.

(** The retry loop of [call_perplexity_api], [n] attempts being left.  The
    pauses are not modelled. *)
Fixpoint attempts (n : nat) (question : pdf_extractor.Question)
    (tracker : cost_tracker.CostTracker) (service : list Attempt)
    : option StructuredQuestion * cost_tracker.CostTracker * list Attempt :=
  match n with
  | O => (None, tracker, service)
  | S n' =>
      let '(outcome, service) := request service in
      match outcome with
      | AttemptError =>
          attempts n' question
            (cost_tracker.record_call tracker 0 0 false) service
      | AttemptUnparsed input_tokens output_tokens =>
          let tracker :=
            cost_tracker.record_call tracker input_tokens output_tokens true
          in
          attempts n' question
            (cost_tracker.record_call tracker 0 0 false) service
      | AttemptParsed input_tokens output_tokens result =>
          let tracker :=
            cost_tracker.record_call tracker input_tokens output_tokens true
          in
          (Some {| id := process_claude.setdefault (id result)
                     (Some (default_id (pdf_extractor.number question)));
                   questionNumber :=
                     process_claude.setdefault (questionNumber result)
                       (Some (pdf_extractor.number question));
                   questionText :=
                     process_claude.setdefault (questionText result)
                       (Some (pdf_extractor.question_text question));
                   options := options result;
                   correctOption := correctOption result;
                   classification := classification result;
                   stepByStep := stepByStep result |},
           tracker, service)
      end
  end.

Definition call_perplexity_api (question : pdf_extractor.Question)
    (max_retries : Z) (tracker : cost_tracker.CostTracker)
    (service : list Attempt)
    : option StructuredQuestion * cost_tracker.CostTracker * list Attempt :=
  attempts (Z.to_nat max_retries) question tracker service.

(** The progress dict, which is also the content of the progress file. *)
Record Progress : Type := mkProgress {
  last_completed_batch : Z;
  next_question_index : Z;
  processed_question_ids : list Z
}.

Definition fresh_progress : Progress := mkProgress (-1) 0 [].

(** A line of the failure log: [<timestamp> | Q<number> | <reason>], the
    timestamp left out. *)
Inductive FailureReason : Type :=
| InvalidPhysicsContent                        (* Invalid physics content *)
| ApiCallFailed                                (* API call failed *)
| Validation (error : question_validator.Reason). (* Validation: ... *)

Record FailureRecord : Type := mkFailureRecord {
  question_num : Z;
  reason : FailureReason
}.

(** What the orchestrator reads and writes outside of its own variables. *)
Record World : Type := mkWorld {
  progress_file : option Progress;                 (* None: no such file *)
  batches_dir : gmap string (list StructuredQuestion);
  failed_log : list FailureRecord;
  service : list Attempt
}.

Definition load_progress (w : World) : Progress :=
  match progress_file w with
  | Some progress => progress
  | None => fresh_progress
  end.

Definition save_progress (progress : Progress) (w : World) : World :=
  {| progress_file := Some progress;
     batches_dir := batches_dir w;
     failed_log := failed_log w;
     service := service w |}.

(** [f"batch_{batch_num:04d}.json"] *)
Definition batch_file (batch_num : Z) : string :=
  "batch_" ++ format_0d 4 batch_num ++ ".json".

Definition save_batch (batch_num : Z) (questions : list StructuredQuestion)
    (w : World) : World :=
  {| progress_file := progress_file w;
     batches_dir := <[batch_file batch_num := questions]> (batches_dir w);
     failed_log := failed_log w;
     service := service w |}.

Definition log_failed_question (question_num : Z) (reason : FailureReason)
    (w : World) : World :=
  {| progress_file := progress_file w;
     batches_dir := batches_dir w;
     failed_log := (failed_log w ++ [mkFailureRecord question_num reason])%list;
     service := service w |}.

Definition with_service (service : list Attempt) (w : World) : World :=
  {| progress_file := progress_file w;
     batches_dir := batches_dir w;
     failed_log := failed_log w;
     service := service |}.

(** The variables of [process_questions_in_batches] that change during the
    run, and the world. *)
Record Run : Type := mkRun {
  progress : Progress;
  all_results : list StructuredQuestion;
  tracker : cost_tracker.CostTracker;
  world : World
}.

Definition in_world (f : World -> World) (run : Run) : Run :=
  {| progress := progress run;
     all_results := all_results run;
     tracker := tracker run;
     world := f (world run) |}.

(** The body of [for q in batch]: the run and [batch_results] before and
    after.  [None] is an exception that nothing in the function catches. *)
Definition process_question (max_retries : Z) (dry_run : bool)
    (q : pdf_extractor.Question)
    (run : Run) (batch_results : list StructuredQuestion)
    : option (Run * list StructuredQuestion) :=
  let q_num := pdf_extractor.number q in
  if existsb (Z.eqb q_num) (processed_question_ids (progress run))
  then Some (run, batch_results)                      (* already processed *)
  else if negb (question_validator.is_valid_physics_question
                  (pdf_extractor.text q))
  then Some (in_world (log_failed_question q_num InvalidPhysicsContent) run,
             batch_results)
  else if dry_run then Some (run, batch_results)
  else
    let '(structured, tracker, service) :=
      call_perplexity_api q max_retries (tracker run) (service (world run)) in
    let run :=
      {| progress := progress run;
         all_results := all_results run;
         tracker := tracker;
         world := with_service service (world run) |} in
    match structured with
    | None =>
        Some (in_world (log_failed_question q_num ApiCallFailed) run,
              batch_results)
    | Some structured =>
        let '(is_valid, errors) :=
          question_validator.validate_question_completeness structured in
        let logged :=
          if negb is_valid then
            match errors with
            | error :: _ =>
                Some (in_world
                        (log_failed_question q_num (Validation error)) run)
            | [] => None                              (* errors[0] *)
            end
          else Some run in
        match logged with
        | None => None
        | Some run =>
            Some ({| progress :=
                       {| last_completed_batch :=
                            last_completed_batch (progress run);
                          next_question_index :=
                            next_question_index (progress run);
                          processed_question_ids :=
                            (processed_question_ids (progress run)
                               ++ [q_num])%list |};
                     all_results := (all_results run ++ [structured])%list;
                     tracker := tracker;
                     world := world run |},
                  (batch_results ++ [structured])%list)
        end
    end.

Fixpoint process_records (max_retries : Z) (dry_run : bool)
    (batch : list pdf_extractor.Question)
    (run : Run) (batch_results : list StructuredQuestion)
    : option (Run * list StructuredQuestion) :=
  match batch with
  | [] => Some (run, batch_results)
  | q :: rest =>
      match process_question max_retries dry_run q run batch_results with
      | None => None
      | Some (run, batch_results) =>
          process_records max_retries dry_run rest run batch_results
      end
  end.

(** The body of the loop over the batches: [batch_num] and [i] are the two
    loop variables. *)
Definition process_batch (questions : list pdf_extractor.Question)
    (max_retries batch_size : Z) (dry_run : bool)
    (batch_num i : Z) (run : Run) : option Run :=
  let actual_batch_num :=
    last_completed_batch (progress run) + 1 + batch_num in
  let batch := py.slice_list i (i + batch_size) questions in
  match process_records max_retries dry_run batch run [] with
  | None => None
  | Some (run, batch_results) =>
      let run :=
        if negb (List.length batch_results =? 0)%nat && negb dry_run
        then in_world (save_batch actual_batch_num batch_results) run
        else run in
      let progress :=
        {| last_completed_batch := actual_batch_num;
           next_question_index :=
             Z.min (i + batch_size) (Z.of_nat (List.length questions));
           processed_question_ids :=
             processed_question_ids (progress run) |} in
      Some {| progress := progress;
              all_results := all_results run;
              tracker := tracker run;
              world := save_progress progress (world run) |}
  end.

(** [for batch_num, i in enumerate(range(...))]: [starts] are the values of
    [i] still to come, [batch_num] is the index of the first of them. *)
Fixpoint process_batches (questions : list pdf_extractor.Question)
    (max_retries batch_size : Z) (dry_run : bool)
    (batch_num : Z) (starts : list Z) (run : Run) : option Run :=
  match starts with
  | [] => Some run
  | i :: rest =>
      match process_batch questions max_retries batch_size dry_run
              batch_num i run with
      | None => None
      | Some run =>
          process_batches questions max_retries batch_size dry_run
            (batch_num + 1) rest run
      end
  end.

(** The run up to the end of the loop over the batches. *)
Definition run_batches (questions : list pdf_extractor.Question)
    (max_retries batch_size : Z) (resume dry_run : bool) (w : World)
    : option Run :=
  let progress := if resume then load_progress w else fresh_progress in
  let start_idx := next_question_index progress in
  match py.range start_idx (Z.of_nat (List.length questions)) batch_size with
  | None => None
  | Some starts =>
      process_batches questions max_retries batch_size dry_run 0 starts
        {| progress := progress;
           all_results := [];
           tracker := cost_tracker.new;
           world := w |}
  end.

(** *** merge_batches *)

(** The order of [sorted] on the paths of one directory: that of their
    names, character by character. *)
Definition path_le (a b : string) : Prop := String.leb a b = true.

#[global] Instance path_le_dec : RelDecision path_le.
Proof. intros a b. unfold path_le. apply _. Defined.

(** [fnmatch(name, "batch_*.json")] *)
Definition is_batch_file (name : string) : bool :=
  py.startswith "batch_" name && py.endswith ".json" (py.drop 6 name).

(** [sorted(batches_dir.glob("batch_*.json"))] *)
Definition batch_files (dir : gmap string (list StructuredQuestion))
    : list string :=
  merge_sort path_le
    (List.filter is_batch_file (List.map fst (map_to_list dir))).

(** The inner loop [for q in batch_questions]. *)
Fixpoint merge_questions (batch_questions : list StructuredQuestion)
    (all_questions : list StructuredQuestion) (seen_ids : gset string)
    : list StructuredQuestion * gset string :=
  match batch_questions with
  | [] => (all_questions, seen_ids)
  | q :: rest =>
      match id q with
      | Some q_id =>
          if negb (String.eqb q_id "") && negb (bool_decide (q_id ∈ seen_ids))
          then merge_questions rest (all_questions ++ [q])%list
                 ({[ q_id ]} ∪ seen_ids)
          else merge_questions rest all_questions seen_ids
      | None => merge_questions rest all_questions seen_ids
      end
  end.

(** The outer loop [for batch_file in batch_files]. *)
Fixpoint merge_files (dir : gmap string (list StructuredQuestion))
    (files : list string)
    (all_questions : list StructuredQuestion) (seen_ids : gset string)
    : list StructuredQuestion * gset string :=
  match files with
  | [] => (all_questions, seen_ids)
  | file :: rest =>
      let batch_questions := get (dir !! file) [] in
      let '(all_questions, seen_ids) :=
        merge_questions batch_questions all_questions seen_ids in
      merge_files dir rest all_questions seen_ids
  end.

(** The dataset written by [merge_batches]; of the metadata only the count
    depends on the batches. *)
Record Dataset : Type := mkDataset {
  totalQuestions : nat;
  questions : list StructuredQuestion
}.

Definition merge_batches (dir : gmap string (list StructuredQuestion))
    : Dataset :=
  let '(all_questions, _) := merge_files dir (batch_files dir) [] ∅ in
  {| totalQuestions := List.length all_questions;
     questions := all_questions |}.

End process_questions_v2.

(** ** Properties stated of the code *)

Module properties.

Import structured.

(** The sum of a list of token counts. *)
Definition total (l : list Z) : Z := fold_right Z.add 0 l.

Definition inputs (calls : list cost_tracker.Call) : list Z :=
  List.map (fun '(i, _, _) => i) calls.

Definition outputs (calls : list cost_tracker.Call) : list Z :=
  List.map (fun '(_, o, _) => o) calls.

(** No page matches a start pattern. *)
Definition no_start (pages : list string) : bool :=
  negb (existsb
          (section_locator.matches_any config.SECTION_START_PATTERNS) pages).

Definition is_end (page_text : string) : bool :=
  section_locator.matches_any config.SECTION_END_PATTERNS page_text.

(** Three pages without a section heading, the second of which is the
    start of another section. *)
Definition C5_pages : list string := ["Instructions"; "CHEMISTRY"; "Q1"].

(** The page of index [i], the empty text out of range. *)
Definition page (pages : list string) (i : nat) : string :=
  List.nth i pages "".

(** The letter that [parse_options] gives to the position [k] (from 0). *)
Definition letter_at (k : nat) : string := List.nth k ["A"; "B"; "C"; "D"] "".

(** A text of three blocks, the second with the answer marker 9. *)
Definition C6_text : string :=
  "7." ++ pdf_extractor.newline
  ++ "What is the SI unit of force?" ++ pdf_extractor.newline
  ++ "(1) Joule (2) Newton (3) Watt (4) Pascal" ++ pdf_extractor.newline
  ++ "Answer (2)" ++ pdf_extractor.newline
  ++ "8." ++ pdf_extractor.newline
  ++ "What is the SI unit of work done? (1) a (2) b (3) c (4) d"
  ++ pdf_extractor.newline
  ++ "Answer (9)" ++ pdf_extractor.newline
  ++ "9." ++ pdf_extractor.newline
  ++ "What is the SI unit of power used? (1) a (2) b (3) c (4) d"
  ++ pdf_extractor.newline
  ++ "Answer (3)" ++ pdf_extractor.newline.

(** The second block of [C6_text] as the strict pattern captures it. *)
Definition C6_block : list string :=
  [ "8"; "What is the SI unit of work done? "; "a "; "b "; "c ";
    "d" ++ pdf_extractor.newline; "9" ].

(** The matches of the tolerant block pattern on [C6_text], the second of
    them and the start of the third. *)
Definition C6_matches : list re.Match :=
  Eval vm_compute in
    re.finditer pdf_extractor_v3.question_block_pattern C6_text.

Definition C6_match : re.Match :=
  List.nth 1 C6_matches (re.mkMatch 0 0 "" []).

Definition C6_rest : list re.Match := List.skipn 2 C6_matches.

(** The four letters, and the values that
    [validate_question_completeness] reads with a default. *)
Definition ABCD : list string := ["A"; "B"; "C"; "D"].

Definition concept_tags_of (question : StructuredQuestion) : list string :=
  get (conceptTags
         (get (classification question) (mkClassification None None None)))
    [].

Definition steps_of (question : StructuredQuestion) : list Step :=
  get (stepByStep question) [].

(** A record that breaks none of the rules. *)
Definition C8_complete : StructuredQuestion :=
  {| id := Some "neet_2024_phy_007";
     questionNumber := Some 7;
     questionText :=
       Some "A body of mass 2 kg is pushed by a constant force; what is the SI unit of force?";
     options :=
       Some [ mkAnswerOption (Some "A") (Some "Joule") (Some false) None;
              mkAnswerOption (Some "B") (Some "Newton") (Some true) None;
              mkAnswerOption (Some "C") (Some "Watt") (Some false) None;
              mkAnswerOption (Some "D") (Some "Pascal") (Some false) None ];
     correctOption := Some "B";
     classification :=
       Some (mkClassification (Some "Laws of Motion") (Some "Force")
               (Some ["force"; "units"]));
     stepByStep :=
       Some [ mkStep "Step 1" "Recall the definition of force";
              mkStep "Step 2" "The unit is the newton" ] |}.

(** The options whose [isCorrect] flag is true, and those of a given id. *)
Definition flagged (opts : list AnswerOption) : list AnswerOption :=
  List.filter (fun opt => match isCorrect opt with
                          | Some true => true
                          | _ => false
                          end) opts.

Definition with_id (letter : string) (opts : list AnswerOption)
    : list AnswerOption :=
  List.filter (fun opt => eq_str (opt_id opt) (Some letter)) opts.

(** Exactly one option is flagged correct, and its id is [letter]. *)
Definition exactly_one_correct (letter : string)
    (question : StructuredQuestion) : Prop :=
  exists opt,
    flagged (get (options question) []) = [opt] /\
    opt_id opt = Some letter.

(** The question of the example scenario of the spec, whose answer key
    says B. *)
Definition Q7 : pdf_extractor.Question :=
  {| pdf_extractor.number := 7;
     pdf_extractor.text := "What is the SI unit of force?";
     pdf_extractor.question_text := "What is the SI unit of force?";
     pdf_extractor.options :=
       <["D" := "Pascal"]> (<["C" := "Watt"]>
         (<["B" := "Newton"]> (<["A" := "Joule"]> ∅)));
     pdf_extractor.correct_index := 2;
     pdf_extractor.correct_answer := Some "B";
     pdf_extractor.has_answer := true |}.

(** A service answer that says A. *)
Definition Q7_says_A : StructuredQuestion :=
  {| id := None;
     questionNumber := Some 7;
     questionText := None;
     options :=
       Some [ mkAnswerOption (Some "A") (Some "Joule") (Some true) None;
              mkAnswerOption (Some "B") (Some "Newton") (Some false) None;
              mkAnswerOption (Some "C") (Some "Watt") (Some false) None;
              mkAnswerOption (Some "D") (Some "Pascal") (Some false) None ];
     correctOption := Some "A";
     classification := None;
     stepByStep := None |}.

(** A service answer that says B in [correctOption] but flags the option
    A. *)
Definition Q7_says_B_flags_A : StructuredQuestion :=
  {| id := None;
     questionNumber := Some 7;
     questionText := None;
     options := options Q7_says_A;
     correctOption := Some "B";
     classification := None;
     stepByStep := None |}.

(** What becomes of one record of a batch. *)
Inductive Outcome : Type :=
| Skipped                                   (* already processed *)
| Rejected                                  (* not a physics question *)
| Failed                                    (* retries exhausted *)
| Succeeded (structured : StructuredQuestion).

(** The outcomes of the records of a batch, in order, for a run that is not
    a dry run: each call to the generation client finds the tracker and the
    service as the calls before it left them, and a success adds the number
    of its question to the processed ids. *)
Fixpoint outcomes (max_retries : Z) (batch : list pdf_extractor.Question)
    (processed : list Z) (tracker : cost_tracker.CostTracker)
    (service : list generation_service.Attempt) : list (Z * Outcome) :=
  match batch with
  | [] => []
  | q :: rest =>
      let q_num := pdf_extractor.number q in
      if existsb (Z.eqb q_num) processed
      then (q_num, Skipped)
             :: outcomes max_retries rest processed tracker service
      else if negb (question_validator.is_valid_physics_question
                      (pdf_extractor.text q))
      then (q_num, Rejected)
             :: outcomes max_retries rest processed tracker service
      else
        match process_questions_v2.call_perplexity_api q max_retries
                tracker service with
        | (None, tracker, service) =>
            (q_num, Failed)
              :: outcomes max_retries rest processed tracker service
        | (Some structured, tracker, service) =>
            (q_num, Succeeded structured)
              :: outcomes max_retries rest (processed ++ [q_num])%list
                   tracker service
        end
  end.

(** The successful records of a trace. *)
Definition succeeded (trace : list (Z * Outcome)) : list StructuredQuestion :=
  List.flat_map (fun '(_, outcome) =>
                   match outcome with
                   | Succeeded structured => [structured]
                   | _ => []
                   end) trace.

(** The lines that a trace adds to the failure log: one for a rejected
    record, one for a failed record, and one for a successful record that
    is found incomplete. *)
Definition failure_records (trace : list (Z * Outcome))
    : list process_questions_v2.FailureRecord :=
  List.flat_map
    (fun '(q_num, outcome) =>
       match outcome with
       | Skipped => []
       | Rejected =>
           [process_questions_v2.mkFailureRecord q_num
              process_questions_v2.InvalidPhysicsContent]
       | Failed =>
           [process_questions_v2.mkFailureRecord q_num
              process_questions_v2.ApiCallFailed]
       | Succeeded structured =>
           match question_validator.validate_question_completeness
                   structured with
           | (false, error :: _) =>
               [process_questions_v2.mkFailureRecord q_num
                  (process_questions_v2.Validation error)]
           | _ => []
           end
       end) trace.

(** Sample data: a question that the content filter accepts, and an answer
    of the service that is complete. *)
Definition physics_question (n : Z) : pdf_extractor.Question :=
  {| pdf_extractor.number := n;
     pdf_extractor.text :=
       "What is the SI unit of force applied on a body of mass one?";
     pdf_extractor.question_text :=
       "What is the SI unit of force applied on a body of mass one?";
     pdf_extractor.options :=
       <["D" := "Pascal"]> (<["C" := "Watt"]>
         (<["B" := "Newton"]> (<["A" := "Joule"]> ∅)));
     pdf_extractor.correct_index := 2;
     pdf_extractor.correct_answer := Some "B";
     pdf_extractor.has_answer := true |}.

Definition complete_answer : StructuredQuestion :=
  {| id := None;
     questionNumber := None;
     questionText := questionText C8_complete;
     options := options C8_complete;
     correctOption := correctOption C8_complete;
     classification := classification C8_complete;
     stepByStep := stepByStep C8_complete |}.

Definition answered : generation_service.Attempt :=
  generation_service.AttemptParsed 100 200 complete_answer.

Definition empty_world (service : list generation_service.Attempt)
    : process_questions_v2.World :=
  {| process_questions_v2.progress_file := None;
     process_questions_v2.batches_dir := ∅;
     process_questions_v2.failed_log := [];
     process_questions_v2.service := service |}.

Definition fresh_run (service : list generation_service.Attempt)
    : process_questions_v2.Run :=
  {| process_questions_v2.progress := process_questions_v2.fresh_progress;
     process_questions_v2.all_results := [];
     process_questions_v2.tracker := cost_tracker.new;
     process_questions_v2.world := empty_world service |}.

(** The example scenario of C4: a batch of ten records, the fifth of which
    fails both of its attempts. *)
Definition C4_questions : list pdf_extractor.Question :=
  List.map physics_question [1; 2; 3; 4; 5; 6; 7; 8; 9; 10].

Definition C4_service : list generation_service.Attempt :=
  [ answered; answered; answered; answered;
    generation_service.AttemptError; generation_service.AttemptError;
    answered; answered; answered; answered; answered ].

(** A run of three batches of one record each. *)
Definition C3_questions : list pdf_extractor.Question :=
  List.map physics_question [1; 2; 3].

Definition C3_service : list generation_service.Attempt :=
  [answered; answered; answered].

(** The questions in the order in which [merge_batches] reads them: file
    after file in the order of [batch_files], each file from its first
    entry to its last. *)
Definition reading_order
    (dir : gmap string (list StructuredQuestion)) : list StructuredQuestion :=
  List.concat
    (List.map (fun file => get (dir !! file) [])
       (process_questions_v2.batch_files dir)).

Definition entries_with_id (i : string) (l : list StructuredQuestion)
    : list StructuredQuestion :=
  List.filter (fun q => eq_str (id q) (Some i)) l.

(** Two entries with the empty id, in one batch. *)
Definition C7_unnamed (n : Z) : StructuredQuestion :=
  {| id := Some "";
     questionNumber := Some n;
     questionText := None;
     options := None;
     correctOption := None;
     classification := None;
     stepByStep := None |}.

Definition C7_dir : gmap string (list StructuredQuestion) :=
  {[ process_questions_v2.batch_file 0 := [C7_unnamed 1; C7_unnamed 2] ]}.

(** The same question id in the batches 3 and 12, with different texts. *)
Definition C7_named (text : string) : StructuredQuestion :=
  {| id := Some "neet_2024_phy_007";
     questionNumber := Some 7;
     questionText := Some text;
     options := None;
     correctOption := None;
     classification := None;
     stepByStep := None |}.

Definition C7_two_batches : gmap string (list StructuredQuestion) :=
  <[ process_questions_v2.batch_file 12 := [C7_named "second"] ]>
    {[ process_questions_v2.batch_file 3
         := [C7_named "first"; C7_named "again"] ]}.

(** The names of the [count] batches from [n] on are each strictly before
    the name of the next batch. *)
Fixpoint names_ascend (count : nat) (n : Z) : bool :=
  match count with
  | O => true
  | S count' =>
      String.ltb (process_questions_v2.batch_file n)
        (process_questions_v2.batch_file (n + 1))
      && names_ascend count' (n + 1)
  end.

(** A page matches a start pattern. *)
Definition is_start (page_text : string) : bool :=
  section_locator.matches_any config.SECTION_START_PATTERNS page_text.

(** The characters of a text that satisfy [p], in order. *)
Fixpoint keep (p : ascii -> bool) (s : string) : string :=
  match s with
  | EmptyString => EmptyString
  | String c s' => if p c then String c (keep p s') else keep p s'
  end.

(** A word as [str.split] yields them: not empty and without white
    space. *)
Definition is_word (w : string) : Prop :=
  w <> "" /\ keep py.isspace w = "".

(** The keys of the options of a question, and the letter of an answer
    index. *)
Definition option_letters : gset string := {[ "A"; "B"; "C"; "D" ]}.

Definition letter_of_index (k : Z) : string := letter_at (Z.to_nat (k - 1)).

(** What holds of every question that the strict parser extracts. *)
Definition strict_question (q : pdf_extractor.Question) : Prop :=
  pdf_extractor.has_answer q = true /\
  1 <= pdf_extractor.correct_index q <= 4 /\
  pdf_extractor.correct_answer q
    = Some (letter_of_index (pdf_extractor.correct_index q)) /\
  dom (pdf_extractor.options q) = option_letters /\
  (forall letter opt_text,
     pdf_extractor.options q !! letter = Some opt_text ->
     pdf_extractor.squeeze opt_text = opt_text) /\
  pdf_extractor.text q = pdf_extractor.question_text q /\
  pdf_extractor.squeeze (pdf_extractor.text q) = pdf_extractor.text q /\
  (20 <= py.len (pdf_extractor.text q))%nat.

(** What holds of every question that the tolerant parser extracts. *)
Definition tolerant_question (q : pdf_extractor_v3.Question) : Prop :=
  dom (pdf_extractor_v3.options q) = option_letters /\
  (forall letter opt_text,
     pdf_extractor_v3.options q !! letter = Some opt_text ->
     pdf_extractor_v3.squeeze opt_text = opt_text) /\
  match pdf_extractor_v3.correct_index q,
        pdf_extractor_v3.correct_answer q with
  | Some k, Some letter =>
      1 <= k <= 4 /\ letter = letter_of_index k /\
      pdf_extractor_v3.has_answer q = true
  | Some k, None =>
      ~ (1 <= k <= 4) /\ pdf_extractor_v3.has_answer q = false
  | None, None => pdf_extractor_v3.has_answer q = false
  | None, Some _ => False
  end /\
  pdf_extractor_v3.squeeze (pdf_extractor_v3.question_text q)
    = pdf_extractor_v3.question_text q /\
  py.strip (pdf_extractor_v3.full_text q) = pdf_extractor_v3.full_text q /\
  (20 <= py.len (pdf_extractor_v3.full_text q))%nat.

(** What holds of every entry that [parse_options] returns. *)
Definition option_entry (entry : pdf_extractor.OptionEntry) : Prop :=
  In (pdf_extractor.id entry) ABCD /\
  py.strip (pdf_extractor.opt_text entry) = pdf_extractor.opt_text entry.

(** The four entries without text. *)
Definition empty_options : list pdf_extractor.OptionEntry :=
  List.map (fun letter => pdf_extractor.mkOptionEntry letter "") ABCD.

(** What holds of every dict of [extract_questions_simple]. *)
Definition simple_question (q : pdf_extractor.simple.Question) : Prop :=
  List.length (pdf_extractor.simple.options q) = 4%nat /\
  Forall option_entry (pdf_extractor.simple.options q) /\
  pdf_extractor.simple.raw_block q = pdf_extractor.simple.text q /\
  py.strip (pdf_extractor.simple.text q) = pdf_extractor.simple.text q.

(** The outcome of the request number [k] (from 0) to a service, and the
    outcomes of the first [m] requests. *)
Definition outcome_at (service : list generation_service.Attempt) (k : nat)
    : generation_service.Attempt :=
  List.nth k service generation_service.AttemptError.

Definition outcomes_made (service : list generation_service.Attempt)
    (m : nat) : list generation_service.Attempt :=
  List.map (outcome_at service) (List.seq 0 m).

(** The record that a client makes of a parsed answer: that of
    [call_perplexity_api] and that of [call_claude_api], which has none when
    the loop over the options raises. *)
Definition perplexity_record (question : pdf_extractor.Question)
    (result : StructuredQuestion) : option StructuredQuestion :=
  Some {| id := process_claude.setdefault (id result)
                  (Some (default_id (pdf_extractor.number question)));
          questionNumber :=
            process_claude.setdefault (questionNumber result)
              (Some (pdf_extractor.number question));
          questionText :=
            process_claude.setdefault (questionText result)
              (Some (pdf_extractor.question_text question));
          options := options result;
          correctOption := correctOption result;
          classification := classification result;
          stepByStep := stepByStep result |}.

Definition claude_record (question : pdf_extractor.Question)
    (result : StructuredQuestion) : option StructuredQuestion :=
  match process_claude.verify_answer question result with
  | Some result => Some (process_claude.ensure_required_fields question result)
  | None => None
  end.

(** The record, if any, that an attempt ends with, and the calls that it
    adds to the tracker. *)
Definition record_of (finish : StructuredQuestion -> option StructuredQuestion)
    (outcome : generation_service.Attempt) : option StructuredQuestion :=
  match outcome with
  | generation_service.AttemptParsed _ _ result => finish result
  | _ => None
  end.

Definition recorded (finish : StructuredQuestion -> option StructuredQuestion)
    (outcome : generation_service.Attempt) : list cost_tracker.Call :=
  match outcome with
  | generation_service.AttemptError => [(0, 0, false)]
  | generation_service.AttemptUnparsed i o => [(i, o, true); (0, 0, false)]
  | generation_service.AttemptParsed i o result =>
      match finish result with
      | Some _ => [(i, o, true)]
      | None => [(i, o, true); (0, 0, false)]
      end
  end.

(** A run of the retry loop of a client with [n] attempts at most, which
    made [m] requests: what it returns, the tracker and the service after
    it. *)
Definition client_run
    (finish : StructuredQuestion -> option StructuredQuestion)
    (n : nat) (tracker : cost_tracker.CostTracker)
    (service : list generation_service.Attempt) (m : nat)
    (returned : option StructuredQuestion * cost_tracker.CostTracker
                * list generation_service.Attempt) : Prop :=
  let '(result, tracker', service') := returned in
  (m <= n)%nat /\
  service' = List.skipn m service /\
  tracker'
    = cost_tracker.record_calls tracker
        (List.flat_map (recorded finish) (outcomes_made service m)) /\
  match result with
  | Some r =>
      exists k, m = S k /\
        Forall (fun outcome => record_of finish outcome = None)
          (outcomes_made service k) /\
        record_of finish (outcome_at service k) = Some r /\
        cost_tracker.failed_calls tracker'
          = cost_tracker.failed_calls tracker + Z.of_nat k
  | None =>
      m = n /\
      Forall (fun outcome => record_of finish outcome = None)
        (outcomes_made service m) /\
      cost_tracker.failed_calls tracker'
        = cost_tracker.failed_calls tracker + Z.of_nat m
  end.

(** The run with which [process_questions_in_batches] starts, and the
    values of [i] of its loop. *)
Definition initial_progress (resume : bool) (w : process_questions_v2.World)
    : process_questions_v2.Progress :=
  if resume then process_questions_v2.load_progress w
  else process_questions_v2.fresh_progress.

Definition initial_run (resume : bool) (w : process_questions_v2.World)
    : process_questions_v2.Run :=
  {| process_questions_v2.progress := initial_progress resume w;
     process_questions_v2.all_results := [];
     process_questions_v2.tracker := cost_tracker.new;
     process_questions_v2.world := w |}.

Definition batch_starts (questions : list pdf_extractor.Question)
    (batch_size : Z) (resume : bool) (w : process_questions_v2.World)
    : option (list Z) :=
  py.range
    (process_questions_v2.next_question_index (initial_progress resume w))
    (Z.of_nat (List.length questions)) batch_size.

(** The failure records of the questions that the content check rejects,
    those already processed left out. *)
Definition rejected (processed : list Z)
    (questions : list pdf_extractor.Question)
    : list process_questions_v2.FailureRecord :=
  List.map
    (fun q =>
       process_questions_v2.mkFailureRecord (pdf_extractor.number q)
         process_questions_v2.InvalidPhysicsContent)
    (List.filter
       (fun q =>
          negb (existsb (Z.eqb (pdf_extractor.number q)) processed)
          && negb (question_validator.is_valid_physics_question
                     (pdf_extractor.text q)))
       questions).

(** Sample data: a block of instructions that the pattern of the strict
    parser could take for a question. *)
Definition instructions (n : Z) : pdf_extractor.Question :=
  {| pdf_extractor.number := n;
     pdf_extractor.text :=
       "Read the following instructions carefully before you answer the test";
     pdf_extractor.question_text :=
       "Read the following instructions carefully before you answer the test";
     pdf_extractor.options :=
       <["D" := "d"]> (<["C" := "c"]> (<["B" := "b"]> (<["A" := "a"]> ∅)));
     pdf_extractor.correct_index := 1;
     pdf_extractor.correct_answer := Some "A";
     pdf_extractor.has_answer := true |}.

(** What the two loops of [merge_batches] keep: the questions kept are
    among the questions read so far, in their order, and their ids are
    distinct and seen. *)
Definition kept (prefix all_questions : list StructuredQuestion)
    (seen_ids : gset string) : Prop :=
  sublist all_questions prefix /\
  NoDup (List.map id all_questions) /\
  (forall q, In q all_questions ->
     exists i, id q = Some i /\ i ∈ seen_ids).

(** The sum of the counts of a breakdown. *)
Definition breakdown_total (breakdown : gmap string Z) : Z :=
  map_fold (fun _ count sum => count + sum) 0 breakdown.

(** The reasons of all the questions of a list. *)
Definition all_reasons (questions : list StructuredQuestion)
    : list question_validator.Reason :=
  List.concat
    (List.map
       (fun q => snd (question_validator.validate_question_completeness q))
       questions).

Definition complete (q : StructuredQuestion) : bool :=
  fst (question_validator.validate_question_completeness q).

(** A record with other flags and analyses on its options, another
    question number, and other steps in the same number. *)
Definition relabel (flag : AnswerOption -> option bool)
    (note : AnswerOption -> option string) (number : option Z)
    (step : Step -> Step) (q : StructuredQuestion) : StructuredQuestion :=
  {| id := id q;
     questionNumber := number;
     questionText := questionText q;
     options :=
       match options q with
       | Some opts =>
           Some (List.map
                   (fun opt => {| opt_id := opt_id opt;
                                  opt_text := opt_text opt;
                                  isCorrect := flag opt;
                                  analysis := note opt |}) opts)
       | None => None
       end;
     correctOption := correctOption q;
     classification := classification q;
     stepByStep :=
       match stepByStep q with
       | Some steps => Some (List.map step steps)
       | None => None
       end |}.

(** A parser that is only given the candidates between braces. *)
Definition between_braces {A : Type} (loads : string -> option A)
    (candidate : string) : option A :=
  if py.startswith "{" candidate && py.endswith "}" candidate
  then loads candidate
  else None.

(** The files of a directory are batches, numbered from 0 to [bound]. *)
Definition numbered_to (bound : Z) (dir : gmap string (list StructuredQuestion))
    : Prop :=
  forall name, is_Some (dir !! name) ->
    exists n, name = process_questions_v2.batch_file n /\ 0 <= n <= bound.

(** What the loop over the batches keeps in a run that is not a dry run:
    the batches read in the order of their names are the records returned
    so far. *)
Definition in_order (run : process_questions_v2.Run) : Prop :=
  numbered_to
    (process_questions_v2.last_completed_batch
       (process_questions_v2.progress run))
    (process_questions_v2.batches_dir (process_questions_v2.world run)) /\
  reading_order
    (process_questions_v2.batches_dir (process_questions_v2.world run))
  = process_questions_v2.all_results run.

(** The invalid patterns made of two words. *)
Definition word_pairs : list (string * string) :=
  [ ("rough", "work"); ("admit", "card"); ("OMR", "sheet");
    ("candidates", "governed"); ("general", "instructions");
    ("follow", "instructions") ].

(** The two words occur in the text in this order, in any case, with no
    line break between them. *)
Definition in_one_line (first second text : string) : Prop :=
  exists before a middle b after,
    text = before ++ a ++ middle ++ b ++ after /\
    py.lower a = py.lower first /\
    py.lower b = py.lower second /\
    keep (Ascii.eqb "010"%char) middle = "".

(** A question about friction. *)
Definition friction : string :=
  "A block slides on a rough surface. Find the work done by friction.".

(** The invariant of the two loops of [merge_batches]: [prefix] are the
    questions read so far, [all_questions] and [seen_ids] the two
    accumulators. *)
Definition merged (prefix all_questions : list StructuredQuestion)
    (seen_ids : gset string) : Prop :=
  (forall i, i ∈ seen_ids <-> i <> "" /\ entries_with_id i prefix <> []) /\
  (forall i, i <> "" ->
     entries_with_id i all_questions
     = List.firstn 1 (entries_with_id i prefix)) /\
  (forall q, In q all_questions -> truthy (id q) = true).

End properties.

(** ** JSON values

    What [json.loads] returns.  The answer of the generation service
    reaches the clients as such a value, whatever the prompt asked for: a
    key can be absent, hold [null], or hold a value of another type than
    the one expected.  The records of module [structured] are the answers
    in which every key that is present holds a value of the expected type;
    the functions of this section and of the next one take the answer as it
    comes. *)

Module json.

(** A number is an [int] or a [float], as [json.loads] makes them; a float
    is given by its IEEE 754 value.  An object is a [dict] with string
    keys. *)
#[warnings="-register-all"]
Inductive value : Type :=
| Null                                   (* None *)
| Bool (b : bool)
| Int (n : Z)
| Float (f : spec_float)
| Str (s : string)
| List (items : list value)
| Dict (d : gmap string value).

(** The exceptions that the operations below raise. *)
Inductive Exception : Type :=
| TypeError
| AttributeError
| KeyError
| IndexError
| ValueError.

(** The result of code that can raise. *)
Inductive outcome (A : Type) : Type :=
| Return (a : A)
| Raise (e : Exception).

Arguments Return {A} a.
Arguments Raise {A} e.

Definition bind {A B : Type} (m : outcome A) (f : A -> outcome B)
    : outcome B :=
  match m with
  | Return a => f a
  | Raise e => Raise e
  end.

Declare Scope outcome_scope.
Delimit Scope outcome_scope with outcome.
Notation "x <- m ;; f" := (bind m (fun x => f))
  (at level 100, m at next level, right associativity,
   format "'[v' x  <-  m ;; '/' f ']'") : outcome_scope.

Local Open Scope outcome_scope.

(** [bool(v)]: [None], [False], zero, and the empty string, list and dict
    are false. *)
Definition truthy (v : value) : bool :=
  match v with
  | Null => false
  | Bool b => b
  | Int n => negb (n =? 0)
  | Float (S754_zero _) => false
  | Float _ => true
  | Str s => negb (String.eqb s "")
  | List items => negb (List.length items =? 0)%nat
  | Dict d => negb (size d =? 0)%nat
  end.

(** [len(v)] *)
Definition len (v : value) : outcome nat :=
  match v with
  | Str s => Return (py.len s)
  | List items => Return (List.length items)
  | Dict d => Return (size d)
  | _ => Raise TypeError
  end.

(** [v.lower()] *)
Definition lower (v : value) : outcome string :=
  match v with
  | Str s => Return (py.lower s)
  | _ => Raise AttributeError
  end.

(** [d.get(key, default)] on a dict *)
Definition get_item (d : gmap string value) (key : string) (default : value)
    : value :=
  match d !! key with
  | Some v => v
  | None => default
  end.

(** [v.get(key, default)] *)
Definition get (v : value) (key : string) (default : value)
    : outcome value :=
  match v with
  | Dict d => Return (get_item d key default)
  | _ => Raise AttributeError
  end.

(** [v[key]] for a string [key] *)
Definition subscript (v : value) (key : string) : outcome value :=
  match v with
  | Dict d =>
      match d !! key with
      | Some item => Return item
      | None => Raise KeyError
      end
  | _ => Raise TypeError
  end.

(** [for x in v]: the items of a list, the characters of a string, the
    keys of a dict.  The keys come in the order of [map_to_list], which is
    not the order of insertion: the loops that use [iter] either raise at
    the first key or give a result that does not depend on the order. *)
Definition iter (v : value) : outcome (list value) :=
  match v with
  | List items => Return items
  | Str s =>
      Return (List.map (fun c => Str (String c EmptyString))
                (list_ascii_of_string s))
  | Dict d => Return (List.map (fun '(key, _) => Str key) (map_to_list d))
  | _ => Raise TypeError
  end.

(** [hash(v)] does not raise. *)
Definition hashable (v : value) : bool :=
  match v with
  | List _ | Dict _ => false
  | _ => true
  end.

(** [v == s] for a string [s], and [v == a] for [a] a string or [None] *)
Definition is_str (v : value) (s : string) : bool :=
  match v with
  | Str t => String.eqb t s
  | _ => false
  end.

Definition of_answer (a : option string) : value :=
  match a with
  | Some s => Str s
  | None => Null
  end.

Definition eq_answer (v : value) (a : option string) : bool :=
  match v, a with
  | Str t, Some s => String.eqb t s
  | Null, None => true
  | _, _ => false
  end.

(** [repr(s)] of a string: between single quotes, or between double quotes
    when the string has a single quote and no double quote; the backslash
    and the quote are escaped, and so are the characters that are not
    printable. *)
Definition double_quote : ascii := "034"%char.

Definition hex_digit (n : nat) : ascii :=
  List.nth n (list_ascii_of_string "0123456789abcdef") "0"%char.

Definition printable (n : nat) : bool :=
  negb ((n <? 32) || (n =? 127) || ((128 <=? n) && (n <=? 160))
        || (n =? 173))%nat.

Definition escape (quote c : ascii) : string :=
  let n := nat_of_ascii c in
  if Ascii.eqb c quote || Ascii.eqb c "\"%char
  then String "\"%char (String c EmptyString)
  else if (n =? 9)%nat then "\t"
  else if (n =? 10)%nat then "\n"
  else if (n =? 13)%nat then "\r"
  else if printable n then String c EmptyString
  else "\x" ++ String (hex_digit (n / 16))
                 (String (hex_digit (n mod 16)) EmptyString).

Definition repr (s : string) : string :=
  let quote :=
    if py.contains "'" s
       && negb (py.contains (String double_quote EmptyString) s)
    then double_quote else "'"%char in
  String quote
    (String.concat "" (List.map (escape quote) (list_ascii_of_string s))
     ++ String quote EmptyString).

(** ['concept' in str(v).lower()].  [str] of a string is the string; [str]
    of a list or of a dict writes the [repr] of the strings in it, keys
    included, between brackets, commas and colons; [str] of [None], of a
    boolean and of a number has no run of seven letters.  The word, which
    is made of letters, is then in [str(v).lower()] exactly when it is in
    the lower-cased [repr] of one of the strings. *)
Fixpoint concept_in_repr (v : value) : bool :=
  match v with
  | Str s => py.contains "concept" (py.lower (repr s))
  | List items => existsb concept_in_repr items
  | Dict d =>
      map_fold
        (fun key item found =>
           py.contains "concept" (py.lower (repr key))
           || concept_in_repr item || found)
        false d
  | _ => false
  end.

Definition concept_in_str (v : value) : bool :=
  match v with
  | Str s => py.contains "concept" (py.lower s)
  | _ => concept_in_repr v
  end.

(** [d.setdefault(key, default)]: a key that is present keeps its value,
    [null] included. *)
Definition setdefault (key : string) (default : value)
    (d : gmap string value) : gmap string value :=
  match d !! key with
  | Some _ => d
  | None => <[key := default]> d
  end.

End json.

(** ** The code on the answers as they come

    [validate_question_completeness], the two clients and the orchestrator
    on JSON values: what the code does of an answer of the service whose
    keys are absent, [null] or of another type.  The exceptions that the
    retry loop of a client catches end the attempt; the exceptions of the
    completeness check, which nothing catches, end the run. *)

Module untyped.

Import json.
Local Open Scope outcome_scope.

(** *** question_validator.py *)

(** The entries of the list of error reasons, one constructor for each
    message of [validate_question_completeness], carrying the values that
    the message interpolates. *)
Inductive Reason : Type :=
| MissingField (field : string)        (* Missing required field: ... *)
| TextTooShort (n : nat)               (* Question text too short: n chars *)
| PlaceholderPattern (pattern : string) (* Found placeholder pattern: ... *)
| ExpectedFourOptions (n : nat)        (* Expected 4 options, got n *)
| InvalidOptionIDs (ids : list value)  (* Invalid option IDs: ... *)
| PlaceholderInOption (id : value)     (* Placeholder found in option ... *)
| InvalidCorrectOption (c : value)     (* Invalid correctOption: ... *)
| ChapterMissing                       (* Chapter is missing or placeholder *)
| TopicMissing                         (* Topic is missing or placeholder *)
| InsufficientConceptTags (n : nat)    (* Insufficient concept tags: n *)
| PlaceholderConcepts                  (* Placeholder concepts found *)
| MissingStepByStep                    (* Missing stepByStep solution *)
| SolutionTooBrief (n : nat).          (* Solution too brief: n steps *)

Definition required_fields : list string :=
  ["id"; "questionText"; "options"; "correctOption"; "classification"].

(** The loop over [required_fields]: [field not in question]. *)
Definition missing_fields (question : gmap string value) : list Reason :=
  List.map MissingField
    (List.filter
       (fun field =>
          match question !! field with
          | Some _ => false
          | None => true
          end)
       required_fields).

(** The loop over [PLACEHOLDER_PATTERNS], left at the first hit. *)
Fixpoint placeholder_errors (patterns : list (string * re.regex))
    (text_lower : string) : list Reason :=
  match patterns with
  | [] => []
  | (pattern, compiled) :: rest =>
      if re.found compiled text_lower
      then [PlaceholderPattern pattern]
      else placeholder_errors rest text_lower
  end.

(** [[opt.get('id') for opt in options]] *)
Fixpoint option_ids (options : list value) : outcome (list value) :=
  match options with
  | [] => Return []
  | opt :: rest =>
      id <- get opt "id" Null;;
      ids <- option_ids rest;;
      Return (id :: ids)
  end.

Definition ABCD : list string := ["A"; "B"; "C"; "D"].

(** [set(option_ids) != {'A', 'B', 'C', 'D'}]: [set] raises on an id that
    is a list or a dict; the two sets are equal when every id is one of
    the four letters and every letter is an id. *)
Definition ids_differ (option_ids : list value) : outcome bool :=
  if forallb hashable option_ids
  then
    Return
      (negb (forallb (fun id => existsb (is_str id) ABCD) option_ids
             && forallb (fun letter =>
                           existsb (fun id => is_str id letter) option_ids)
                  ABCD))
  else Raise TypeError.

(** The loop looking for placeholder text in the options, left at the
    first hit. *)
Fixpoint option_placeholder_errors (options : list value)
    : outcome (list Reason) :=
  match options with
  | [] => Return []
  | opt :: rest =>
      text <- get opt "text" (Str "");;
      opt_text <- lower text;;
      if py.contains "text here" opt_text
         || py.contains "option" opt_text && py.contains "text" opt_text
      then
        id <- get opt "id" Null;;
        Return [PlaceholderInOption id]
      else option_placeholder_errors rest
  end.

Definition option_errors (options : value) : outcome (list Reason) :=
  n <- len options;;
  if negb (n =? 4)%nat
  then Return [ExpectedFourOptions n]
  else
    items <- iter options;;
    ids <- option_ids items;;
    differ <- ids_differ ids;;
    placeholders <- option_placeholder_errors items;;
    Return ((if differ then [InvalidOptionIDs ids] else [])
            ++ placeholders)%list.

Definition correct_option_errors (correct_option : value) : list Reason :=
  if existsb (is_str correct_option) ABCD
  then []
  else [InvalidCorrectOption correct_option].

(** [not name or name.lower() in ['unknown', placeholder]] *)
Definition missing_or_placeholder (name : value) (placeholder : string)
    : outcome bool :=
  if negb (truthy name) then Return true
  else
    name_lower <- lower name;;
    Return (existsb (String.eqb name_lower) ["unknown"; placeholder]).

(** ['concept' in str(tag).lower()
     and not tag.lower().startswith('concept')] *)
Definition placeholder_tag (tag : value) : outcome bool :=
  if concept_in_str tag
  then
    tag_lower <- lower tag;;
    Return (negb (py.startswith "concept" tag_lower))
  else Return false.

(** [any(... for tag in concept_tags)], left at the first tag that is a
    placeholder. *)
Fixpoint any_placeholder_tag (tags : list value) : outcome bool :=
  match tags with
  | [] => Return false
  | tag :: rest =>
      found <- placeholder_tag tag;;
      if found then Return true else any_placeholder_tag rest
  end.

(** The message of the first branch interpolates [len(concept_tags)], also
    when [concept_tags] is false. *)
Definition concept_tag_errors (concept_tags : value)
    : outcome (list Reason) :=
  if negb (truthy concept_tags)
  then
    n <- len concept_tags;;
    Return [InsufficientConceptTags n]
  else
    n <- len concept_tags;;
    if (n <? 2)%nat
    then Return [InsufficientConceptTags n]
    else
      tags <- iter concept_tags;;
      found <- any_placeholder_tag tags;;
      Return (if found then [PlaceholderConcepts] else []).

Definition step_errors (steps : value) : outcome (list Reason) :=
  if negb (truthy steps) then Return [MissingStepByStep]
  else
    n <- len steps;;
    Return (if (n <? 2)%nat then [SolutionTooBrief n] else []).

Definition validate_question_completeness (question : gmap string value)
    : outcome (bool * list Reason) :=
  let errors := missing_fields question in
  if negb (List.length errors =? 0)%nat then Return (false, errors)
  else
    let question_text := get_item question "questionText" (Str "") in
    n <- len question_text;;
    let errors :=
      (errors ++ (if (n <? 50)%nat then [TextTooShort n] else []))%list in
    text_lower <- lower question_text;;
    let errors :=
      (errors ++ placeholder_errors config.PLACEHOLDER_PATTERNS text_lower)%list
    in
    let options := get_item question "options" (List []) in
    of_options <- option_errors options;;
    let errors := (errors ++ of_options)%list in
    let correct_option := get_item question "correctOption" Null in
    let errors := (errors ++ correct_option_errors correct_option)%list in
    let classification :=
      get_item question "classification" (Dict ∅) in
    chapter <- get classification "chapter" (Str "");;
    chapter_missing <- missing_or_placeholder chapter "chapter name here";;
    let errors :=
      (errors ++ (if chapter_missing then [ChapterMissing] else []))%list in
    topic <- get classification "topic" (Str "");;
    topic_missing <- missing_or_placeholder topic "topic name here";;
    let errors :=
      (errors ++ (if topic_missing then [TopicMissing] else []))%list in
    concept_tags <- get classification "conceptTags" (List []);;
    of_tags <- concept_tag_errors concept_tags;;
    let errors := (errors ++ of_tags)%list in
    let steps := get_item question "stepByStep" (List []) in
    of_steps <- step_errors steps;;
    let errors := (errors ++ of_steps)%list in
    Return ((List.length errors =? 0)%nat, errors).

(** *** The generation service *)

Inductive Attempt : Type :=
| AttemptError
    (* the request raised, the status was >= 400, or the body was not the
       expected JSON envelope: an exception before the usage is recorded *)
| AttemptUnparsed (input_tokens output_tokens : Z)
    (* a completion in which extract_json_from_response finds no JSON *)
| AttemptParsed (input_tokens output_tokens : Z)
    (result : gmap string value).
    (* a completion from which extract_json_from_response returns result,
       which is a JSON object: the text handed to json.loads starts with
       an opening brace *)

Definition request (service : list Attempt) : Attempt * list Attempt :=
  match service with
  | outcome :: rest => (outcome, rest)
  | [] => (AttemptError, [])
  end.

(** *** process_questions_v2.py: the client *)

(** "Ensure required fields" of [call_perplexity_api]. *)
Definition ensure_required_fields_v2 (question : pdf_extractor.Question)
    (result : gmap string value) : gmap string value :=
  let result :=
    setdefault "id"
      (Str (structured.default_id (pdf_extractor.number question))) result in
  let result :=
    setdefault "questionNumber" (Int (pdf_extractor.number question)) result
  in
  setdefault "questionText" (Str (pdf_extractor.question_text question))
    result.

(** The retry loop of [call_perplexity_api], [n] attempts being left.  The
    pauses are not modelled. *)
Fixpoint attempts_v2 (n : nat) (question : pdf_extractor.Question)
    (tracker : cost_tracker.CostTracker) (service : list Attempt)
    : option (gmap string value) * cost_tracker.CostTracker * list Attempt :=
  match n with
  | O => (None, tracker, service)
  | S n' =>
      let '(outcome, service) := request service in
      match outcome with
      | AttemptError =>
          attempts_v2 n' question
            (cost_tracker.record_call tracker 0 0 false) service
      | AttemptUnparsed input_tokens output_tokens =>
          let tracker :=
            cost_tracker.record_call tracker input_tokens output_tokens true
          in
          attempts_v2 n' question
            (cost_tracker.record_call tracker 0 0 false) service
      | AttemptParsed input_tokens output_tokens result =>
          let tracker :=
            cost_tracker.record_call tracker input_tokens output_tokens true
          in
          (Some (ensure_required_fields_v2 question result), tracker,
           service)
      end
  end.

Definition call_perplexity_api (question : pdf_extractor.Question)
    (max_retries : Z) (tracker : cost_tracker.CostTracker)
    (service : list Attempt)
    : option (gmap string value) * cost_tracker.CostTracker * list Attempt :=
  attempts_v2 (Z.to_nat max_retries) question tracker service.

(** *** process_claude.py: the client *)

(** [opt['isCorrect'] = (opt['id'] == question['correct_answer'])] *)
Definition fix_option (correct_answer : option string) (opt : value)
    : outcome value :=
  id <- subscript opt "id";;
  match opt with
  | Dict d =>
      Return (Dict (<["isCorrect" := Bool (eq_answer id correct_answer)]> d))
  | _ => Raise TypeError
  end.

Fixpoint fix_options (correct_answer : option string) (options : list value)
    : outcome (list value) :=
  match options with
  | [] => Return []
  | opt :: rest =>
      opt <- fix_option correct_answer opt;;
      rest <- fix_options correct_answer rest;;
      Return (opt :: rest)
  end.

(** The check "CRITICAL: Verify answer wasn't changed" of [call_claude_api].
    The loop changes the dicts of the list in place; over the characters of
    a string or the keys of a dict it raises at the first of them. *)
Definition verify_answer (question : pdf_extractor.Question)
    (result : gmap string value) : outcome (gmap string value) :=
  let correct_answer := pdf_extractor.correct_answer question in
  if negb (eq_answer (get_item result "correctOption" Null) correct_answer)
  then
    let result := <["correctOption" := of_answer correct_answer]> result in
    match get_item result "options" (List []) with
    | List options =>
        options <- fix_options correct_answer options;;
        Return (match result !! "options" with
                | Some _ => <["options" := List options]> result
                | None => result
                end)
    | other =>
        options <- iter other;;
        _ <- fix_options correct_answer options;;
        Return result
    end
  else Return result.

(** "Ensure required fields" *)
Definition ensure_required_fields (question : pdf_extractor.Question)
    (result : gmap string value) : gmap string value :=
  let result :=
    setdefault "id"
      (Str (structured.default_id (pdf_extractor.number question))) result in
  let result :=
    setdefault "questionNumber" (Int (pdf_extractor.number question)) result
  in
  let result :=
    setdefault "questionText" (Str (pdf_extractor.question_text question))
      result in
  setdefault "correctOption"
    (of_answer (pdf_extractor.correct_answer question)) result.

(** The retry loop [for attempt in range(1, max_retries + 1)], [n] attempts
    being left: [except Exception] catches what the check of the answer
    raises. *)
Fixpoint attempts (n : nat) (question : pdf_extractor.Question)
    (tracker : cost_tracker.CostTracker) (service : list Attempt)
    : option (gmap string value) * cost_tracker.CostTracker * list Attempt :=
  match n with
  | O => (None, tracker, service)
  | S n' =>
      let '(outcome, service) := request service in
      match outcome with
      | AttemptError =>
          attempts n' question
            (cost_tracker.record_call tracker 0 0 false) service
      | AttemptUnparsed input_tokens output_tokens =>
          let tracker :=
            cost_tracker.record_call tracker input_tokens output_tokens true
          in
          attempts n' question
            (cost_tracker.record_call tracker 0 0 false) service
      | AttemptParsed input_tokens output_tokens result =>
          let tracker :=
            cost_tracker.record_call tracker input_tokens output_tokens true
          in
          match verify_answer question result with
          | Return result =>
              (Some (ensure_required_fields question result), tracker,
               service)
          | Raise _ =>
              attempts n' question
                (cost_tracker.record_call tracker 0 0 false) service
          end
      end
  end.

Definition call_claude_api (question : pdf_extractor.Question)
    (max_retries : Z) (tracker : cost_tracker.CostTracker)
    (service : list Attempt)
    : option (gmap string value) * cost_tracker.CostTracker * list Attempt :=
  attempts (Z.to_nat max_retries) question tracker service.

(** [not structured]: [None] or a dict without key. *)
Definition is_nothing (structured : option (gmap string value)) : bool :=
  match structured with
  | Some d => negb (truthy (Dict d))
  | None => true
  end.

(** The loop [for q in questions] of [main]. *)
Fixpoint process_all (max_retries : Z)
    (questions : list pdf_extractor.Question)
    (tracker : cost_tracker.CostTracker) (service : list Attempt)
    (all_results : list (gmap string value))
    : list (gmap string value) * cost_tracker.CostTracker * list Attempt :=
  match questions with
  | [] => (all_results, tracker, service)
  | q :: rest =>
      if negb (structured.truthy (pdf_extractor.correct_answer q))
      then process_all max_retries rest tracker service all_results
      else
        let '(structured, tracker, service) :=
          call_claude_api q max_retries tracker service in
        match structured with
        | Some record =>
            if is_nothing structured
            then process_all max_retries rest tracker service all_results
            else process_all max_retries rest tracker service
                   (all_results ++ [record])%list
        | None => process_all max_retries rest tracker service all_results
        end
  end.

(** The output of [main]; of the metadata only the count depends on the
    run. *)
Record Dataset : Type := mkDataset {
  totalQuestions : nat;
  questions : list (gmap string value)
}.

(** [main] of process_claude.py, from the page texts on, with a
    configuration that loads: the exit code and the dataset written, if
    any. *)
Definition main (args : process_claude.Args) (pages : list string)
    (max_retries : Z) (service : list Attempt) : Z * option Dataset :=
  let questions :=
    process_claude.select args
      (pdf_extractor.extract_physics_questions_improved pages) in
  match questions with
  | [] => (1, None)
  | _ =>
      let '(all_results, _, _) :=
        process_all max_retries questions cost_tracker.new service [] in
      (0, Some {| totalQuestions := List.length all_results;
                  questions := all_results |})
  end.

(** *** process_questions_v2.py: the orchestrator *)

(** A line of the failure log: [<timestamp> | Q<number> | <reason>], the
    timestamp left out. *)
Inductive FailureReason : Type :=
| InvalidPhysicsContent                        (* Invalid physics content *)
| ApiCallFailed                                (* API call failed *)
| Validation (error : Reason).                 (* Validation: ... *)

Record FailureRecord : Type := mkFailureRecord {
  question_num : Z;
  reason : FailureReason
}.

(** What the orchestrator reads and writes outside of its own variables. *)
Record World : Type := mkWorld {
  progress_file : option process_questions_v2.Progress;
  batches_dir : gmap string (list (gmap string value));
  failed_log : list FailureRecord;
  service : list Attempt
}.

Definition load_progress (w : World) : process_questions_v2.Progress :=
  match progress_file w with
  | Some progress => progress
  | None => process_questions_v2.fresh_progress
  end.

Definition save_progress (progress : process_questions_v2.Progress)
    (w : World) : World :=
  {| progress_file := Some progress;
     batches_dir := batches_dir w;
     failed_log := failed_log w;
     service := service w |}.

Definition save_batch (batch_num : Z) (questions : list (gmap string value))
    (w : World) : World :=
  {| progress_file := progress_file w;
     batches_dir :=
       <[process_questions_v2.batch_file batch_num := questions]>
         (batches_dir w);
     failed_log := failed_log w;
     service := service w |}.

Definition log_failed_question (question_num : Z) (reason : FailureReason)
    (w : World) : World :=
  {| progress_file := progress_file w;
     batches_dir := batches_dir w;
     failed_log := (failed_log w ++ [mkFailureRecord question_num reason])%list;
     service := service w |}.

Definition with_service (service : list Attempt) (w : World) : World :=
  {| progress_file := progress_file w;
     batches_dir := batches_dir w;
     failed_log := failed_log w;
     service := service |}.

(** The variables of [process_questions_in_batches] that change during the
    run, and the world. *)
Record Run : Type := mkRun {
  progress : process_questions_v2.Progress;
  all_results : list (gmap string value);
  tracker : cost_tracker.CostTracker;
  world : World
}.

Definition in_world (f : World -> World) (run : Run) : Run :=
  {| progress := progress run;
     all_results := all_results run;
     tracker := tracker run;
     world := f (world run) |}.

(** The result of code that nothing protects: it comes to its end, or an
    exception ends the run and leaves the world as it is then. *)
Inductive Result (A : Type) : Type :=
| Done (a : A)
| Aborted (e : Exception) (w : World).

Arguments Done {A} a.
Arguments Aborted {A} e w.

(** The body of [for q in batch]: the run and [batch_results] before and
    after. *)
Definition process_question (max_retries : Z) (dry_run : bool)
    (q : pdf_extractor.Question)
    (run : Run) (batch_results : list (gmap string value))
    : Result (Run * list (gmap string value)) :=
  let q_num := pdf_extractor.number q in
  if existsb (Z.eqb q_num)
       (process_questions_v2.processed_question_ids (progress run))
  then Done (run, batch_results)                      (* already processed *)
  else if negb (question_validator.is_valid_physics_question
                  (pdf_extractor.text q))
  then Done (in_world (log_failed_question q_num InvalidPhysicsContent) run,
             batch_results)
  else if dry_run then Done (run, batch_results)
  else
    let '(structured, tracker, service) :=
      call_perplexity_api q max_retries (tracker run) (service (world run)) in
    let run :=
      {| progress := progress run;
         all_results := all_results run;
         tracker := tracker;
         world := with_service service (world run) |} in
    match structured with
    | None =>
        Done (in_world (log_failed_question q_num ApiCallFailed) run,
              batch_results)
    | Some record =>
        if is_nothing structured
        then Done (in_world (log_failed_question q_num ApiCallFailed) run,
                   batch_results)
        else
          match validate_question_completeness record with
          | Raise e => Aborted e (world run)
          | Return (is_valid, errors) =>
              let logged :=
                if negb is_valid then
                  match errors with
                  | error :: _ =>
                      Done (in_world
                              (log_failed_question q_num (Validation error))
                              run)
                  | [] => Aborted IndexError (world run)   (* errors[0] *)
                  end
                else Done run in
              match logged with
              | Aborted e w => Aborted e w
              | Done run =>
                  Done ({| progress :=
                             {| process_questions_v2.last_completed_batch :=
                                  process_questions_v2.last_completed_batch
                                    (progress run);
                                process_questions_v2.next_question_index :=
                                  process_questions_v2.next_question_index
                                    (progress run);
                                process_questions_v2.processed_question_ids :=
                                  (process_questions_v2.processed_question_ids
                                     (progress run) ++ [q_num])%list |};
                           all_results := (all_results run ++ [record])%list;
                           tracker := tracker;
                           world := world run |},
                        (batch_results ++ [record])%list)
              end
          end
    end.

Fixpoint process_records (max_retries : Z) (dry_run : bool)
    (batch : list pdf_extractor.Question)
    (run : Run) (batch_results : list (gmap string value))
    : Result (Run * list (gmap string value)) :=
  match batch with
  | [] => Done (run, batch_results)
  | q :: rest =>
      match process_question max_retries dry_run q run batch_results with
      | Aborted e w => Aborted e w
      | Done (run, batch_results) =>
          process_records max_retries dry_run rest run batch_results
      end
  end.

(** The body of the loop over the batches: [batch_num] and [i] are the two
    loop variables. *)
Definition process_batch (questions : list pdf_extractor.Question)
    (max_retries batch_size : Z) (dry_run : bool)
    (batch_num i : Z) (run : Run) : Result Run :=
  let actual_batch_num :=
    process_questions_v2.last_completed_batch (progress run) + 1 + batch_num
  in
  let batch := py.slice_list i (i + batch_size) questions in
  match process_records max_retries dry_run batch run [] with
  | Aborted e w => Aborted e w
  | Done (run, batch_results) =>
      let run :=
        if negb (List.length batch_results =? 0)%nat && negb dry_run
        then in_world (save_batch actual_batch_num batch_results) run
        else run in
      let progress :=
        {| process_questions_v2.last_completed_batch := actual_batch_num;
           process_questions_v2.next_question_index :=
             Z.min (i + batch_size) (Z.of_nat (List.length questions));
           process_questions_v2.processed_question_ids :=
             process_questions_v2.processed_question_ids (progress run) |} in
      Done {| progress := progress;
              all_results := all_results run;
              tracker := tracker run;
              world := save_progress progress (world run) |}
  end.

(** [for batch_num, i in enumerate(range(...))]: [starts] are the values of
    [i] still to come, [batch_num] is the index of the first of them. *)
Fixpoint process_batches (questions : list pdf_extractor.Question)
    (max_retries batch_size : Z) (dry_run : bool)
    (batch_num : Z) (starts : list Z) (run : Run) : Result Run :=
  match starts with
  | [] => Done run
  | i :: rest =>
      match process_batch questions max_retries batch_size dry_run
              batch_num i run with
      | Aborted e w => Aborted e w
      | Done run =>
          process_batches questions max_retries batch_size dry_run
            (batch_num + 1) rest run
      end
  end.

(** The run up to the end of the loop over the batches; [range] raises
    its [ValueError] for a step of zero. *)
Definition run_batches (questions : list pdf_extractor.Question)
    (max_retries batch_size : Z) (resume dry_run : bool) (w : World)
    : Result Run :=
  let progress :=
    if resume then load_progress w
    else process_questions_v2.fresh_progress in
  let start_idx := process_questions_v2.next_question_index progress in
  match py.range start_idx (Z.of_nat (List.length questions)) batch_size with
  | None => Aborted ValueError w
  | Some starts =>
      process_batches questions max_retries batch_size dry_run 0 starts
        {| progress := progress;
           all_results := [];
           tracker := cost_tracker.new;
           world := w |}
  end.

Definition process_questions_in_batches
    (questions : list pdf_extractor.Question)
    (max_retries batch_size : Z) (resume dry_run : bool) (w : World)
    : Result (list (gmap string value) * World) :=
  match run_batches questions max_retries batch_size resume dry_run w with
  | Aborted e w => Aborted e w
  | Done run => Done (all_results run, world run)
  end.

End untyped.

(** ** Properties stated of the code on the answers as they come *)

Module untyped_properties.

Import json untyped.
Local Open Scope outcome_scope.

(** *** The types of the schema *)

Definition is_string (v : value) : bool :=
  match v with
  | Str _ => true
  | _ => false
  end.

Definition is_list_of (p : value -> bool) (v : value) : bool :=
  match v with
  | List items => forallb p items
  | _ => false
  end.

(** The key is absent, or holds a value of the kind [p]. *)
Definition absent_or (p : value -> bool) (d : gmap string value)
    (key : string) : bool :=
  match d !! key with
  | Some v => p v
  | None => true
  end.

Definition typed_option (opt : value) : bool :=
  match opt with
  | Dict d => absent_or is_string d "id" && absent_or is_string d "text"
  | _ => false
  end.

Definition typed_classification (v : value) : bool :=
  match v with
  | Dict c =>
      absent_or is_string c "chapter"
      && absent_or is_string c "topic"
      && absent_or (is_list_of is_string) c "conceptTags"
  | _ => false
  end.

(** The keys that the completeness check reads hold, when they are present,
    values of the types that the prompt and the schema give them: a string,
    a list of options, a classification, a list of steps. *)
Definition schema_typed (question : gmap string value) : bool :=
  absent_or is_string question "questionText"
  && absent_or (is_list_of typed_option) question "options"
  && absent_or typed_classification question "classification"
  && absent_or (is_list_of (fun _ => true)) question "stepByStep".

(** Every answer that the service has in store and that parses is of the
    types of the schema. *)
Definition typed_answer (attempt : Attempt) : bool :=
  match attempt with
  | AttemptParsed _ _ result => schema_typed result
  | _ => true
  end.

(** *** The rules of the completeness check *)

Inductive Rule : Type :=
| RequiredFields     (* the five required keys are present *)
| QuestionText       (* fifty characters at least, no placeholder *)
| Options            (* four options, ids A, B, C, D, no placeholder *)
| CorrectOption      (* one of A, B, C, D *)
| Chapter            (* named, and not by a placeholder *)
| Topic              (* named, and not by a placeholder *)
| ConceptTags        (* two tags at least, no placeholder *)
| Steps.             (* two steps at least *)

Definition rules : list Rule :=
  [ RequiredFields; QuestionText; Options; CorrectOption; Chapter; Topic;
    ConceptTags; Steps ].

(** The rule that a reason reports as violated. *)
Definition rule_of (reason : Reason) : Rule :=
  match reason with
  | MissingField _ => RequiredFields
  | TextTooShort _ | PlaceholderPattern _ => QuestionText
  | ExpectedFourOptions _ | InvalidOptionIDs _ | PlaceholderInOption _ =>
      Options
  | InvalidCorrectOption _ => CorrectOption
  | ChapterMissing => Chapter
  | TopicMissing => Topic
  | InsufficientConceptTags _ | PlaceholderConcepts => ConceptTags
  | MissingStepByStep | SolutionTooBrief _ => Steps
  end.

Definition has_required_fields (question : gmap string value) : Prop :=
  forall field, In field required_fields -> is_Some (question !! field).

(** The values that the check reads in a record, with the defaults of its
    calls to [get]. *)
Definition question_text_of (question : gmap string value) : value :=
  get_item question "questionText" (Str "").

Definition options_of (question : gmap string value) : value :=
  get_item question "options" (List []).

Definition correct_option_of (question : gmap string value) : value :=
  get_item question "correctOption" Null.

Definition classified (key : string) (default : value)
    (question : gmap string value) : value :=
  match get_item question "classification" (Dict ∅) with
  | Dict classification => get_item classification key default
  | _ => Null
  end.

Definition concept_tags_of (question : gmap string value) : value :=
  classified "conceptTags" (List []) question.

Definition steps_of (question : gmap string value) : value :=
  get_item question "stepByStep" (List []).

(** A text of fifty characters at least, in which no placeholder pattern
    is found. *)
Definition text_complete (v : value) : Prop :=
  exists text,
    v = Str text /\
    (50 <= py.len text)%nat /\
    forall pattern compiled,
      In (pattern, compiled) config.PLACEHOLDER_PATTERNS ->
      re.found compiled (py.lower text) = false.

(** The id of an option, [None] when it has none. *)
Definition option_id (opt : value) : value :=
  match opt with
  | Dict d => get_item d "id" Null
  | _ => Null
  end.

Definition placeholder_text (opt_text : string) : bool :=
  py.contains "text here" opt_text
  || py.contains "option" opt_text && py.contains "text" opt_text.

(** A list of four dicts whose ids form the set A, B, C, D. *)
Definition four_ABCD (v : value) : Prop :=
  exists options,
    v = List options /\
    List.length options = 4%nat /\
    Forall (fun opt => exists d, opt = Dict d) options /\
    forall id, In id (List.map option_id options) <-> In id (List.map Str ABCD).

(** No option has a placeholder for its text, which is a string when it is
    there. *)
Definition no_placeholder_option (v : value) : Prop :=
  exists options,
    v = List options /\
    Forall
      (fun opt =>
         exists opt_text,
           get opt "text" (Str "") = Return (Str opt_text) /\
           placeholder_text (py.lower opt_text) = false)
      options.

Definition letter_ABCD (v : value) : Prop :=
  exists letter, In letter ABCD /\ v = Str letter.

(** A name, which is not a placeholder. *)
Definition named (placeholder : string) (v : value) : Prop :=
  exists name,
    v = Str name /\
    name <> "" /\
    py.lower name <> "unknown" /\
    py.lower name <> placeholder.

(** A value with a length, of two at least. *)
Definition two_items (v : value) : Prop :=
  exists n, len v = Return n /\ (2 <= n)%nat.

(** A tag is a placeholder when the word concept is in it but not at its
    start. *)
Definition no_placeholder_tag (v : value) : Prop :=
  exists tags,
    iter v = Return tags /\
    Forall
      (fun tag =>
         concept_in_str tag = true ->
         exists s,
           tag = Str s /\ py.startswith "concept" (py.lower s) = true)
      tags.

(** What each rule asks of a record. *)
Definition holds (rule : Rule) (question : gmap string value) : Prop :=
  match rule with
  | RequiredFields => has_required_fields question
  | QuestionText => text_complete (question_text_of question)
  | Options =>
      four_ABCD (options_of question)
      /\ no_placeholder_option (options_of question)
  | CorrectOption => letter_ABCD (correct_option_of question)
  | Chapter =>
      named "chapter name here" (classified "chapter" (Str "") question)
  | Topic => named "topic name here" (classified "topic" (Str "") question)
  | ConceptTags =>
      two_items (concept_tags_of question)
      /\ no_placeholder_tag (concept_tags_of question)
  | Steps => two_items (steps_of question)
  end.

Definition complete (question : gmap string value) : Prop :=
  forall rule, holds rule question.

(** The check of one rule, as [validate_question_completeness] makes it
    once the required keys are there, and the checks of a list of rules, one
    after the other. *)
Definition check (rule : Rule) (question : gmap string value)
    : outcome (list Reason) :=
  match rule with
  | RequiredFields => Return (missing_fields question)
  | QuestionText =>
      n <- len (question_text_of question);;
      text_lower <- lower (question_text_of question);;
      Return ((if (n <? 50)%nat then [TextTooShort n] else [])
              ++ placeholder_errors config.PLACEHOLDER_PATTERNS text_lower)%list
  | Options => option_errors (options_of question)
  | CorrectOption =>
      Return (correct_option_errors (correct_option_of question))
  | Chapter =>
      chapter <-
        get (get_item question "classification" (Dict ∅)) "chapter" (Str "");;
      chapter_missing <- missing_or_placeholder chapter "chapter name here";;
      Return (if chapter_missing then [ChapterMissing] else [])
  | Topic =>
      topic <-
        get (get_item question "classification" (Dict ∅)) "topic" (Str "");;
      topic_missing <- missing_or_placeholder topic "topic name here";;
      Return (if topic_missing then [TopicMissing] else [])
  | ConceptTags =>
      concept_tags <-
        get (get_item question "classification" (Dict ∅)) "conceptTags"
          (List []);;
      concept_tag_errors concept_tags
  | Steps => step_errors (steps_of question)
  end.

Fixpoint collect (rules : list Rule) (question : gmap string value)
    : outcome (list Reason) :=
  match rules with
  | [] => Return []
  | rule :: rest =>
      errors <- check rule question;;
      others <- collect rest question;;
      Return (errors ++ others)%list
  end.

(** The rules that are checked once the required keys are there. *)
Definition checked_rules : list Rule :=
  [QuestionText; Options; CorrectOption; Chapter; Topic; ConceptTags; Steps].

(** A check decides a rule: it gives no reason when the rule holds and
    reasons of that rule when it does not, unless it raises a [TypeError]
    or an [AttributeError], which it does only when the rule does not
    hold. *)
Definition decides (rule : Rule) (question : gmap string value)
    (result : outcome (list Reason)) : Prop :=
  match result with
  | Return errors =>
      (errors = [] /\ holds rule question)
      \/ (errors <> [] /\ ~ holds rule question
          /\ Forall (fun reason => rule_of reason = rule) errors)
  | Raise e =>
      ~ holds rule question /\ (e = TypeError \/ e = AttributeError)
  end.

(** The rules that C8 names. *)
Definition four_options_ABCD (question : gmap string value) : Prop :=
  four_ABCD (options_of question).

Definition correct_option_in_ABCD (question : gmap string value) : Prop :=
  letter_ABCD (correct_option_of question).

Definition two_concept_tags (question : gmap string value) : Prop :=
  two_items (concept_tags_of question).

Definition two_steps (question : gmap string value) : Prop :=
  two_items (steps_of question).

(** *** Sample answers *)

Definition answer_option (id opt_text : string) : value :=
  Dict {[ "id" := Str id; "text" := Str opt_text; "isCorrect" := Bool false ]}.

(** A record that breaks none of the rules. *)
Definition C8_complete : gmap string value :=
  {[ "id" := Str "neet_2024_phy_007";
     "questionNumber" := Int 7;
     "questionText" :=
       Str "A body of mass 2 kg is pushed by a constant force; what is the SI unit of force?";
     "options" :=
       List [ answer_option "A" "Joule"; answer_option "B" "Newton";
              answer_option "C" "Watt"; answer_option "D" "Pascal" ];
     "correctOption" := Str "B";
     "classification" :=
       Dict {[ "chapter" := Str "Laws of Motion";
               "topic" := Str "Force";
               "conceptTags" := List [Str "force"; Str "units"] ]};
     "stepByStep" :=
       List [ Dict {[ "title" := Str "Step 1" ]};
              Dict {[ "title" := Str "Step 2" ]} ] ]}.

(** The same record with a fifth option, and with [null] for its text. *)
Definition C8_five_options : gmap string value :=
  <["options" :=
      List [ answer_option "A" "Joule"; answer_option "B" "Newton";
             answer_option "C" "Watt"; answer_option "D" "Pascal";
             answer_option "E" "Tesla" ]]> C8_complete.

Definition C8_null_text : gmap string value :=
  <["questionText" := Null]> C8_complete.

(** *** The trace of a run *)

(** What becomes of one record of a batch. *)
Inductive Outcome : Type :=
| Skipped                                   (* already processed *)
| Rejected                                  (* not a physics question *)
| Failed                                    (* retries exhausted *)
| Succeeded (record : gmap string value)
| Raised (record : gmap string value) (e : Exception).
                                            (* the check of the record raises *)

(** What the orchestrator does of the record that the client returns:
    [errors[0]] raises on an empty list. *)
Definition checked (record : gmap string value) : Outcome :=
  match validate_question_completeness record with
  | Raise e => Raised record e
  | Return (false, []) => Raised record IndexError
  | Return _ => Succeeded record
  end.

(** The outcomes of the records of a batch, in order, for a run that is not
    a dry run: each call to the generation client finds the tracker and the
    service as the calls before it left them, a success adds the number of
    its question to the processed ids, and nothing comes after a record
    whose check raises. *)
Fixpoint outcomes (max_retries : Z) (batch : list pdf_extractor.Question)
    (processed : list Z) (tracker : cost_tracker.CostTracker)
    (service : list Attempt) : list (Z * Outcome) :=
  match batch with
  | [] => []
  | q :: rest =>
      let q_num := pdf_extractor.number q in
      if existsb (Z.eqb q_num) processed
      then (q_num, Skipped)
             :: outcomes max_retries rest processed tracker service
      else if negb (question_validator.is_valid_physics_question
                      (pdf_extractor.text q))
      then (q_num, Rejected)
             :: outcomes max_retries rest processed tracker service
      else
        match call_perplexity_api q max_retries tracker service with
        | (None, tracker, service) =>
            (q_num, Failed)
              :: outcomes max_retries rest processed tracker service
        | (Some record, tracker, service) =>
            match checked record with
            | Raised record e => [(q_num, Raised record e)]
            | outcome =>
                (q_num, outcome)
                  :: outcomes max_retries rest (processed ++ [q_num])%list
                       tracker service
            end
        end
  end.

(** The exception that ends the trace, if any. *)
Fixpoint raised (trace : list (Z * Outcome)) : option Exception :=
  match trace with
  | [] => None
  | (_, Raised _ e) :: _ => Some e
  | _ :: rest => raised rest
  end.

(** The successful records of a trace and the numbers of the failed
    ones. *)
Definition succeeded (trace : list (Z * Outcome))
    : list (gmap string value) :=
  List.flat_map (fun '(_, outcome) =>
                   match outcome with
                   | Succeeded record => [record]
                   | _ => []
                   end) trace.

Definition failed_numbers (trace : list (Z * Outcome)) : list Z :=
  List.flat_map (fun '(q_num, outcome) =>
                   match outcome with
                   | Failed => [q_num]
                   | _ => []
                   end) trace.

(** The lines that a trace adds to the failure log: one for a rejected
    record, one for a failed record, and one for a successful record that
    is found incomplete. *)
Definition failure_records (trace : list (Z * Outcome))
    : list FailureRecord :=
  List.flat_map
    (fun '(q_num, outcome) =>
       match outcome with
       | Rejected => [mkFailureRecord q_num InvalidPhysicsContent]
       | Failed => [mkFailureRecord q_num ApiCallFailed]
       | Succeeded record =>
           match validate_question_completeness record with
           | Return (false, error :: _) =>
               [mkFailureRecord q_num (Validation error)]
           | _ => []
           end
       | Skipped | Raised _ _ => []
       end) trace.

Definition is_api_failure (record : FailureRecord) : bool :=
  match reason record with
  | ApiCallFailed => true
  | _ => false
  end.

(** *** Sample runs *)

(** An answer of the service that is complete, and one whose text is
    [null]. *)
Definition complete_answer : gmap string value :=
  delete "questionNumber" (delete "id" C8_complete).

Definition answered : Attempt := AttemptParsed 100 200 complete_answer.

Definition null_text : Attempt :=
  AttemptParsed 100 200 (<["questionText" := Null]> complete_answer).

Definition empty_world (service : list Attempt) : World :=
  {| progress_file := None;
     batches_dir := ∅;
     failed_log := [];
     service := service |}.

Definition fresh_run (service : list Attempt) : Run :=
  {| progress := process_questions_v2.fresh_progress;
     all_results := [];
     tracker := cost_tracker.new;
     world := empty_world service |}.

(** The example scenario of C4: a batch of ten records, the fifth of which
    fails both of its attempts. *)
Definition C4_questions : list pdf_extractor.Question :=
  List.map properties.physics_question [1; 2; 3; 4; 5; 6; 7; 8; 9; 10].

Definition C4_service : list Attempt :=
  [ answered; answered; answered; answered;
    AttemptError; AttemptError;
    answered; answered; answered; answered; answered ].

(** The run with which [process_questions_in_batches] starts. *)
Definition initial_progress (resume : bool) (w : World)
    : process_questions_v2.Progress :=
  if resume then load_progress w
  else process_questions_v2.fresh_progress.

Definition initial_run (resume : bool) (w : World) : Run :=
  {| progress := initial_progress resume w;
     all_results := [];
     tracker := cost_tracker.new;
     world := w |}.

(** What the loop over the records of a batch reads and changes, apart
    from the records of the batch: the processed questions, the records
    returned, the tracker, the failure log and the service. *)
Definition core (run : Run)
    : list Z * list (gmap string value) * cost_tracker.CostTracker
      * list FailureRecord * list Attempt :=
  (process_questions_v2.processed_question_ids (progress run),
   all_results run, tracker run,
   failed_log (world run), service (world run)).

(** *** The dataset of process_claude.py *)

(** A record of the dataset and the question that it was made for. *)
Definition answers (q : pdf_extractor.Question) (r : gmap string value)
    : Prop :=
  (exists letter,
     In letter ABCD /\
     pdf_extractor.correct_answer q = Some letter /\
     r !! "correctOption" = Some (Str letter)) /\
  is_Some (r !! "id") /\
  is_Some (r !! "questionNumber") /\
  is_Some (r !! "questionText").

End untyped_properties.

(** * Theorems *)

(** ** CostTracker *)

Section CostTracker.

Import cost_tracker properties.

Lemma record_calls_cons t i o ok calls :
  record_calls t ((i, o, ok) :: calls) =
  record_calls (record_call t i o ok) calls.
Proof. reflexivity. Qed.

(** The counters after a sequence of calls, from any tracker. *)
Lemma record_calls_counters calls : forall t,
  let t' := record_calls t calls in
  total_calls t' - successful_calls t' - failed_calls t' =
    total_calls t - successful_calls t - failed_calls t /\
  input_tokens t' = input_tokens t + total (inputs calls) /\
  output_tokens t' = output_tokens t + total (outputs calls) /\
  total_calls t' = total_calls t + Z.of_nat (List.length calls).
Proof.
  induction calls as [|[[i o] ok] calls IH]; intros t.
  - simpl. repeat split; lia.
  - rewrite record_calls_cons. specialize (IH (record_call t i o ok)).
    cbv zeta in *. destruct IH as (Hinv & Hin & Hout & Hn).
    rewrite Hinv, Hin, Hout, Hn.
    change (inputs ((i, o, ok) :: calls)) with (i :: inputs calls).
    change (outputs ((i, o, ok) :: calls)) with (o :: outputs calls).
    change (total (i :: inputs calls)) with (i + total (inputs calls)).
    change (total (o :: outputs calls)) with (o + total (outputs calls)).
    rewrite length_cons.
    destruct ok; simpl; repeat split; lia.
Qed.

(** C10.  Starting from a freshly constructed [CostTracker], after any
    sequence of [record_call] invocations [total_calls] equals
    [successful_calls + failed_calls], and [input_tokens] and
    [output_tokens] are the sums of the corresponding arguments of all the
    calls. *)
Theorem C10_cost_tracker_counts (calls : list Call) :
  let t := record_calls new calls in
  total_calls t = successful_calls t + failed_calls t /\
  input_tokens t = total (inputs calls) /\
  output_tokens t = total (outputs calls).
Proof.
  destruct (record_calls_counters calls new) as (Hinv & Hin & Hout & _).
  cbv zeta in *. simpl in Hinv, Hin, Hout.
  repeat split; lia.
Qed.

End CostTracker.

(** ** Section bounds *)

Section SectionBounds.

Import section_locator properties.

Lemma find_start_none pages : forall i,
  existsb (matches_any config.SECTION_START_PATTERNS) pages = false ->
  find_start pages i = None.
Proof.
  induction pages as [|p pages IH]; intros i H.
  - reflexivity.
  - cbn [existsb] in H. apply orb_false_iff in H as [Hp Hrest].
    cbn [find_start]. rewrite Hp. now apply IH.
Qed.

Lemma find_end_cons p pages i :
  find_end (p :: pages) i =
  if is_end p then Some i else find_end pages (S i).
Proof. reflexivity. Qed.

(** The second loop stops at the first page that matches an end pattern. *)
Lemma find_end_spec pages : forall i,
  match find_end pages i with
  | Some k =>
      (i <= k < i + List.length pages)%nat /\
      is_end (List.nth (k - i) pages "") = true /\
      forall j, (j < k - i)%nat -> is_end (List.nth j pages "") = false
  | None =>
      forall j, (j < List.length pages)%nat ->
        is_end (List.nth j pages "") = false
  end.
Proof.
  induction pages as [|p pages IH]; intros i.
  - cbn [find_end List.length]. intros j Hj. lia.
  - rewrite find_end_cons. destruct (is_end p) eqn:Hp.
    + replace (i - i)%nat with 0%nat by lia. cbn [List.nth List.length].
      repeat split; try lia. exact Hp.
    + specialize (IH (S i)). destruct (find_end pages (S i)) as [k|].
      * destruct IH as (Hk & Hend & Hbefore).
        replace (k - i)%nat with (S (k - S i)) by lia.
        cbn [List.nth List.length].
        repeat split; try lia; try exact Hend.
        intros [|j] Hj; [exact Hp | apply Hbefore; lia].
      * cbn [List.length].
        intros [|j] Hj; cbn [List.nth]; [exact Hp | apply IH; lia].
Qed.

Lemma nth_skipn_1 (pages : list string) j :
  List.nth j (List.skipn 1 pages) "" = List.nth (S j) pages "".
Proof. destruct pages as [|p pages]; [now destruct j | reflexivity]. Qed.

(** C5, as the code has it.  When no page matches a start pattern,
    [start_page] is 0 and [end_page] is the index of the first page after
    page 0 that matches an end pattern, or the page count when there is no
    such page; both copies of [find_section_bounds] agree. *)
Theorem C5_fallback_bounds (pages : list string) :
  no_start pages = true ->
  pdf_extractor.find_section_bounds pages
    = pdf_extractor_v3.find_section_bounds pages /\
  let '(start_page, end_page) := pdf_extractor.find_section_bounds pages in
  start_page = 0%nat /\
  (forall i, (1 <= i < end_page)%nat -> is_end (page pages i) = false) /\
  (end_page = List.length pages \/
   (1 <= end_page < List.length pages)%nat /\
   is_end (page pages end_page) = true).
Proof.
  intros Hno. split; [reflexivity|].
  unfold pdf_extractor.find_section_bounds, find_section_bounds, no_start in *.
  apply negb_true_iff in Hno.
  rewrite (find_start_none pages 0 Hno).
  pose proof (find_end_spec (List.skipn 1 pages) 1) as Hspec.
  assert (Hlen : List.length (List.skipn 1 pages) = (List.length pages - 1)%nat)
    by apply List.length_skipn.
  destruct (find_end (List.skipn 1 pages) 1) as [k|].
  - destruct Hspec as (Hk & Hend & Hbefore).
    rewrite nth_skipn_1 in Hend.
    replace (S (k - 1)) with k in Hend by lia.
    split; [reflexivity|]. split.
    + intros i Hi. unfold page.
      specialize (Hbefore (i - 1)%nat ltac:(lia)).
      rewrite nth_skipn_1 in Hbefore.
      now replace (S (i - 1)) with i in Hbefore by lia.
    + right. split; [lia | exact Hend].
  - split; [reflexivity|]. split.
    + intros i Hi. unfold page.
      specialize (Hspec (i - 1)%nat ltac:(lia)).
      rewrite nth_skipn_1 in Hspec.
      now replace (S (i - 1)) with i in Hspec by lia.
    + now left.
Qed.

Lemma C5_fallback_bounds_witness :
  no_start C5_pages = true /\
  pdf_extractor.find_section_bounds C5_pages
    = pdf_extractor_v3.find_section_bounds C5_pages /\
  let '(start_page, end_page) := pdf_extractor.find_section_bounds C5_pages in
  start_page = 0%nat /\
  (forall i, (1 <= i < end_page)%nat -> is_end (page C5_pages i) = false) /\
  (end_page = List.length C5_pages \/
   (1 <= end_page < List.length C5_pages)%nat /\
   is_end (page C5_pages end_page) = true).
Proof.
  split; [reflexivity | apply (C5_fallback_bounds C5_pages); reflexivity].
Defined.

(** C5 as stated fails: no page of [C5_pages] matches a start pattern, yet
    the section ends at page 1, before the page count 3. *)
Lemma C5_fallback_counterexample :
  C5_pages <> [] /\
  no_start C5_pages = true /\
  pdf_extractor.find_section_bounds C5_pages = (0%nat, 1%nat) /\
  pdf_extractor_v3.find_section_bounds C5_pages = (0%nat, 1%nat) /\
  snd (pdf_extractor.find_section_bounds C5_pages) <> List.length C5_pages.
Proof.
  split; [discriminate|].
  split; [reflexivity|].
  split; [reflexivity|].
  split; [reflexivity|].
  vm_compute. discriminate.
Qed.

End SectionBounds.

(** ** parse_options *)

Section ParseOptions.

Import pdf_extractor properties.

(** C9.  For every text, [parse_options] returns a list of exactly four
    entries: the recognized options first (at most four of them are kept),
    then entries with the empty text whose id is the letter of their
    position.  The ids need not be distinct: for the text "(2) x" they are
    B, B, C, D. *)
Theorem C9_parse_options_four :
  (forall text : string,
     let recognized :=
       collect_options (re.findall config.OPTION_PATTERN text) in
     exists options : list OptionEntry,
       parse_options text = Some options /\
       List.length options = 4%nat /\
       (forall k, (k < 4)%nat -> (k < List.length recognized)%nat ->
          List.nth_error options k = List.nth_error recognized k) /\
       (forall k, (k < 4)%nat -> (List.length recognized <= k)%nat ->
          List.nth_error options k = Some (mkOptionEntry (letter_at k) "")))
  /\ parse_options "(2) x"
     = Some [ mkOptionEntry "B" "x"; mkOptionEntry "B" "";
              mkOptionEntry "C" ""; mkOptionEntry "D" "" ].
Proof.
  split; [|reflexivity].
  intros text recognized. unfold parse_options. fold recognized.
  destruct recognized as [|a [|b [|c [|d rest]]]];
    (eexists; split; [reflexivity|]; split; [reflexivity|]; split;
     intros [|[|[|[|k]]]] H4 Hk; cbn in *; try lia; reflexivity).
Qed.

Lemma C9_parse_options_four_witness :
  exists options : list OptionEntry,
    parse_options "(1) a (3) c" = Some options /\
    List.length options = 4%nat /\
    List.nth_error options 1 = Some (mkOptionEntry "C" "c") /\
    List.nth_error options 2 = Some (mkOptionEntry "C" "").
Proof.
  destruct (proj1 C9_parse_options_four "(1) a (3) c")
    as (options & Hparse & Hlen & Hkept & Hpad).
  exists options. split; [exact Hparse|]. split; [exact Hlen|]. split.
  - apply (Hkept 1%nat); vm_compute; lia.
  - apply (Hpad 2%nat); vm_compute; lia.
Defined.

End ParseOptions.

(** ** Answer markers out of range *)

Section AnswerMarker.

Import properties.

Lemma strict_parse_blocks_app before : forall after,
  pdf_extractor.parse_blocks (before ++ after)
  = (pdf_extractor.parse_blocks before
     ++ pdf_extractor.parse_blocks after)%list.
Proof.
  induction before as [|m before IH]; intros after.
  - reflexivity.
  - cbn [List.app app pdf_extractor.parse_blocks].
    destruct (pdf_extractor.parse_block m); rewrite IH; reflexivity.
Qed.

(** In the strict parser a block whose marker is no key of the mapping is
    skipped. *)
Lemma strict_parse_block_invalid q_num q_text opt1 opt2 opt3 opt4 answer_idx :
  pdf_extractor.num_to_letter answer_idx = None ->
  pdf_extractor.parse_block
    [q_num; q_text; opt1; opt2; opt3; opt4; answer_idx] = None.
Proof.
  intros Hidx. unfold pdf_extractor.parse_block.
  destruct (py.int q_num); [|reflexivity].
  destruct (_ <? _)%nat; [reflexivity|].
  destruct (py.int answer_idx); [|reflexivity].
  now rewrite Hidx.
Qed.

(** C6, as the code has it.  Both parsers map the marker digits by
    1→A, 2→B, 3→C, 4→D.  The tolerant parser of pdf_extractor_v3.py still
    produces a block whose answer marker is outside 1..4, with no
    ground-truth answer, and goes on with the remaining blocks.  The strict
    parser of pdf_extractor.py skips such a block and goes on with the
    remaining blocks. *)
Theorem C6_answer_marker_out_of_range :
  (pdf_extractor.num_to_letter "1" = Some "A" /\
   pdf_extractor.num_to_letter "2" = Some "B" /\
   pdf_extractor.num_to_letter "3" = Some "C" /\
   pdf_extractor.num_to_letter "4" = Some "D" /\
   pdf_extractor_v3.num_to_letter = pdf_extractor.num_to_letter) /\
  (forall physics_text match_ next_start rest g1 g2 number answer_match
          digit n,
     re.groups match_ = [g1; g2] ->
     py.int g1 = Some number ->
     (py.len (py.strip g2) <? 20)%nat = false ->
     size (pdf_extractor_v3.fill_options
             (re.findall pdf_extractor_v3.option_pattern
                (pdf_extractor_v3.block_text_of physics_text match_
                   next_start)) ∅) = 4%nat ->
     re.search pdf_extractor_v3.answer_pattern
       (pdf_extractor_v3.block_text_of physics_text match_ next_start)
       = Some answer_match ->
     re.groups answer_match = [digit] ->
     py.int digit = Some n ->
     ~ (1 <= n <= 4) ->
     next_start = match rest with
                  | next :: _ => Some (re.m_start next)
                  | [] => None
                  end ->
     exists q,
       pdf_extractor_v3.parse_block physics_text match_ next_start = Some q /\
       pdf_extractor_v3.number q = number /\
       pdf_extractor_v3.correct_index q = Some n /\
       pdf_extractor_v3.correct_answer q = None /\
       pdf_extractor_v3.has_answer q = false /\
       pdf_extractor_v3.parse_blocks physics_text (match_ :: rest)
       = q :: pdf_extractor_v3.parse_blocks physics_text rest) /\
  (forall before after q_num q_text opt1 opt2 opt3 opt4 answer_idx,
     pdf_extractor.num_to_letter answer_idx = None ->
     pdf_extractor.parse_block
       [q_num; q_text; opt1; opt2; opt3; opt4; answer_idx] = None /\
     pdf_extractor.parse_blocks
       (before ++ [q_num; q_text; opt1; opt2; opt3; opt4; answer_idx]
               :: after)
     = (pdf_extractor.parse_blocks before
        ++ pdf_extractor.parse_blocks after)%list).
Proof.
  split; [repeat split|]. split.
  - intros physics_text match_ next_start rest g1 g2 number answer_match
      digit n Hgroups Hnum Hlen Hopts Hsearch Hdigit Hint Hrange Hnext.
    assert (Hblock : exists q,
      pdf_extractor_v3.parse_block physics_text match_ next_start = Some q /\
      pdf_extractor_v3.number q = number /\
      pdf_extractor_v3.correct_index q = Some n /\
      pdf_extractor_v3.correct_answer q = None /\
      pdf_extractor_v3.has_answer q = false).
    { unfold pdf_extractor_v3.parse_block.
      rewrite Hgroups, Hnum. unfold py.len in *. rewrite Hlen, Hopts.
      unfold pdf_extractor_v3.read_answer. rewrite Hsearch, Hdigit, Hint.
      assert (Hout : (1 <=? n) && (n <=? 4) = false).
      { apply andb_false_iff.
        destruct (Z.leb_spec 1 n), (Z.leb_spec n 4); auto; lia. }
      rewrite Hout. cbn [Nat.eqb negb].
      eexists. repeat split. }
    destruct Hblock as (q & Hq & Hrest).
    exists q. split; [exact Hq|].
    destruct Hrest as (H1 & H2 & H3 & H4). repeat split; try assumption.
    cbn [pdf_extractor_v3.parse_blocks]. rewrite <- Hnext, Hq. reflexivity.
  - intros before after q_num q_text opt1 opt2 opt3 opt4 answer_idx Hidx.
    pose proof (strict_parse_block_invalid q_num q_text opt1 opt2 opt3 opt4
                  answer_idx Hidx) as Hskip.
    split; [exact Hskip|].
    rewrite strict_parse_blocks_app.
    cbn [pdf_extractor.parse_blocks]. now rewrite Hskip.
Qed.

Lemma C6_answer_marker_out_of_range_witness :
  (exists q,
     pdf_extractor_v3.parse_block C6_text C6_match (Some 157%nat) = Some q /\
     pdf_extractor_v3.number q = 8 /\
     pdf_extractor_v3.correct_index q = Some 9 /\
     pdf_extractor_v3.correct_answer q = None /\
     pdf_extractor_v3.has_answer q = false /\
     pdf_extractor_v3.parse_blocks C6_text (C6_match :: C6_rest)
     = q :: pdf_extractor_v3.parse_blocks C6_text C6_rest) /\
  (pdf_extractor.parse_block C6_block = None /\
   pdf_extractor.parse_blocks ([] ++ C6_block :: [])
   = (pdf_extractor.parse_blocks [] ++ pdf_extractor.parse_blocks [])%list).
Proof.
  destruct C6_answer_marker_out_of_range as (_ & Hv3 & Hstrict).
  split.
  - eapply (Hv3 C6_text C6_match (Some 157%nat) C6_rest
              "8" "What is the SI unit of work done? " 8 _ "9" 9).
    + reflexivity.
    + reflexivity.
    + reflexivity.
    + vm_compute. reflexivity.
    + vm_compute. reflexivity.
    + reflexivity.
    + reflexivity.
    + lia.
    + reflexivity.
  - apply (Hstrict [] []). reflexivity.
Defined.

(** C6 as stated fails for the strict parser: the block numbered 8 of
    [C6_text] is captured by the pattern with the marker 9, and it is
    skipped, not produced without an answer; the blocks 7 and 9 are
    produced. *)
Lemma C6_answer_marker_counterexample :
  In C6_block (re.findall pdf_extractor.pattern C6_text) /\
  pdf_extractor.num_to_letter "9" = None /\
  pdf_extractor.parse_block C6_block = None /\
  List.map pdf_extractor.number
    (pdf_extractor.extract_physics_questions_improved [C6_text]) = [7; 9].
Proof.
  split; [vm_compute; right; left; reflexivity|].
  split; [reflexivity|].
  split; vm_compute; reflexivity.
Qed.

End AnswerMarker.

(** ** validate_question_completeness *)

Section Completeness.

Import structured question_validator properties.

Lemma length_eqb_0 {A : Type} (l : list A) :
  (List.length l =? 0)%nat = true <-> l = [].
Proof. destruct l; cbn; split; intros H; congruence. Qed.

(** With no required field missing, the reasons are those of the rules, in
    the order of the checks. *)
Lemma validate_reasons question :
  missing_fields question = [] ->
  validate_question_completeness question =
  let reasons :=
    ((if (py.len (get (questionText question) "") <? 50)%nat
      then [TextTooShort (py.len (get (questionText question) ""))] else [])
     ++ placeholder_errors config.PLACEHOLDER_PATTERNS
          (py.lower (get (questionText question) ""))
     ++ option_errors (get (options question) [])
     ++ correct_option_errors (correctOption question)
     ++ (if missing_or_placeholder
              (get (chapter (get (classification question)
                               (mkClassification None None None))) "")
              "chapter name here"
         then [ChapterMissing] else [])
     ++ (if missing_or_placeholder
              (get (topic (get (classification question)
                             (mkClassification None None None))) "")
              "topic name here"
         then [TopicMissing] else [])
     ++ concept_tag_errors (concept_tags_of question)
     ++ step_errors (steps_of question))%list in
  ((List.length reasons =? 0)%nat, reasons).
Proof.
  intros Hmissing. unfold validate_question_completeness.
  rewrite Hmissing. cbn [List.length Nat.eqb negb].
  unfold concept_tags_of, steps_of. cbv zeta.
  rewrite !app_nil_l, <- !app_assoc. reflexivity.
Qed.

Lemma validate_valid_iff question :
  fst (validate_question_completeness question) = true <->
  snd (validate_question_completeness question) = [].
Proof.
  destruct (missing_fields question) as [|r rs] eqn:Hmissing.
  - rewrite (validate_reasons _ Hmissing). cbn [fst snd].
    apply length_eqb_0.
  - unfold validate_question_completeness. rewrite Hmissing.
    cbn [List.length Nat.eqb negb fst snd]. split; discriminate.
Qed.

End Completeness.

(** ** Answer integrity in the generation client *)

Section AnswerIntegrity.

Import structured generation_service process_claude properties.

Lemma eq_str_true a b : eq_str a b = true <-> a = b.
Proof.
  destruct a as [a|], b as [b|]; cbn; split; intros H;
    try discriminate; try reflexivity.
  - apply String.eqb_eq in H. now subst.
  - injection H as ->. apply String.eqb_refl.
Qed.

Lemma eq_str_false a b : eq_str a b = false <-> a <> b.
Proof.
  rewrite <- eq_str_true. destruct (eq_str a b); split; congruence.
Qed.

(** The loop over the options keeps the ids and sets every flag. *)
Lemma fix_options_spec correct_answer opts : forall opts',
  fix_options correct_answer opts = Some opts' ->
  List.map opt_id opts' = List.map opt_id opts /\
  forall opt, In opt opts' ->
    exists i, opt_id opt = Some i /\
              isCorrect opt = Some (eq_str (Some i) correct_answer).
Proof.
  induction opts as [|o opts IH]; intros opts' Hfix; cbn in Hfix.
  - injection Hfix as <-. split; [reflexivity | intros opt []].
  - destruct (opt_id o) as [i|] eqn:Hid; [|discriminate].
    destruct (fix_options correct_answer opts) as [rest|]; [|discriminate].
    injection Hfix as <-. destruct (IH rest eq_refl) as [Hids Hflags].
    split.
    + cbn. now rewrite Hids, Hid.
    + intros opt [<-|Hin]; [|now apply Hflags].
      exists i. split; reflexivity.
Qed.

Lemma fix_options_total correct_answer opts :
  (forall opt, In opt opts -> opt_id opt <> None) ->
  exists opts', fix_options correct_answer opts = Some opts'.
Proof.
  induction opts as [|o opts IH]; intros Hids; cbn.
  - now eexists.
  - destruct (opt_id o) as [i|] eqn:Hid.
    + destruct IH as [rest ->]; [intros; apply Hids; now right|].
      now eexists.
    + now destruct (Hids o (or_introl eq_refl)).
Qed.

(** What the check makes of a parsed answer. *)
Lemma verify_answer_spec question result r :
  verify_answer question result = Some r ->
  correctOption r = pdf_extractor.correct_answer question /\
  (correctOption result = pdf_extractor.correct_answer question ->
     r = result) /\
  (correctOption result <> pdf_extractor.correct_answer question ->
     List.map opt_id (get (options r) [])
       = List.map opt_id (get (options result) []) /\
     forall opt, In opt (get (options r) []) ->
       exists i, opt_id opt = Some i /\
                 isCorrect opt
                   = Some (eq_str (Some i)
                             (pdf_extractor.correct_answer question))).
Proof.
  unfold verify_answer.
  destruct (eq_str (correctOption result) _) eqn:Heq; cbn [negb].
  - apply eq_str_true in Heq. intros [= <-].
    split; [exact Heq|]. split; [reflexivity | congruence].
  - apply eq_str_false in Heq.
    destruct (options result) as [opts|] eqn:Hopts.
    + destruct (fix_options _ opts) as [opts'|] eqn:Hfix; [|discriminate].
      intros [= <-]. cbn. split; [reflexivity|]. split; [congruence|].
      intros _. now apply fix_options_spec.
    + intros [= <-]. cbn. split; [reflexivity|]. split; [congruence|].
      intros _. split; [reflexivity | intros opt []].
Qed.

Lemma ensure_required_fields_spec question r :
  correctOption r = pdf_extractor.correct_answer question ->
  correctOption (ensure_required_fields question r)
    = pdf_extractor.correct_answer question /\
  options (ensure_required_fields question r) = options r.
Proof.
  intros Hr. cbn. rewrite Hr. split; [|reflexivity].
  now destruct (pdf_extractor.correct_answer question).
Qed.

(** A returned record comes from one parsed answer of the service that
    passed the check. *)
Lemma attempts_returns question n : forall tracker service r tracker' service',
  attempts n question tracker service = (Some r, tracker', service') ->
  exists i o result r0,
    In (AttemptParsed i o result) service /\
    verify_answer question result = Some r0 /\
    r = ensure_required_fields question r0.
Proof.
  induction n as [|n IH]; intros tracker service r tracker' service' Hrun;
    cbn in Hrun; [discriminate|].
  destruct service as [|outcome service]; cbn in Hrun.
  - apply IH in Hrun as (i & o & result & r0 & [] & _).
  - destruct outcome as [|i o|i o result].
    + apply IH in Hrun as (i' & o' & result' & r0 & Hin & Hrest).
      exists i', o', result', r0. split; [now right | exact Hrest].
    + apply IH in Hrun as (i' & o' & result' & r0 & Hin & Hrest).
      exists i', o', result', r0. split; [now right | exact Hrest].
    + destruct (verify_answer question result) as [r0|] eqn:Hverify.
      * injection Hrun as <- _ _.
        exists i, o, result, r0. split; [now left | now split].
      * apply IH in Hrun as (i' & o' & result' & r0 & Hin & Hrest).
        exists i', o', result', r0. split; [now right | exact Hrest].
Qed.

(** C1.  For a question with a known ground-truth answer, every record
    returned by the generation client carries that answer in
    [correctOption], whatever the service said; and the client does return
    such a record at the first attempt when the service sends a parsable
    answer whose options all have an id, whether that answer agrees on
    [correctOption] or not. *)
Theorem C1_correct_option_is_ground_truth
    (question : pdf_extractor.Question) (ground_truth_answer : string) :
  pdf_extractor.correct_answer question = Some ground_truth_answer ->
  (forall max_retries tracker service r tracker' service',
     call_claude_api question max_retries tracker service
       = (Some r, tracker', service') ->
     correctOption r = Some ground_truth_answer) /\
  (forall max_retries tracker i o result service,
     0 < max_retries ->
     (forall opt, In opt (get (options result) []) -> opt_id opt <> None) ->
     exists r,
       call_claude_api question max_retries tracker
         (AttemptParsed i o result :: service)
       = (Some r, cost_tracker.record_call tracker i o true, service) /\
       correctOption r = Some ground_truth_answer).
Proof.
  intros Hknown. split.
  - intros max_retries tracker service r tracker' service' Hcall.
    apply attempts_returns in Hcall as (i & o & result & r0 & _ & Hv & ->).
    apply verify_answer_spec in Hv as (Hr0 & _).
    rewrite <- Hknown. now apply ensure_required_fields_spec.
  - intros max_retries tracker i o result service Hretries Hids.
    unfold call_claude_api.
    destruct (Z.to_nat max_retries) as [|n] eqn:Hn; [lia|].
    cbn [attempts request].
    assert (Hverify : exists r0, verify_answer question result = Some r0).
    { unfold verify_answer.
      destruct (negb _); [|now eexists].
      destruct (options result) as [opts|]; [|now eexists].
      destruct (fix_options_total (pdf_extractor.correct_answer question)
                  opts Hids) as [opts' ->].
      now eexists. }
    destruct Hverify as [r0 Hverify]. rewrite Hverify.
    eexists. split; [reflexivity|].
    apply verify_answer_spec in Hverify as (Hr0 & _).
    rewrite <- Hknown. now apply ensure_required_fields_spec.
Qed.

Lemma C1_correct_option_is_ground_truth_witness :
  pdf_extractor.correct_answer Q7 = Some "B" /\
  correctOption Q7_says_A = Some "A" /\
  exists r,
    call_claude_api Q7 5 cost_tracker.new
      [AttemptError; AttemptParsed 120 340 Q7_says_A]
    = (Some r,
       cost_tracker.record_calls cost_tracker.new
         [(0, 0, false); (120, 340, true)],
       []) /\
    correctOption r = Some "B".
Proof.
  split; [reflexivity|]. split; [reflexivity|].
  eexists. split; [vm_compute; reflexivity|].
  eapply (proj1 (C1_correct_option_is_ground_truth Q7 "B" eq_refl)
            5 cost_tracker.new
            [AttemptError; AttemptParsed 120 340 Q7_says_A]).
  vm_compute. reflexivity.
Defined.

End AnswerIntegrity.

(** ** The correctness flags of the options *)

Section CorrectnessFlags.

Import structured generation_service process_claude properties.

(** The number of options of a given id depends on the ids only. *)
Lemma with_id_length letter opts opts' :
  List.map opt_id opts = List.map opt_id opts' ->
  List.length (with_id letter opts) = List.length (with_id letter opts').
Proof.
  revert opts'. induction opts as [|o opts IH]; intros [|o' opts'] Hids;
    try discriminate; [reflexivity|].
  cbn in Hids. injection Hids as Hid Hrest.
  unfold with_id in *. cbn [List.filter]. rewrite Hid.
  destruct (eq_str (opt_id o') (Some letter)); cbn [List.length];
    now rewrite (IH opts' Hrest).
Qed.

(** Once every flag says whether the id is [letter], the flagged options
    are those of id [letter]. *)
Lemma flagged_with_id letter opts :
  (forall opt, In opt opts ->
     exists i, opt_id opt = Some i /\
               isCorrect opt = Some (eq_str (Some i) (Some letter))) ->
  flagged opts = with_id letter opts.
Proof.
  intros Hflags. unfold flagged, with_id. apply List.filter_ext_in.
  intros opt Hin. destruct (Hflags opt Hin) as (i & -> & ->).
  now destruct (eq_str (Some i) (Some letter)).
Qed.

Lemma with_id_singleton letter opts :
  List.length (with_id letter opts) = 1%nat ->
  exists opt, with_id letter opts = [opt] /\ opt_id opt = Some letter.
Proof.
  intros Hlen.
  destruct (with_id letter opts) as [|opt [|]] eqn:Hfilter;
    try discriminate.
  exists opt. split; [reflexivity|].
  assert (Hin : In opt (with_id letter opts)) by (rewrite Hfilter; now left).
  unfold with_id in Hin. apply List.filter_In in Hin as [_ Hid].
  now apply eq_str_true in Hid.
Qed.

(** C2, as the code has it.  A record returned by the generation client for
    a question whose ground-truth answer is known comes from an answer of
    the service.  When that answer disagreed on [correctOption], every
    option of the record has an id and its flag says whether the id is the
    ground-truth answer, so that exactly one option is flagged, the one of
    that id, whenever exactly one option of the answer has that id.  When
    the answer agreed on [correctOption], its options are returned as they
    came. *)
Theorem C2_flags_recomputed_on_disagreement
    (question : pdf_extractor.Question) (ground_truth_answer : string)
    max_retries tracker service r tracker' service' :
  pdf_extractor.correct_answer question = Some ground_truth_answer ->
  call_claude_api question max_retries tracker service
    = (Some r, tracker', service') ->
  exists i o result,
    In (AttemptParsed i o result) service /\
    (correctOption result = Some ground_truth_answer ->
       options r = options result) /\
    (correctOption result <> Some ground_truth_answer ->
       List.map opt_id (get (options r) [])
         = List.map opt_id (get (options result) []) /\
       (forall opt, In opt (get (options r) []) ->
          exists i, opt_id opt = Some i /\
                    isCorrect opt = Some (String.eqb i ground_truth_answer)) /\
       (List.length (with_id ground_truth_answer (get (options result) []))
          = 1%nat ->
        exactly_one_correct ground_truth_answer r)).
Proof.
  intros Hknown Hcall.
  apply attempts_returns in Hcall as (i & o & result & r0 & Hin & Hv & ->).
  exists i, o, result. split; [exact Hin|].
  apply verify_answer_spec in Hv as (Hr0 & Hsame & Hfixed).
  rewrite Hknown in *.
  assert (Hopts : options (ensure_required_fields question r0) = options r0)
    by reflexivity.
  rewrite Hopts. split.
  - intros Hagree. now rewrite (Hsame Hagree).
  - intros Hdiffer. destruct (Hfixed Hdiffer) as [Hids Hflags].
    split; [exact Hids|]. split; [exact Hflags|].
    intros Hone. unfold exactly_one_correct. rewrite Hopts.
    rewrite (flagged_with_id ground_truth_answer _ Hflags).
    apply with_id_singleton.
    now rewrite (with_id_length _ _ _ Hids).
Qed.

Lemma C2_flags_recomputed_on_disagreement_witness :
  pdf_extractor.correct_answer Q7 = Some "B" /\
  exists r,
    call_claude_api Q7 5 cost_tracker.new [AttemptParsed 120 340 Q7_says_A]
    = (Some r, cost_tracker.record_call cost_tracker.new 120 340 true, []) /\
    exists i o result,
      In (AttemptParsed i o result) [AttemptParsed 120 340 Q7_says_A] /\
      (correctOption result = Some "B" -> options r = options result) /\
      (correctOption result <> Some "B" ->
         List.map opt_id (get (options r) [])
           = List.map opt_id (get (options result) []) /\
         (forall opt, In opt (get (options r) []) ->
            exists i, opt_id opt = Some i /\
                      isCorrect opt = Some (String.eqb i "B")) /\
         (List.length (with_id "B" (get (options result) [])) = 1%nat ->
          exactly_one_correct "B" r)).
Proof.
  split; [reflexivity|].
  eexists. split; [vm_compute; reflexivity|].
  eapply (C2_flags_recomputed_on_disagreement Q7 "B" 5 cost_tracker.new
            [AttemptParsed 120 340 Q7_says_A]).
  - reflexivity.
  - vm_compute. reflexivity.
Defined.

(** C2 as stated fails: the service agrees that the answer is B but flags
    the option A; the client returns the record with the flag on A and
    none on B. *)
Lemma C2_exactly_one_correct_counterexample :
  pdf_extractor.correct_answer Q7 = Some "B" /\
  exists r,
    call_claude_api Q7 5 cost_tracker.new
      [AttemptParsed 120 340 Q7_says_B_flags_A]
    = (Some r, cost_tracker.record_call cost_tracker.new 120 340 true, []) /\
    correctOption r = Some "B" /\
    List.map opt_id (flagged (get (options r) [])) = [Some "A"] /\
    ~ exactly_one_correct "B" r.
Proof.
  split; [reflexivity|].
  eexists. split; [vm_compute; reflexivity|].
  split; [reflexivity|]. split; [reflexivity|].
  intros (opt & Hflagged & Hid).
  vm_compute in Hflagged. injection Hflagged as <-.
  discriminate Hid.
Qed.

End CorrectnessFlags.

(** ** The batch orchestrator *)

Section Orchestrator.

Import structured generation_service process_questions_v2 properties.

(** An incomplete record has a first reason: [errors[0]] does not raise. *)
Lemma validate_invalid_has_reason structured errors :
  question_validator.validate_question_completeness structured
    = (false, errors) ->
  errors <> [].
Proof.
  intros Hrun Hnil.
  pose proof (validate_valid_iff structured) as Hiff.
  rewrite Hrun in Hiff. cbn [fst snd] in Hiff.
  apply Hiff in Hnil. discriminate.
Qed.

Lemma failure_records_cons entry trace :
  failure_records (entry :: trace)
  = (failure_records [entry] ++ failure_records trace)%list.
Proof.
  unfold failure_records. cbn [List.flat_map]. now rewrite app_nil_r.
Qed.

(** The loop over the records of a batch follows the trace of their
    outcomes and never raises. *)
Lemma process_records_trace max_retries batch : forall run batch_results,
  let trace :=
    outcomes max_retries batch (processed_question_ids (progress run))
      (tracker run) (service (world run)) in
  exists run',
    process_records max_retries false batch run batch_results
      = Some (run', (batch_results ++ succeeded trace)%list) /\
    last_completed_batch (progress run')
      = last_completed_batch (progress run) /\
    all_results run' = (all_results run ++ succeeded trace)%list /\
    failed_log (world run')
      = (failed_log (world run) ++ failure_records trace)%list /\
    batches_dir (world run') = batches_dir (world run) /\
    progress_file (world run') = progress_file (world run).
Proof.
  induction batch as [|q batch IH]; intros run batch_results.
  - exists run. cbn. rewrite !app_nil_r. repeat split.
  - cbn [outcomes process_records]. unfold process_question.
    destruct (existsb _ _) eqn:Hseen.
    { destruct (IH run batch_results) as (run' & Hrun & Hrest).
      exists run'. cbn zeta in *. rewrite Hrun.
      split; [reflexivity | exact Hrest]. }
    destruct (negb (question_validator.is_valid_physics_question _))
      eqn:Hvalid.
    { destruct (IH (in_world (log_failed_question (pdf_extractor.number q)
                                InvalidPhysicsContent) run) batch_results)
        as (run' & Hrun & Hb & Hall & Hlog & Hdir & Hfile).
      exists run'. cbn zeta in *. cbn in Hrun, Hb, Hall, Hlog, Hdir, Hfile.
      rewrite Hrun. split; [reflexivity|].
      split; [exact Hb|]. split; [exact Hall|].
      split; [|split; assumption].
      rewrite Hlog. cbn [failure_records List.flat_map].
      now rewrite <- app_assoc. }
    destruct (call_perplexity_api q max_retries (tracker run)
                (service (world run)))
      as [[[structured|] tracker'] service'] eqn:Hcall.
    + destruct (question_validator.validate_question_completeness structured)
        as [is_valid errors] eqn:Hcheck.
      set (run1 := {| progress := progress run;
                      all_results := all_results run;
                      tracker := tracker';
                      world := with_service service' (world run) |}).
      assert (Hlogged : exists run2,
        (if negb is_valid
         then match errors with
              | error :: _ =>
                  Some (in_world
                          (log_failed_question (pdf_extractor.number q)
                             (Validation error)) run1)
              | [] => None
              end
         else Some run1) = Some run2 /\
        progress run2 = progress run /\
        all_results run2 = all_results run /\
        service (world run2) = service' /\
        failed_log (world run2)
          = (failed_log (world run)
             ++ failure_records
                  [(pdf_extractor.number q, Succeeded structured)])%list /\
        batches_dir (world run2) = batches_dir (world run) /\
        progress_file (world run2) = progress_file (world run)).
      { cbn [failure_records List.flat_map]. rewrite Hcheck.
        destruct is_valid; cbn [negb].
        - exists run1. cbn. rewrite ?app_nil_r. repeat split.
        - destruct errors as [|error errors].
          + now destruct (validate_invalid_has_reason _ _ Hcheck).
          + eexists. split; [reflexivity|]. cbn. rewrite ?app_nil_r.
            repeat split. }
      destruct Hlogged as (run2 & -> & Hp & Ha & Hs & Hl & Hd & Hf).
      rewrite Hp, Ha.
      match goal with
      | |- context [process_records _ _ batch ?r ?acc] =>
          destruct (IH r acc) as (run' & Hrun & Hb & Hall & Hlog & Hdir & Hfile)
      end.
      exists run'. cbn zeta in *.
      cbn [progress all_results tracker world processed_question_ids
           last_completed_batch] in Hrun, Hb, Hall, Hlog, Hdir, Hfile.
      rewrite Hs in Hrun, Hall, Hlog. rewrite Hrun.
      split; [cbn [succeeded List.flat_map]; now rewrite <- app_assoc|].
      split; [exact Hb|].
      split; [rewrite Hall; cbn [succeeded List.flat_map];
              now rewrite <- app_assoc|].
      split; [rewrite Hlog, Hl,
                (failure_records_cons _ (outcomes _ _ _ _ _));
              now rewrite <- app_assoc|].
      split; congruence.
    + match goal with
      | |- context [process_records _ _ batch ?r ?acc] =>
          destruct (IH r acc) as (run' & Hrun & Hb & Hall & Hlog & Hdir & Hfile)
      end.
      exists run'. cbn zeta in *. cbn in Hrun, Hb, Hall, Hlog, Hdir, Hfile.
      rewrite Hrun. split; [reflexivity|].
      split; [exact Hb|]. split; [exact Hall|].
      split; [|split; assumption].
      rewrite Hlog. cbn [failure_records List.flat_map].
      now rewrite <- app_assoc.
Qed.

(** The length of a slice that starts inside the list. *)
Lemma slice_list_length {A : Type} (l : list A) i size :
  0 < size -> 0 <= i <= Z.of_nat (List.length l) ->
  Z.of_nat (List.length (py.slice_list i (i + size) l))
  = Z.min (i + size) (Z.of_nat (List.length l)) - i.
Proof.
  intros Hsize Hi. unfold py.slice_list, py.clamp.
  destruct (Z.ltb_spec i 0); [lia|].
  destruct (Z.ltb_spec (i + size) 0); [lia|].
  rewrite List.length_firstn, List.length_skipn. lia.
Qed.

(** The number given to a batch: the last completed batch, plus one, plus
    the index of the batch in this run. *)
Lemma process_batch_number questions max_retries batch_size dry_run
    batch_num i run run' :
  process_batch questions max_retries batch_size dry_run batch_num i run
    = Some run' ->
  last_completed_batch (progress run')
  = last_completed_batch (progress run) + 1 + batch_num.
Proof.
  unfold process_batch.
  destruct (process_records _ _ _ _ _) as [[run1 batch_results]|];
    [|discriminate].
  intros [= <-]. reflexivity.
Qed.

(** C3 fails on the code: in a fresh run of three batches, the batches are
    numbered 0, 2 and 5, and [last_completed_batch] goes from -1 to 0, to 2
    and to 5. *)
Theorem C3_batch_numbers_not_consecutive :
  exists run1 run2 run3,
    process_batch C3_questions 2 1 false 0 0 (fresh_run C3_service)
      = Some run1 /\
    process_batch C3_questions 2 1 false 1 1 run1 = Some run2 /\
    process_batch C3_questions 2 1 false 2 2 run2 = Some run3 /\
    run_batches C3_questions 2 1 true false (empty_world C3_service)
      = Some run3 /\
    List.map (fun run => last_completed_batch (progress run))
      [fresh_run C3_service; run1; run2; run3] = [-1; 0; 2; 5] /\
    List.map (fun run => progress_file (world run)) [run1; run2; run3]
      = List.map (fun run => Some (progress run)) [run1; run2; run3] /\
    batch_files (batches_dir (world run3))
      = ["batch_0000.json"; "batch_0002.json"; "batch_0005.json"].
Proof.
  do 3 eexists.
  split; [vm_compute; reflexivity|].
  split; [vm_compute; reflexivity|].
  split; [vm_compute; reflexivity|].
  repeat split; vm_compute; reflexivity.
Qed.

End Orchestrator.

(** ** The order of the batch files *)

Section PathOrder.

Import process_questions_v2 properties.

Lemma ascii_compare_refl c : Ascii.compare c c = Eq.
Proof. unfold Ascii.compare. apply N.compare_refl. Qed.

Lemma ascii_compare_lt_trans a b c :
  Ascii.compare a b = Lt -> Ascii.compare b c = Lt -> Ascii.compare a c = Lt.
Proof.
  unfold Ascii.compare. rewrite !N.compare_lt_iff. lia.
Qed.

Lemma string_compare_refl s : String.compare s s = Eq.
Proof.
  induction s as [|c s IH]; [reflexivity|].
  cbn. now rewrite ascii_compare_refl.
Qed.

Lemma string_compare_lt_trans a : forall b c,
  String.compare a b = Lt -> String.compare b c = Lt ->
  String.compare a c = Lt.
Proof.
  induction a as [|x a IH]; intros [|y b] [|z c] Hab Hbc;
    cbn in *; try discriminate; try reflexivity.
  destruct (Ascii.compare x y) eqn:Hxy; try discriminate.
  - apply Ascii.compare_eq_iff in Hxy. subst y.
    destruct (Ascii.compare x z); try discriminate; [|reflexivity].
    now apply (IH b c).
  - destruct (Ascii.compare y z) eqn:Hyz; try discriminate.
    + apply Ascii.compare_eq_iff in Hyz. subst z. now rewrite Hxy.
    + now rewrite (ascii_compare_lt_trans x y z Hxy Hyz).
Qed.

Lemma path_le_cases a b :
  path_le a b <-> a = b \/ String.compare a b = Lt.
Proof.
  unfold path_le, String.leb. split.
  - destruct (String.compare a b) eqn:Hcmp; try discriminate; intros _.
    + left. now apply String.compare_eq_iff.
    + now right.
  - intros [ -> | -> ]; [now rewrite string_compare_refl | reflexivity].
Qed.

#[global] Instance path_le_trans : Transitive path_le.
Proof.
  intros a b c Hab Hbc. apply path_le_cases in Hab, Hbc.
  apply path_le_cases.
  destruct Hab as [ -> |Hab]; [exact Hbc|].
  destruct Hbc as [ <- |Hbc]; [now right|].
  right. now apply (string_compare_lt_trans a b c).
Qed.

#[global] Instance path_le_total : Total path_le.
Proof. intros a b. apply String.leb_total. Qed.

(** A name that is strictly before another is not after it. *)
Lemma path_lt_not_ge a b :
  String.ltb a b = true -> ~ path_le b a.
Proof.
  unfold String.ltb, path_le, String.leb.
  rewrite (String.compare_antisym b a).
  destruct (String.compare a b); cbn; congruence.
Qed.

Lemma names_ascend_spec count : forall n k,
  names_ascend count n = true ->
  n <= k < n + Z.of_nat count ->
  String.compare (batch_file k) (batch_file (k + 1)) = Lt.
Proof.
  induction count as [|count IH]; intros n k Hall Hk; [lia|].
  cbn [names_ascend] in Hall. apply andb_true_iff in Hall as [Hn Hrest].
  destruct (Z.eq_dec k n) as [->|Hne].
  - unfold String.ltb in Hn.
    now destruct (String.compare (batch_file n) (batch_file (n + 1))).
  - apply (IH (n + 1)); [exact Hrest | lia].
Qed.

(** The names of two consecutive batches below 10000 are in order. *)
Lemma batch_file_succ_lt : names_ascend (Z.to_nat 9999) 0 = true.
Proof. vm_compute. reflexivity. Qed.

Lemma batch_file_lt n m :
  0 <= n < m -> m < 10000 ->
  String.ltb (batch_file n) (batch_file m) = true.
Proof.
  intros Hnm Hm.
  assert (Hstep : forall k, 0 <= k < 9999 ->
            String.compare (batch_file k) (batch_file (k + 1)) = Lt).
  { intros k Hk.
    apply (names_ascend_spec (Z.to_nat 9999) 0 k batch_file_succ_lt). lia. }
  assert (Hall : forall d : nat, n + 1 + Z.of_nat d < 10000 ->
            String.compare (batch_file n) (batch_file (n + 1 + Z.of_nat d))
            = Lt).
  { induction d as [|d IH]; intros Hd.
    - rewrite Z.add_0_r. apply Hstep. lia.
    - apply (string_compare_lt_trans _ (batch_file (n + 1 + Z.of_nat d))).
      + apply IH. lia.
      + replace (n + 1 + Z.of_nat (S d)) with (n + 1 + Z.of_nat d + 1)
          by lia.
        apply Hstep. lia. }
  unfold String.ltb.
  replace m with (n + 1 + Z.of_nat (Z.to_nat (m - n - 1))) by lia.
  rewrite Hall; [reflexivity | lia].
Qed.

End PathOrder.

(** ** Deduplication in the merger *)

Section Merger.

Import structured process_questions_v2 properties.

Lemma entries_with_id_snoc i prefix q :
  entries_with_id i (prefix ++ [q])
  = (entries_with_id i prefix
     ++ (if eq_str (id q) (Some i) then [q] else []))%list.
Proof.
  unfold entries_with_id. rewrite List.filter_app. cbn [List.filter].
  now destruct (eq_str (id q) (Some i)).
Qed.

Lemma firstn_1_app {A : Type} (l l' : list A) :
  l <> [] -> List.firstn 1 (l ++ l') = List.firstn 1 l.
Proof. destruct l; [congruence | reflexivity]. Qed.

(** A question that brings no new id leaves the accumulators as they
    are. *)
Lemma merged_skip prefix all_questions seen_ids q :
  merged prefix all_questions seen_ids ->
  (forall i, i <> "" -> id q = Some i -> entries_with_id i prefix <> []) ->
  merged (prefix ++ [q]) all_questions seen_ids.
Proof.
  intros (Hseen & Hfirst & Hids) Hold. split; [|split; [|exact Hids]].
  - intros i. rewrite (Hseen i), entries_with_id_snoc. split.
    + intros [Hi Hne]. split; [exact Hi|].
      intros Happ. now apply app_eq_nil in Happ as [? _].
    + intros [Hi Hne]. split; [exact Hi|].
      destruct (eq_str (id q) (Some i)) eqn:Heq.
      * apply eq_str_true in Heq. now apply Hold.
      * now rewrite app_nil_r in Hne.
  - intros i Hi. rewrite (Hfirst i Hi), entries_with_id_snoc.
    destruct (eq_str (id q) (Some i)) eqn:Heq.
    + apply eq_str_true in Heq. now rewrite firstn_1_app by now apply Hold.
    + now rewrite app_nil_r.
Qed.

(** A question with a new non-empty id is appended. *)
Lemma merged_add prefix all_questions seen_ids q j :
  merged prefix all_questions seen_ids ->
  id q = Some j -> j <> "" -> j ∉ seen_ids ->
  merged (prefix ++ [q]) (all_questions ++ [q]) ({[ j ]} ∪ seen_ids).
Proof.
  intros (Hseen & Hfirst & Hids) Hj Hne Hnew.
  assert (Hnone : entries_with_id j prefix = []).
  { destruct (entries_with_id j prefix) eqn:He; [reflexivity|].
    destruct Hnew. apply Hseen. split; [exact Hne|]. now rewrite He. }
  assert (Hother : forall i, i <> j -> eq_str (id q) (Some i) = false).
  { intros i Hi. apply eq_str_false. rewrite Hj. congruence. }
  split; [|split].
  - intros i. rewrite elem_of_union, elem_of_singleton, (Hseen i),
      entries_with_id_snoc. split.
    + intros [->|[Hi He]].
      * split; [exact Hne|]. rewrite Hj.
        rewrite (proj2 (eq_str_true (Some j) (Some j)) eq_refl).
        intros Happ. now apply app_eq_nil in Happ as [_ ?].
      * split; [exact Hi|]. intros Happ.
        now apply app_eq_nil in Happ as [? _].
    + intros [Hi He]. destruct (String.eqb_spec i j) as [->|Hij].
      * now left.
      * right. split; [exact Hi|].
        now rewrite (Hother i Hij), app_nil_r in He.
  - intros i Hi. rewrite !entries_with_id_snoc, (Hfirst i Hi).
    destruct (String.eqb_spec i j) as [->|Hij].
    + rewrite Hnone, Hj.
      now rewrite (proj2 (eq_str_true (Some j) (Some j)) eq_refl).
    + now rewrite (Hother i Hij), !app_nil_r.
  - intros q' Hin. apply in_app_or in Hin as [Hin|[<-|[]]].
    + now apply Hids.
    + rewrite Hj. cbn. now apply negb_true_iff, String.eqb_neq.
Qed.

Lemma merge_questions_merged batch_questions :
  forall prefix all_questions seen_ids,
  merged prefix all_questions seen_ids ->
  merged (prefix ++ batch_questions)
    (fst (merge_questions batch_questions all_questions seen_ids))
    (snd (merge_questions batch_questions all_questions seen_ids)).
Proof.
  induction batch_questions as [|q batch IH];
    intros prefix all_questions seen_ids Hinv.
  - now rewrite app_nil_r.
  - replace (prefix ++ q :: batch)%list with ((prefix ++ [q]) ++ batch)%list
      by now rewrite <- app_assoc.
    cbn [merge_questions].
    destruct (id q) as [j|] eqn:Hj.
    + destruct (String.eqb_spec j "") as [->|Hne]; cbn [negb andb].
      * apply IH, merged_skip; [exact Hinv|].
        intros i Hi Hid. congruence.
      * destruct (bool_decide (j ∈ seen_ids)) eqn:Hseen; cbn [negb].
        -- apply bool_decide_eq_true in Hseen.
           apply IH, merged_skip; [exact Hinv|].
           intros i Hi Hid. assert (i = j) by congruence. subst i.
           now apply (proj1 (proj1 Hinv j) Hseen).
        -- apply bool_decide_eq_false in Hseen.
           now apply IH, (merged_add _ _ _ _ j).
    + apply IH, merged_skip; [exact Hinv|]. intros i Hi Hid. congruence.
Qed.

Lemma merge_files_merged dir files :
  forall prefix all_questions seen_ids,
  merged prefix all_questions seen_ids ->
  merged
    (prefix ++ List.concat (List.map (fun file => get (dir !! file) []) files))
    (fst (merge_files dir files all_questions seen_ids))
    (snd (merge_files dir files all_questions seen_ids)).
Proof.
  induction files as [|file files IH];
    intros prefix all_questions seen_ids Hinv.
  - cbn. now rewrite app_nil_r.
  - cbn [merge_files List.map List.concat].
    pose proof (merge_questions_merged (get (dir !! file) []) _ _ _ Hinv)
      as Hstep.
    destruct (merge_questions _ all_questions seen_ids) as [all' seen'].
    rewrite app_assoc. now apply IH.
Qed.

Lemma merged_empty : merged [] [] ∅.
Proof.
  split; [|split].
  - intros i. split; [set_solver | now intros [_ ?]].
  - reflexivity.
  - intros q [].
Qed.

Lemma merge_batches_merged dir :
  exists seen_ids,
    merged (reading_order dir) (questions (merge_batches dir)) seen_ids /\
    totalQuestions (merge_batches dir)
    = List.length (questions (merge_batches dir)).
Proof.
  pose proof (merge_files_merged dir (batch_files dir) [] [] ∅ merged_empty)
    as Hinv.
  unfold merge_batches.
  destruct (merge_files dir (batch_files dir) [] ∅) as [all_questions seen].
  exists seen. split; [exact Hinv | reflexivity].
Qed.

End Merger.

(** ** The merged dataset *)

Section ReadingOrder.

Import structured process_questions_v2 properties.

Lemma drop_append (a b : string) : py.drop (String.length a) (a ++ b) = b.
Proof. induction a as [|c a IH]; [now destruct b | exact IH]. Qed.

Lemma length_append (a b : string) :
  String.length (a ++ b) = (String.length a + String.length b)%nat.
Proof.
  induction a as [|c a IH]; [reflexivity|].
  change (S (String.length (a ++ b)) = S (String.length a + String.length b)).
  now rewrite IH.
Qed.

Lemma endswith_append (a p : string) : py.endswith p (a ++ p) = true.
Proof.
  unfold py.endswith. rewrite length_append.
  replace (String.length a + String.length p - String.length p)%nat
    with (String.length a) by lia.
  rewrite drop_append, String.eqb_refl.
  apply andb_true_iff. split; [apply Nat.leb_le; lia | reflexivity].
Qed.

(** The name that [save_batch] gives to a batch matches the pattern of
    [merge_batches]. *)
Lemma batch_file_is_batch_file n : is_batch_file (batch_file n) = true.
Proof.
  unfold is_batch_file, batch_file.
  change (py.startswith "batch_" ("batch_" ++ format_0d 4 n ++ ".json"))
    with true.
  change (py.drop 6 ("batch_" ++ format_0d 4 n ++ ".json"))
    with (format_0d 4 n ++ ".json").
  apply endswith_append.
Qed.

Lemma batch_files_In (dir : gmap string (list StructuredQuestion)) file :
  In file (batch_files dir) <->
  is_batch_file file = true /\ is_Some (dir !! file).
Proof.
  unfold batch_files.
  rewrite <- list_elem_of_In, merge_sort_Permutation, list_elem_of_In.
  rewrite List.filter_In, List.in_map_iff. split.
  - intros [([file' x] & <- & Hin) Hglob]. split; [exact Hglob|].
    apply list_elem_of_In, elem_of_map_to_list in Hin. now exists x.
  - intros [Hglob [x Hx]]. split; [|exact Hglob].
    exists (file, x). split; [reflexivity|].
    now apply list_elem_of_In, elem_of_map_to_list.
Qed.

Lemma batch_files_sorted (dir : gmap string (list StructuredQuestion)) :
  StronglySorted path_le (batch_files dir).
Proof. apply StronglySorted_merge_sort; apply _. Qed.

Lemma batch_files_NoDup (dir : gmap string (list StructuredQuestion)) :
  NoDup (batch_files dir).
Proof.
  unfold batch_files. rewrite merge_sort_Permutation.
  apply NoDup_ListNoDup, List.NoDup_filter, NoDup_ListNoDup.
  replace (List.map fst (map_to_list dir)) with ((map_to_list dir).*1).
  - apply NoDup_fst_map_to_list.
  - generalize (map_to_list dir). intros l.
    induction l as [|x l IH]; [reflexivity | cbn; now rewrite IH].
Qed.

(** In a sorted list of names, a name strictly before another one comes
    first. *)
Lemma sorted_before l : forall a b,
  StronglySorted path_le l -> In a l -> In b l -> String.ltb a b = true ->
  exists l1 l2 l3, l = (l1 ++ a :: l2 ++ b :: l3)%list.
Proof.
  induction l as [|x l IH]; intros a b Hsorted Ha Hb Hlt; [destruct Ha|].
  apply StronglySorted_inv in Hsorted as [Hsorted Hall].
  rewrite List.Forall_forall in Hall.
  assert (Hneq : a <> b).
  { intros ->. unfold String.ltb in Hlt.
    now rewrite string_compare_refl in Hlt. }
  destruct Ha as [->|Ha], Hb as [->|Hb].
  - congruence.
  - apply List.in_split in Hb as (l2 & l3 & ->). now exists [], l2, l3.
  - destruct (path_lt_not_ge a b Hlt). now apply Hall.
  - destruct (IH a b Hsorted Ha Hb Hlt) as (l1 & l2 & l3 & ->).
    now exists (x :: l1), l2, l3.
Qed.




End ReadingOrder.

(** * Further properties of the code *)

(** ** The bounds of the section *)

Section SectionBoundsGeneral.

Import section_locator properties.

Lemma find_start_cons p pages i :
  find_start (p :: pages) i =
  if is_start p then Some i else find_start pages (S i).
Proof. reflexivity. Qed.

(** The first loop stops at the first page that matches a start pattern. *)
Lemma find_start_spec pages : forall i,
  match find_start pages i with
  | Some k =>
      (i <= k < i + List.length pages)%nat /\
      is_start (List.nth (k - i) pages "") = true /\
      forall j, (j < k - i)%nat -> is_start (List.nth j pages "") = false
  | None =>
      forall j, (j < List.length pages)%nat ->
        is_start (List.nth j pages "") = false
  end.
Proof.
  induction pages as [|p pages IH]; intros i.
  - cbn [find_start List.length]. intros j Hj. lia.
  - rewrite find_start_cons. destruct (is_start p) eqn:Hp.
    + replace (i - i)%nat with 0%nat by lia. cbn [List.nth List.length].
      repeat split; try lia. exact Hp.
    + specialize (IH (S i)). destruct (find_start pages (S i)) as [k|].
      * destruct IH as (Hk & Hstart & Hbefore).
        replace (k - i)%nat with (S (k - S i)) by lia.
        cbn [List.nth List.length].
        repeat split; try lia; try exact Hstart.
        intros [|j] Hj; [exact Hp | apply Hbefore; lia].
      * cbn [List.length].
        intros [|j] Hj; cbn [List.nth]; [exact Hp | apply IH; lia].
Qed.

Lemma nth_skipn {A : Type} (l : list A) n j d :
  List.nth j (List.skipn n l) d = List.nth (n + j) l d.
Proof.
  revert l. induction n as [|n IH]; intros l; [reflexivity|].
  destruct l as [|x l]; [now destruct j | apply IH].
Qed.

(** X1.  The bounds are those of a section that is not empty, unless there
    is no page at all: it starts at the first page that matches a start
    pattern, or at page 0 when there is none, and ends before the first
    later page that matches an end pattern, or with the last page.  The two
    copies of the function return the same bounds. *)
Theorem find_section_bounds_spec (pages : list string) :
  let '(start_page, end_page) := find_section_bounds pages in
  (start_page <= end_page <= List.length pages)%nat /\
  (pages = [] \/ (start_page < end_page)%nat) /\
  (forall i, (i < start_page)%nat -> is_start (page pages i) = false) /\
  (is_start (page pages start_page) = true \/
   start_page = 0%nat /\ no_start pages = true) /\
  (forall i, (start_page < i < end_page)%nat ->
     is_end (page pages i) = false) /\
  ((end_page < List.length pages)%nat ->
     is_end (page pages end_page) = true) /\
  pdf_extractor.find_section_bounds pages = (start_page, end_page) /\
  pdf_extractor_v3.find_section_bounds pages = (start_page, end_page).
Proof.
  unfold pdf_extractor.find_section_bounds,
    pdf_extractor_v3.find_section_bounds, find_section_bounds.
  pose proof (find_start_spec pages 0) as Hstart.
  set (start_page := match find_start pages 0 with
                     | Some i => i | None => 0%nat end).
  assert (Hs : (pages = [] /\ start_page = 0%nat \/
                (start_page < List.length pages)%nat) /\
               (forall i, (i < start_page)%nat ->
                  is_start (page pages i) = false) /\
               (is_start (page pages start_page) = true \/
                start_page = 0%nat /\ no_start pages = true)).
  { subst start_page. destruct (find_start pages 0) as [k|].
    - destruct Hstart as (Hk & Hk_start & Hbefore).
      rewrite Nat.sub_0_r in *.
      split; [right; lia|]. split; [exact Hbefore | now left].
    - split; [destruct pages; [now left | right; cbn; lia]|].
      split; [intros i Hi; lia|]. right. split; [reflexivity|].
      unfold no_start. apply negb_true_iff.
      apply not_true_iff_false. intros Hex.
      apply existsb_exists in Hex as (p & Hin & Hp).
      apply (List.In_nth _ _ "") in Hin as (j & Hj & Hnth).
      specialize (Hstart j Hj). unfold is_start in Hstart.
      rewrite Hnth in Hstart. congruence. }
  clearbody start_page. clear Hstart.
  destruct Hs as (Hrange & Hbefore & Hat).
  pose proof (find_end_spec (List.skipn (S start_page) pages) (S start_page))
    as Hend.
  rewrite List.length_skipn in Hend.
  destruct (find_end (List.skipn (S start_page) pages) (S start_page)) as [k|].
  - destruct Hend as (Hk & Hk_end & Hk_before).
    rewrite nth_skipn in Hk_end.
    replace (S start_page + (k - S start_page))%nat with k in Hk_end by lia.
    split; [lia|]. split; [right; lia|].
    split; [exact Hbefore|]. split; [exact Hat|].
    split; [|split; [intros _; exact Hk_end | split; reflexivity]].
    intros i Hi. specialize (Hk_before (i - S start_page)%nat ltac:(lia)).
    rewrite nth_skipn in Hk_before.
    now replace (S start_page + (i - S start_page))%nat with i
      in Hk_before by lia.
  - split; [destruct Hrange as [[-> ->]|]; cbn; lia|].
    split; [destruct Hrange as [[-> ->]|]; [now left | right; lia]|].
    split; [exact Hbefore|]. split; [exact Hat|].
    split; [|split; [lia | split; reflexivity]].
    intros i Hi. specialize (Hend (i - S start_page)%nat ltac:(lia)).
    rewrite nth_skipn in Hend.
    now replace (S start_page + (i - S start_page))%nat with i in Hend by lia.
Qed.

End SectionBoundsGeneral.

(** ** Normalisation of the text *)

Section Normalize.

Import pdf_extractor properties.

Lemma collapse_blanks_keep s : forall in_run,
  keep (fun c => negb (isblank c)) (collapse_blanks s in_run)
  = keep (fun c => negb (isblank c)) s.
Proof.
  induction s as [|c s IH]; intros in_run; [reflexivity|].
  cbn [collapse_blanks keep]. destruct (isblank c) eqn:Hc; cbn [negb].
  - destruct in_run; [apply IH|]. cbn [keep].
    change (isblank " "%char) with true. cbn [negb]. apply IH.
  - cbn [keep]. rewrite Hc. cbn [negb]. now rewrite IH.
Qed.

Lemma collapse_blanks_length s : forall in_run,
  (String.length (collapse_blanks s in_run) <= String.length s)%nat.
Proof.
  induction s as [|c s IH]; intros in_run; [reflexivity|].
  cbn [collapse_blanks]. destruct (isblank c).
  - destruct in_run; cbn [String.length].
    + specialize (IH true). lia.
    + specialize (IH true). lia.
  - cbn [String.length]. specialize (IH false). lia.
Qed.

Lemma collapse_blanks_no_tab s : forall in_run,
  keep (Ascii.eqb "009"%char) (collapse_blanks s in_run) = "".
Proof.
  induction s as [|c s IH]; intros in_run; [reflexivity|].
  cbn [collapse_blanks]. destruct (isblank c) eqn:Hc.
  - destruct in_run; [apply IH|]. cbn [keep].
    change (Ascii.eqb "009"%char " "%char) with false. apply IH.
  - cbn [keep]. destruct (Ascii.eqb_spec "009"%char c) as [<-|_]; [|apply IH].
    discriminate Hc.
Qed.

(** Inside a run of blanks, what follows does not start with a space. *)
Lemma collapse_blanks_in_run s :
  py.startswith " " (collapse_blanks s true) = false.
Proof.
  induction s as [|c s IH]; [reflexivity|].
  cbn [collapse_blanks]. destruct (isblank c) eqn:Hc; [exact IH|].
  cbn [py.startswith].
  destruct (Ascii.eqb_spec " "%char c) as [<-|_]; [discriminate Hc|].
  reflexivity.
Qed.

Lemma startswith_two_spaces s :
  py.startswith "  " (String " "%char s) = py.startswith " " s.
Proof. reflexivity. Qed.

Lemma collapse_blanks_no_run s : forall in_run,
  py.contains "  " (collapse_blanks s in_run) = false.
Proof.
  induction s as [|c s IH]; intros in_run; [reflexivity|].
  cbn [collapse_blanks]. destruct (isblank c) eqn:Hc.
  - destruct in_run; [apply IH|].
    cbn [py.contains]. rewrite startswith_two_spaces, collapse_blanks_in_run.
    apply IH.
  - cbn [py.contains]. rewrite IH, orb_false_r.
    cbn [py.startswith].
    destruct (Ascii.eqb_spec " "%char c) as [<-|_]; [discriminate Hc|].
    reflexivity.
Qed.

Lemma collapse_blanks_twice s :
  (forall in_run,
     collapse_blanks (collapse_blanks s in_run) in_run
     = collapse_blanks s in_run) /\
  collapse_blanks (collapse_blanks s true) false = collapse_blanks s true.
Proof.
  induction s as [|c s [IH1 IH2]]; [split; [intros []|]; reflexivity|].
  cbn [collapse_blanks]. destruct (isblank c) eqn:Hc.
  - split; [|exact IH2]. intros [|]; [apply IH1|].
    cbn [collapse_blanks]. change (isblank " "%char) with true.
    now rewrite IH1.
  - split; [intros in_run|]; cbn [collapse_blanks]; rewrite Hc;
      now rewrite IH1.
Qed.

(** X2.  [normalize_text] leaves every character that is neither a space nor
    a tab where it is, and only those; its result has no tab and no two
    spaces in a row, is not longer than the text, and is left as it is by a
    second normalisation. *)
Theorem normalize_text_spec (text : string) :
  let result := normalize_text text in
  keep (fun c => negb (isblank c)) result
    = keep (fun c => negb (isblank c)) text /\
  keep (Ascii.eqb "009"%char) result = "" /\
  py.contains "  " result = false /\
  (py.len result <= py.len text)%nat /\
  normalize_text result = result.
Proof.
  unfold normalize_text, py.len. cbv zeta.
  split; [apply collapse_blanks_keep|].
  split; [apply collapse_blanks_no_tab|].
  split; [apply collapse_blanks_no_run|].
  split; [apply collapse_blanks_length|].
  apply (proj1 (collapse_blanks_twice text)).
Qed.

End Normalize.

(** ** Words and single spaces *)

Section Squeeze.

Import properties.

Lemma string_of_list_ascii_app l1 l2 :
  string_of_list_ascii (l1 ++ l2)%list
  = string_of_list_ascii l1 ++ string_of_list_ascii l2.
Proof. induction l1 as [|c l1 IH]; [reflexivity | cbn; now rewrite IH]. Qed.

Lemma append_cons c (a b : string) : String c a ++ b = String c (a ++ b).
Proof. reflexivity. Qed.

Lemma append_nil (b : string) : "" ++ b = b.
Proof. reflexivity. Qed.

Lemma append_empty_r (a : string) : a ++ "" = a.
Proof.
  induction a as [|c a IH]; [reflexivity|]. now rewrite append_cons, IH.
Qed.

Lemma keep_app p (a b : string) : keep p (a ++ b) = keep p a ++ keep p b.
Proof.
  induction a as [|c a IH]; [reflexivity|].
  rewrite append_cons. cbn [keep].
  destruct (p c); rewrite ?append_cons, IH; reflexivity.
Qed.

Lemma keep_rev_string p cur :
  Forall (fun c => p c = false) cur -> keep p (py.rev_string cur) = "".
Proof.
  unfold py.rev_string. induction 1 as [|c cur Hc _ IH]; [reflexivity|].
  cbn [List.rev]. rewrite string_of_list_ascii_app, keep_app, IH.
  cbn. now rewrite Hc.
Qed.

Lemma rev_string_not_empty c cur : py.rev_string (c :: cur) <> "".
Proof.
  unfold py.rev_string. cbn [List.rev]. rewrite string_of_list_ascii_app.
  destruct (string_of_list_ascii (List.rev cur)); discriminate.
Qed.

(** [str.split] yields words. *)
Lemma split_aux_words s : forall cur,
  Forall (fun c => py.isspace c = false) cur ->
  Forall is_word (py.split_aux s cur).
Proof.
  induction s as [|c s IH]; intros cur Hcur.
  - destruct cur as [|x cur]; cbn [py.split_aux]; [constructor|].
    constructor; [|constructor].
    split; [apply rev_string_not_empty | now apply keep_rev_string].
  - cbn [py.split_aux]. destruct (py.isspace c) eqn:Hc.
    + destruct cur as [|x cur]; [apply IH; constructor|].
      constructor; [|apply IH; constructor].
      split; [apply rev_string_not_empty | now apply keep_rev_string].
    + apply IH. now constructor.
Qed.

(** Reading a word that is followed by the end of the text or by a
    space. *)
Lemma split_aux_word w : forall rest cur,
  keep py.isspace w = "" ->
  py.split_aux (w ++ rest) cur
  = py.split_aux rest (List.rev (list_ascii_of_string w) ++ cur)%list.
Proof.
  induction w as [|c w IH]; intros rest cur Hw; [reflexivity|].
  cbn [keep] in Hw. destruct (py.isspace c) eqn:Hc; [discriminate|].
  rewrite append_cons. cbn [py.split_aux list_ascii_of_string List.rev].
  rewrite Hc.
  rewrite IH by exact Hw. now rewrite <- app_assoc.
Qed.

Lemma rev_string_rev w :
  py.rev_string (List.rev (list_ascii_of_string w) ++ [])%list = w.
Proof.
  unfold py.rev_string.
  rewrite app_nil_r, List.rev_involutive.
  apply string_of_list_ascii_of_string.
Qed.

Lemma rev_word_not_nil w :
  w <> "" -> (List.rev (list_ascii_of_string w) ++ [])%list <> [].
Proof.
  destruct w as [|c w]; [congruence|]. intros _ H.
  rewrite app_nil_r in H. cbn in H.
  now apply app_eq_nil in H as [_ H].
Qed.

Lemma join_cons sep w w' ws :
  py.join sep (w :: w' :: ws) = w ++ sep ++ py.join sep (w' :: ws).
Proof. reflexivity. Qed.

(** Splitting the words joined by single spaces gives the words back. *)
Lemma split_join ws :
  Forall is_word ws -> py.split (py.join " " ws) = ws.
Proof.
  unfold py.split. induction 1 as [|w ws [Hne Hw] Hws IH]; [reflexivity|].
  destruct ws as [|w' ws].
  - change (py.join " " [w]) with w.
    rewrite <- (append_empty_r w) at 1.
    rewrite split_aux_word by exact Hw. cbn [py.split_aux].
    pose proof (rev_word_not_nil w Hne) as Hcur.
    destruct (List.rev (list_ascii_of_string w) ++ [])%list eqn:Hrev;
      [congruence|].
    rewrite <- Hrev, rev_string_rev. reflexivity.
  - rewrite join_cons, split_aux_word by exact Hw.
    change (" " ++ py.join " " (w' :: ws))
      with (String " "%char (py.join " " (w' :: ws))).
    cbn [py.split_aux]. change (py.isspace " "%char) with true. cbv iota.
    pose proof (rev_word_not_nil w Hne) as Hcur.
    destruct (List.rev (list_ascii_of_string w) ++ [])%list eqn:Hrev;
      [congruence|].
    rewrite <- Hrev, rev_string_rev, IH. reflexivity.
Qed.

(** The white space of joined words is that of the separators. *)
Lemma join_white ws :
  Forall is_word ws ->
  keep (fun c => py.isspace c && negb (Ascii.eqb c " "%char))
    (py.join " " ws) = "" /\
  py.contains "  " (py.join " " ws) = false /\
  py.startswith " " (py.join " " ws) = false.
Proof.
  induction 1 as [|w ws [Hne Hw] Hws (IH1 & IH2 & IH3)];
    [repeat split|].
  assert (Hkeep : forall rest,
    keep (fun c => py.isspace c && negb (Ascii.eqb c " "%char)) (w ++ rest)
    = keep (fun c => py.isspace c && negb (Ascii.eqb c " "%char)) rest).
  { intros rest. clear Hne. induction w as [|c w IHw]; [reflexivity|].
    cbn [keep] in Hw. destruct (py.isspace c) eqn:Hc; [discriminate|].
    rewrite append_cons. cbn [keep]. rewrite Hc. cbn [andb]. now apply IHw. }
  assert (Hrun : forall rest,
    py.startswith " " rest = false -> py.contains "  " (w ++ " " ++ rest)
    = py.contains "  " rest).
  { intros rest Hrest. clear Hne Hkeep.
    induction w as [|c w IHw].
    - rewrite append_nil.
      change (" " ++ rest) with (String " "%char rest).
      cbn [py.contains].
      now rewrite startswith_two_spaces, Hrest.
    - cbn [keep] in Hw. destruct (py.isspace c) eqn:Hc; [discriminate|].
      rewrite append_cons. cbn [py.contains]. rewrite (IHw Hw).
      cbn [py.startswith].
      destruct (Ascii.eqb_spec " "%char c) as [<-|_]; [discriminate Hc|].
      reflexivity. }
  assert (Hfirst : forall rest, py.startswith " " (w ++ rest) = false).
  { intros rest. destruct w as [|c w]; [congruence|].
    cbn [keep] in Hw. destruct (py.isspace c) eqn:Hc; [discriminate|].
    rewrite append_cons. cbn [py.startswith].
    destruct (Ascii.eqb_spec " "%char c) as [<-|_]; [discriminate Hc|].
    reflexivity. }
  destruct ws as [|w' ws].
  - change (py.join " " [w]) with w. rewrite <- (append_empty_r w).
    split; [now rewrite Hkeep|]. split; [|apply Hfirst].
    clear Hne Hkeep Hfirst Hrun. induction w as [|c w IHw]; [reflexivity|].
    cbn [keep] in Hw. destruct (py.isspace c) eqn:Hc; [discriminate|].
    rewrite append_cons. cbn [py.contains]. rewrite (IHw Hw).
    cbn [py.startswith].
    destruct (Ascii.eqb_spec " "%char c) as [<-|_]; [discriminate Hc|].
    reflexivity.
  - rewrite join_cons. split; [|split; [|apply Hfirst]].
    + rewrite Hkeep. exact IH1.
    + rewrite Hrun; [exact IH2 | exact IH3].
Qed.

Lemma squeeze_squeeze (s : string) :
  pdf_extractor.squeeze (pdf_extractor.squeeze s) = pdf_extractor.squeeze s.
Proof.
  unfold pdf_extractor.squeeze. rewrite split_join; [reflexivity|].
  apply split_aux_words. constructor.
Qed.

(** White space at the start and at the end of a text is no word. *)
Lemma split_aux_lstrip s : py.split_aux (py.lstrip s) [] = py.split_aux s [].
Proof.
  induction s as [|c s IH]; [reflexivity|].
  cbn [py.lstrip py.split_aux]. destruct (py.isspace c) eqn:Hc; [exact IH|].
  cbn [py.split_aux]. now rewrite Hc.
Qed.

Lemma split_aux_rstrip s : forall cur,
  py.split_aux (py.rstrip s) cur = py.split_aux s cur.
Proof.
  induction s as [|c s IH]; intros cur; [reflexivity|].
  cbn [py.rstrip]. destruct (py.rstrip s) as [|x t] eqn:Hrstrip.
  - cbn [py.split_aux]. destruct (py.isspace c) eqn:Hc.
    + destruct cur as [|y cur]; rewrite <- IH; reflexivity.
    + cbn [py.split_aux]. rewrite Hc, <- IH. reflexivity.
  - clear Hrstrip. remember (String x t) as r. cbn [py.split_aux].
    destruct (py.isspace c).
    + destruct cur as [|y cur]; now rewrite IH.
    + apply IH.
Qed.

Lemma split_strip s : py.split (py.strip s) = py.split s.
Proof.
  unfold py.split, py.strip. now rewrite split_aux_rstrip, split_aux_lstrip.
Qed.

(** X3.  [' '.join(s.split())] keeps the words of the text and puts one
    space between them: the result has the same words, no other white
    space than single spaces between two words, and is left as it is when
    squeezed again.  The tolerant parser strips the text first, which
    changes nothing. *)
Theorem squeeze_spec (s : string) :
  let result := pdf_extractor.squeeze s in
  py.split result = py.split s /\
  pdf_extractor.squeeze result = result /\
  keep (fun c => py.isspace c && negb (Ascii.eqb c " "%char)) result = "" /\
  py.contains "  " result = false /\
  py.startswith " " result = false /\
  pdf_extractor_v3.squeeze (py.strip s) = result.
Proof.
  unfold pdf_extractor.squeeze, pdf_extractor_v3.squeeze. cbv zeta.
  assert (Hwords : Forall is_word (py.split s))
    by (apply split_aux_words; constructor).
  destruct (join_white _ Hwords) as (H1 & H2 & H3).
  rewrite (split_join _ Hwords), split_strip. repeat split; assumption.
Qed.

End Squeeze.

(** ** The questions of the two parsers *)

Section ExtractedQuestions.

Import properties.

Lemma option_map_digit num letter :
  pdf_extractor.option_map num = Some letter ->
  exists k, 1 <= k <= 4 /\ py.int num = Some k /\
            letter = letter_of_index k /\
            NilZero.string_of_int (Z.to_int k) = num.
Proof.
  unfold pdf_extractor.option_map.
  destruct (String.eqb_spec num "1") as [->|_];
    [intros [= <-]; exists 1; repeat split; lia|].
  destruct (String.eqb_spec num "2") as [->|_];
    [intros [= <-]; exists 2; repeat split; lia|].
  destruct (String.eqb_spec num "3") as [->|_];
    [intros [= <-]; exists 3; repeat split; lia|].
  destruct (String.eqb_spec num "4") as [->|_];
    [intros [= <-]; exists 4; repeat split; lia|].
  discriminate.
Qed.

Lemma four_options_dom (a b c d : string) :
  dom (<["D" := d]> (<["C" := c]> (<["B" := b]> (<["A" := a]>
         (∅ : gmap string string)))))
  = option_letters.
Proof.
  rewrite !dom_insert_L, dom_empty_L. unfold option_letters. set_solver.
Qed.

Lemma four_options_lookup (a b c d : string) letter opt_text :
  <["D" := d]> (<["C" := c]> (<["B" := b]> (<["A" := a]>
         (∅ : gmap string string)))) !! letter = Some opt_text ->
  opt_text = a \/ opt_text = b \/ opt_text = c \/ opt_text = d.
Proof.
  rewrite !lookup_insert_Some, lookup_empty. intuition congruence.
Qed.

Lemma strict_parse_block_spec match_ q :
  pdf_extractor.parse_block match_ = Some q -> strict_question q.
Proof.
  unfold pdf_extractor.parse_block.
  destruct match_ as [|q_num [|q_text [|opt1 [|opt2 [|opt3 [|opt4
                     [|answer_idx [|]]]]]]]]; try discriminate.
  destruct (py.int q_num) as [number|]; [|discriminate].
  destruct (_ <? _)%nat eqn:Hlen; [discriminate|].
  destruct (py.int answer_idx) as [correct_index|] eqn:Hint; [|discriminate].
  destruct (pdf_extractor.num_to_letter answer_idx) as [letter|] eqn:Hletter;
    [|discriminate].
  intros [= <-]. unfold strict_question. cbn.
  apply option_map_digit in Hletter as (k & Hk & Hk_int & -> & _).
  assert (correct_index = k) by congruence. subst k.
  split; [reflexivity|]. split; [exact Hk|]. split; [reflexivity|].
  split; [apply four_options_dom|].
  split.
  { intros letter opt_text Hlookup.
    apply four_options_lookup in Hlookup as [->|[->|[->| ->]]];
      apply squeeze_squeeze. }
  split; [reflexivity|]. split; [apply squeeze_squeeze|].
  apply Nat.ltb_ge in Hlen. exact Hlen.
Qed.

Lemma strict_parse_blocks_spec matches :
  Forall strict_question (pdf_extractor.parse_blocks matches).
Proof.
  induction matches as [|match_ matches IH]; [constructor|].
  cbn [pdf_extractor.parse_blocks].
  destruct (pdf_extractor.parse_block match_) as [q|] eqn:Hq; [|exact IH].
  constructor; [exact (strict_parse_block_spec _ _ Hq) | exact IH].
Qed.

Lemma strict_questions_extracted (pages : list string) :
  Forall strict_question
    (pdf_extractor.extract_physics_questions_improved pages).
Proof.
  unfold pdf_extractor.extract_physics_questions_improved.
  destruct (pdf_extractor.find_section_bounds pages) as [start_page end_page].
  apply strict_parse_blocks_spec.
Qed.

(** X4.  Every question that the strict parser extracts has an answer: an
    index from 1 to 4 and the letter of that index; its options are the four
    keys A, B, C and D; its text, of twenty characters or more, and the
    texts of its options are words separated by single spaces. *)
Theorem strict_parser_questions (pages : list string) :
  Forall strict_question
    (pdf_extractor.extract_physics_questions_improved pages).
Proof. apply strict_questions_extracted. Qed.

Lemma lstrip_not_space s :
  py.lstrip s = "" \/
  exists c s', py.lstrip s = String c s' /\ py.isspace c = false.
Proof.
  induction s as [|c s IH]; [now left|].
  cbn [py.lstrip]. destruct (py.isspace c) eqn:Hc; [exact IH|].
  right. now exists c, s.
Qed.

Lemma rstrip_head c s :
  py.isspace c = false -> exists t, py.rstrip (String c s) = String c t.
Proof.
  intros Hc. cbn [py.rstrip]. rewrite Hc.
  destruct (py.rstrip s); now eexists.
Qed.

Lemma rstrip_rstrip s : py.rstrip (py.rstrip s) = py.rstrip s.
Proof.
  induction s as [|c s IH]; [reflexivity|].
  cbn [py.rstrip]. destruct (py.rstrip s) as [|x t] eqn:Ht.
  - destruct (py.isspace c) eqn:Hc; [reflexivity|].
    cbn [py.rstrip]. now rewrite Hc.
  - cbn [py.rstrip]. cbn [py.rstrip] in IH. now rewrite IH.
Qed.

(** Stripping a stripped text changes nothing. *)
Lemma strip_strip s : py.strip (py.strip s) = py.strip s.
Proof.
  unfold py.strip.
  destruct (lstrip_not_space s) as [->|(c & s' & -> & Hc)]; [reflexivity|].
  destruct (rstrip_head c s' Hc) as [t Ht]. rewrite Ht.
  cbn [py.lstrip]. rewrite Hc, <- Ht. apply rstrip_rstrip.
Qed.

Lemma fill_options_spec option_matches : forall options_dict,
  dom (pdf_extractor_v3.fill_options option_matches options_dict)
    ⊆ dom options_dict ∪ option_letters /\
  forall letter opt_text,
    pdf_extractor_v3.fill_options option_matches options_dict !! letter
      = Some opt_text ->
    options_dict !! letter = Some opt_text \/
    pdf_extractor_v3.squeeze opt_text = opt_text.
Proof.
  induction option_matches as [|m ms IH]; intros options_dict.
  - cbn. split; [set_solver | now left].
  - assert (Hskip :
      dom (pdf_extractor_v3.fill_options ms options_dict)
        ⊆ dom options_dict ∪ option_letters /\
      forall letter opt_text,
        pdf_extractor_v3.fill_options ms options_dict !! letter
          = Some opt_text ->
        options_dict !! letter = Some opt_text \/
        pdf_extractor_v3.squeeze opt_text = opt_text) by apply IH.
    cbn [pdf_extractor_v3.fill_options].
    destruct m as [|opt_num [|opt_text [|]]]; try exact Hskip.
    destruct (pdf_extractor_v3.num_to_letter opt_num) as [letter|] eqn:Hl;
      [|exact Hskip].
    destruct (IH (<[letter := pdf_extractor_v3.squeeze (py.strip opt_text)]>
                    options_dict)) as [Hdom Hval].
    assert (Hin : letter ∈ option_letters).
    { apply option_map_digit in Hl as (k & Hk & _ & -> & _).
      assert (k = 1 \/ k = 2 \/ k = 3 \/ k = 4) as [->|[->|[->| ->]]] by lia;
        unfold option_letters; cbn; set_solver. }
    split.
    + rewrite dom_insert_L in Hdom. intros x Hx. apply Hdom in Hx.
      rewrite !elem_of_union in *. rewrite elem_of_singleton in Hx.
      destruct Hx as [[->|Hx]|Hx]; auto.
    + intros letter' v Hv. apply Hval in Hv as [Hv|Hv]; [|now right].
      apply lookup_insert_Some in Hv as [[_ <-]|[_ Hv]]; [right|now left].
      apply squeeze_squeeze.
Qed.

Lemma option_letters_size : size option_letters = 4%nat.
Proof. reflexivity. Qed.

Lemma read_answer_spec block_text correct_index correct_answer :
  pdf_extractor_v3.read_answer block_text
    = Some (correct_index, correct_answer) ->
  match correct_index, correct_answer with
  | Some k, Some letter => 1 <= k <= 4 /\ letter = letter_of_index k
  | Some k, None => ~ (1 <= k <= 4)
  | None, None => True
  | None, Some _ => False
  end.
Proof.
  unfold pdf_extractor_v3.read_answer.
  destruct (re.search _ _) as [answer_match|]; [|now intros [= <- <-]].
  destruct (re.groups answer_match) as [|digit [|]]; try discriminate.
  destruct (py.int digit) as [k|]; [|discriminate].
  destruct ((1 <=? k) && (k <=? 4)) eqn:Hk.
  - apply andb_true_iff in Hk as [H1 H4].
    apply Z.leb_le in H1, H4.
    destruct (pdf_extractor_v3.num_to_letter _) as [letter|] eqn:Hl;
      [|discriminate].
    intros [= <- <-]. split; [lia|].
    assert (k = 1 \/ k = 2 \/ k = 3 \/ k = 4) as [->|[->|[->| ->]]] by lia;
      vm_compute in Hl; now injection Hl as <-.
  - intros [= <- <-]. intros [H1 H4].
    apply Z.leb_le in H1, H4. rewrite H1, H4 in Hk. discriminate.
Qed.

Lemma tolerant_parse_block_spec physics_text match_ next_start q :
  pdf_extractor_v3.parse_block physics_text match_ next_start = Some q ->
  tolerant_question q.
Proof.
  unfold pdf_extractor_v3.parse_block.
  destruct (re.groups match_) as [|g1 [|g2 [|]]]; try discriminate.
  destruct (py.int g1) as [number|]; [|discriminate].
  destruct (_ <? _)%nat eqn:Hlen; [discriminate|].
  match goal with
  | |- context [pdf_extractor_v3.fill_options ?ms ∅] =>
      destruct (fill_options_spec ms ∅) as [Hdom Hval];
      set (options_dict := pdf_extractor_v3.fill_options ms ∅) in *
  end.
  destruct (negb _) eqn:Hsize; [discriminate|].
  apply negb_false_iff, Nat.eqb_eq in Hsize.
  destruct (pdf_extractor_v3.read_answer _)
    as [[correct_index correct_answer]|] eqn:Hanswer; [|discriminate].
  intros [= <-]. unfold tolerant_question.
  cbn [pdf_extractor_v3.options pdf_extractor_v3.correct_index
       pdf_extractor_v3.correct_answer pdf_extractor_v3.has_answer
       pdf_extractor_v3.question_text pdf_extractor_v3.full_text].
  apply read_answer_spec in Hanswer.
  split.
  { apply set_subseteq_size_eq.
    - rewrite dom_empty_L in Hdom. set_solver.
    - rewrite size_dom, Hsize, option_letters_size. lia. }
  split.
  { intros letter opt_text Hlookup.
    apply Hval in Hlookup as [Hlookup|Hlookup]; [|exact Hlookup].
    now rewrite lookup_empty in Hlookup. }
  split.
  { destruct correct_index as [k|], correct_answer as [letter|];
      intuition. }
  split; [apply squeeze_squeeze|].
  split; [apply strip_strip|].
  apply Nat.ltb_ge in Hlen. exact Hlen.
Qed.

Lemma tolerant_parse_blocks_spec physics_text matches :
  Forall tolerant_question
    (pdf_extractor_v3.parse_blocks physics_text matches).
Proof.
  induction matches as [|match_ matches IH]; [constructor|].
  cbn [pdf_extractor_v3.parse_blocks].
  destruct (pdf_extractor_v3.parse_block _ _ _) as [q|] eqn:Hq; [|exact IH].
  constructor; [exact (tolerant_parse_block_spec _ _ _ _ Hq) | exact IH].
Qed.

(** X5.  Every question that the tolerant parser extracts has the four
    options A, B, C and D, their texts being words separated by single
    spaces. It has an answer letter exactly when its block has an answer
    marker from 1 to 4, the letter being that of the marker; with a marker
    out of that range it keeps the index and has no letter, and without a
    marker it has neither; [has_answer] says whether there is a letter. *)
Theorem tolerant_parser_questions (pages : list string) :
  Forall tolerant_question
    (pdf_extractor_v3.extract_physics_questions_with_answers pages).
Proof.
  unfold pdf_extractor_v3.extract_physics_questions_with_answers.
  destruct (pdf_extractor_v3.find_section_bounds pages)
    as [start_page end_page].
  apply tolerant_parse_blocks_spec.
Qed.

End ExtractedQuestions.

(** ** The options of a block and the simple extraction *)

Section SimpleExtraction.

Import pdf_extractor properties.

Lemma option_map_letter num letter :
  option_map num = Some letter -> In letter ABCD.
Proof.
  unfold option_map, ABCD.
  repeat (destruct (String.eqb _ _); [intros [= <-]; cbn; tauto|]).
  discriminate.
Qed.

Lemma collect_options_entries matches :
  Forall option_entry (collect_options matches).
Proof.
  induction matches as [|m matches IH]; [constructor|].
  cbn [collect_options].
  destruct m as [|num [|opt_text [|]]]; try exact IH.
  destruct (option_map num) as [letter|] eqn:Hletter; [|exact IH].
  constructor; [|exact IH].
  split; [exact (option_map_letter _ _ Hletter) | apply strip_strip].
Qed.

Lemma pad_options_entries fuel : forall options padded,
  Forall option_entry options ->
  pad_options fuel options = Some padded ->
  Forall option_entry padded.
Proof.
  induction fuel as [|fuel IH]; intros options padded Hall;
    cbn [pad_options]; destruct (_ <? _)%nat; try discriminate;
    try (intros [= <-]; exact Hall).
  destruct (option_map _) as [letter|] eqn:Hletter; [|discriminate].
  apply IH, Forall_app. split; [exact Hall|].
  constructor; [|constructor].
  split; [exact (option_map_letter _ _ Hletter) | reflexivity].
Qed.

(** No option starts where there is no opening parenthesis. *)
Lemma option_pattern_needs_paren pos s :
  py.startswith "(" s = false ->
  re.match_at config.OPTION_PATTERN pos s = None.
Proof.
  destruct s as [|c s]; [reflexivity|].
  cbn [py.startswith]. rewrite andb_true_r. intros Hc.
  unfold re.match_at, config.OPTION_PATTERN.
  cbn [re.seq re.lit re.rmatch re.chr]. now rewrite Hc.
Qed.

Lemma finditer_no_paren s : forall pos,
  keep (Ascii.eqb "("%char) s = "" ->
  re.finditer_from config.OPTION_PATTERN pos 0 s = [].
Proof.
  induction s as [|c s IH]; intros pos Hs.
  - cbn [re.finditer_from]. now rewrite option_pattern_needs_paren.
  - cbn [keep] in Hs. destruct (Ascii.eqb "("%char c) eqn:Hc; [discriminate|].
    cbn [re.finditer_from].
    rewrite option_pattern_needs_paren
      by (cbn [py.startswith]; now rewrite Hc).
    now apply IH.
Qed.

Lemma pad_options_total options :
  exists padded, pad_options 4 options = Some padded.
Proof.
  destruct options as [|a [|b [|c [|d rest]]]]; eexists; reflexivity.
Qed.

Lemma parse_options_question text :
  exists options,
    parse_options text = Some options /\
    List.length options = 4%nat /\ Forall option_entry options.
Proof.
  unfold parse_options.
  destruct (pad_options_total
              (collect_options (re.findall config.OPTION_PATTERN text)))
    as [padded Hpad].
  rewrite Hpad. eexists. split; [reflexivity|]. split.
  - revert Hpad.
    destruct (collect_options _) as [|a [|b [|c [|d rest]]]];
      intros [= <-]; reflexivity.
  - apply Forall_take. eapply (pad_options_entries 4); [|exact Hpad].
    apply collect_options_entries.
Qed.

(** X6.  [parse_options] returns entries whose ids are among A, B, C and D
    and whose texts are stripped; for a text without an opening parenthesis
    they are the four entries A, B, C and D with empty texts. *)
Theorem parse_options_entries (text : string) :
  exists options,
    parse_options text = Some options /\
    Forall option_entry options /\
    (keep (Ascii.eqb "("%char) text = "" -> options = empty_options).
Proof.
  destruct (parse_options_question text) as (options & Hparse & _ & Hall).
  exists options. split; [exact Hparse|]. split; [exact Hall|].
  intros Htext. unfold parse_options, re.findall, re.finditer in Hparse.
  rewrite finditer_no_paren in Hparse by exact Htext.
  now injection Hparse as <-.
Qed.

Lemma simple_block_spec match_ q :
  simple_block match_ = Some q -> simple_question q.
Proof.
  unfold simple_block.
  destruct (re.groups match_) as [|g1 [|g2 [|]]]; try discriminate.
  destruct (py.int g1) as [number|]; [|discriminate].
  destruct (parse_options_question (py.strip g2))
    as (options & -> & Hlen & Hall).
  intros [= <-].
  split; [exact Hlen|]. split; [exact Hall|].
  split; [reflexivity | apply strip_strip].
Qed.

Lemma simple_blocks_spec matches :
  Forall simple_question (simple_blocks matches).
Proof.
  induction matches as [|match_ matches IH]; [constructor|].
  cbn [simple_blocks].
  destruct (simple_block match_) as [q|] eqn:Hq; [|exact IH].
  constructor; [exact (simple_block_spec _ _ Hq) | exact IH].
Qed.

Lemma simple_blocks_length matches :
  (List.length (simple_blocks matches) <= List.length matches)%nat.
Proof.
  induction matches as [|match_ matches IH]; [reflexivity|].
  cbn [simple_blocks]. destruct (simple_block match_); cbn [List.length]; lia.
Qed.

Lemma simple_blocks_app before after :
  simple_blocks (before ++ after)
  = (simple_blocks before ++ simple_blocks after)%list.
Proof.
  induction before as [|m before IH]; [reflexivity|].
  cbn [List.app app simple_blocks].
  destruct (simple_block m); rewrite IH; reflexivity.
Qed.

Lemma limit_positive {A : Type} (n : Z) (matches : list A) :
  0 < n -> limit (Some n) matches = List.firstn (Z.to_nat n) matches.
Proof.
  intros Hn. unfold limit, py.slice_list, py.clamp.
  destruct (Z.eqb_spec n 0); [lia|].
  destruct (Z.ltb_spec n 0); [lia|].
  change (0 <? 0) with false. cbv iota.
  replace (Z.to_nat (Z.min 0 (Z.of_nat (List.length matches)))) with 0%nat
    by lia.
  change (List.skipn 0 matches) with matches. rewrite Nat.sub_0_r.
  destruct (Z.min_spec n (Z.of_nat (List.length matches)))
    as [[_ ->]|[Hmin ->]];
    [reflexivity|].
  rewrite Nat2Z.id, List.firstn_all.
  symmetry. apply List.firstn_all2. lia.
Qed.

(** X7.  Every dict of [extract_questions_simple] has four options, and its
    text is stripped. A positive [max_questions] bounds the number of dicts,
    which are then the first ones of the extraction without a bound;
    [max_questions=0] is no bound at all. *)
Theorem extract_questions_simple_spec (pages : list string) :
  (forall max_questions,
     Forall simple_question (extract_questions_simple pages max_questions)) /\
  (forall n, 0 < n ->
     Z.of_nat (List.length (extract_questions_simple pages (Some n))) <= n /\
     exists rest,
       extract_questions_simple pages None
       = (extract_questions_simple pages (Some n) ++ rest)%list) /\
  extract_questions_simple pages (Some 0)
  = extract_questions_simple pages None.
Proof.
  unfold extract_questions_simple. cbv zeta.
  set (matches := re.finditer config.QUESTION_PATTERN _).
  split; [intros max_questions; apply simple_blocks_spec|].
  split; [|reflexivity].
  intros n Hn. rewrite (limit_positive n matches Hn). split.
  - pose proof (simple_blocks_length
                  (List.firstn (Z.to_nat n) matches)) as Hlen.
    pose proof (List.firstn_le_length (Z.to_nat n) matches). lia.
  - exists (simple_blocks (List.skipn (Z.to_nat n) matches)).
    cbn [limit]. rewrite <- simple_blocks_app.
    now rewrite List.firstn_skipn.
Qed.

End SimpleExtraction.

(** ** The retry loops of the two clients *)

Section RetryLoop.

Import structured generation_service cost_tracker properties.

Lemma outcomes_made_cons outcome service m :
  outcomes_made (outcome :: service) (S m)
  = outcome :: outcomes_made service m.
Proof.
  unfold outcomes_made. cbn [List.seq List.map]. f_equal.
  rewrite <- List.seq_shift, List.map_map. reflexivity.
Qed.

Lemma outcomes_made_nil m :
  outcomes_made [] (S m) = AttemptError :: outcomes_made [] m.
Proof.
  unfold outcomes_made. cbn [List.seq List.map]. f_equal.
  rewrite <- List.seq_shift, List.map_map.
  apply List.map_ext. intros k. unfold outcome_at. now destruct k.
Qed.

Lemma record_calls_app t calls calls' :
  record_calls t (calls ++ calls')%list
  = record_calls (record_calls t calls) calls'.
Proof. unfold record_calls. apply fold_left_app. Qed.

(** An attempt that ends without a record adds one failed call, an attempt
    that ends with a record adds none. *)
Lemma recorded_failed finish outcome t :
  failed_calls (record_calls t (recorded finish outcome))
  = failed_calls t
    + match record_of finish outcome with Some _ => 0 | None => 1 end.
Proof.
  destruct outcome as [|i o|i o result]; cbn; try reflexivity.
  destruct (finish result); cbn; lia.
Qed.

(** The retry loop of a client, whose attempts end as [finish] says. *)
Lemma retry_loop_run
    (finish : StructuredQuestion -> option StructuredQuestion)
    (loop : nat -> CostTracker -> list Attempt ->
            option StructuredQuestion * CostTracker * list Attempt) :
  (forall tracker service, loop O tracker service = (None, tracker, service)) ->
  (forall n tracker service,
     loop (S n) tracker service =
     let '(outcome, service') := request service in
     match record_of finish outcome with
     | Some r =>
         (Some r, record_calls tracker (recorded finish outcome), service')
     | None =>
         loop n (record_calls tracker (recorded finish outcome)) service'
     end) ->
  forall n tracker service,
    exists m, client_run finish n tracker service m (loop n tracker service).
Proof.
  intros Hzero Hsucc. induction n as [|n IH]; intros tracker service.
  - exists 0%nat. rewrite Hzero. cbn. repeat split; try constructor. lia.
  - rewrite Hsucc.
    assert (Hreq : exists outcome service',
      request service = (outcome, service') /\
      (forall m, outcomes_made service (S m)
                 = outcome :: outcomes_made service' m) /\
      (forall m, List.skipn (S m) service = List.skipn m service') /\
      outcome_at service 0 = outcome /\
      (forall k, outcome_at service (S k) = outcome_at service' k)).
    { destruct service as [|outcome service'].
      - exists AttemptError, []. split; [reflexivity|].
        split; [apply outcomes_made_nil|].
        split; [intros m; now destruct m|].
        split; [reflexivity | intros k; now destruct k].
      - exists outcome, service'. split; [reflexivity|].
        split; [intros m; apply outcomes_made_cons|].
        repeat split. }
    destruct Hreq
      as (outcome & service' & -> & Hmade & Hskip & Hfirst & Hnth).
    pose proof (recorded_failed finish outcome tracker) as Hfailed.
    destruct (record_of finish outcome) as [r|] eqn:Hrecord.
    + exists 1%nat. unfold client_run.
      split; [lia|]. split; [now rewrite Hskip|].
      rewrite Hmade. cbn [List.flat_map outcomes_made List.seq List.map].
      rewrite app_nil_r. split; [reflexivity|].
      exists 0%nat. split; [reflexivity|]. split; [constructor|].
      split; [now rewrite Hfirst | lia].
    + destruct (IH (record_calls tracker (recorded finish outcome)) service')
        as [m Hrun].
      exists (S m). unfold client_run in *.
      destruct (loop n _ service') as [[result tracker'] service''].
      destruct Hrun as (Hm & -> & -> & Hresult).
      split; [lia|]. split; [now rewrite Hskip|].
      split; [rewrite Hmade; cbn [List.flat_map];
              now rewrite record_calls_app|].
      destruct result as [r|].
      * destruct Hresult as (k & -> & Hnone & Hlast & Hcount).
        exists (S k). split; [reflexivity|].
        split; [rewrite Hmade; now constructor|].
        split; [now rewrite Hnth|].
        rewrite Hcount, Hfailed. lia.
      * destruct Hresult as (-> & Hnone & Hcount).
        split; [reflexivity|].
        split; [rewrite Hmade; now constructor|].
        rewrite Hcount, Hfailed. lia.
Qed.

(** X8.  [call_perplexity_api] makes at most [max_retries] requests and
    stops at the first one whose answer parses, which it returns with the
    keys id, questionNumber and questionText filled in when they are
    missing. It returns nothing exactly when it has made all the requests
    and none gave an answer that parses. The tracker receives, for each
    request, a successful call with the usage of the answer when there is
    one, and a failed call without tokens when the attempt gives no record:
    a request whose answer does not parse counts for two calls. *)
Theorem call_perplexity_api_run
    (question : pdf_extractor.Question) (max_retries : Z)
    (tracker : CostTracker) (service : list Attempt) :
  exists m,
    client_run (perplexity_record question) (Z.to_nat max_retries)
      tracker service m
      (process_questions_v2.call_perplexity_api question max_retries
         tracker service).
Proof.
  unfold process_questions_v2.call_perplexity_api.
  apply (retry_loop_run (perplexity_record question)
           (fun n => process_questions_v2.attempts n question)).
  - reflexivity.
  - intros n t s. cbn [process_questions_v2.attempts].
    destruct (request s) as [[|i o|i o result] s']; reflexivity.
Qed.

(** X9.  [call_claude_api] makes at most [max_retries] requests and stops at
    the first one whose answer parses and passes the check of the answer,
    which it returns with [correctOption] set and the missing keys filled
    in. It returns nothing exactly when it has made all the requests and
    none gave such an answer. The tracker receives, for each request, a
    successful call with the usage of the answer when there is one, and a
    failed call without tokens when the attempt gives no record. *)
Theorem call_claude_api_run
    (question : pdf_extractor.Question) (max_retries : Z)
    (tracker : CostTracker) (service : list Attempt) :
  exists m,
    client_run (claude_record question) (Z.to_nat max_retries)
      tracker service m
      (process_claude.call_claude_api question max_retries tracker service).
Proof.
  unfold process_claude.call_claude_api.
  apply (retry_loop_run (claude_record question)
           (fun n => process_claude.attempts n question)).
  - reflexivity.
  - intros n t s. cbn [process_claude.attempts].
    destruct (request s) as [[|i o|i o result] s']; try reflexivity.
    cbn [record_of recorded]. unfold claude_record.
    destruct (process_claude.verify_answer question result); reflexivity.
Qed.

End RetryLoop.

(** ** The run of the orchestrator *)

Section OrchestratorRun.

Import structured generation_service process_questions_v2 properties.

(** What a record of a batch leaves as it is. *)
Lemma process_question_frame max_retries dry_run q run batch_results :
  exists run' batch_results',
    process_question max_retries dry_run q run batch_results
      = Some (run', batch_results') /\
    last_completed_batch (progress run')
      = last_completed_batch (progress run) /\
    next_question_index (progress run')
      = next_question_index (progress run) /\
    batches_dir (world run') = batches_dir (world run) /\
    progress_file (world run') = progress_file (world run) /\
    (exists added,
       failed_log (world run') = (failed_log (world run) ++ added)%list) /\
    (dry_run = true ->
       service (world run') = service (world run) /\
       tracker run' = tracker run /\
       all_results run' = all_results run /\
       processed_question_ids (progress run')
         = processed_question_ids (progress run) /\
       batch_results' = batch_results /\
       failed_log (world run')
         = (failed_log (world run)
            ++ rejected (processed_question_ids (progress run)) [q])%list).
Proof.
  unfold process_question, rejected. cbn [List.filter List.map].
  destruct (existsb _ _) eqn:Hseen; cbn [negb andb].
  { exists run, batch_results. split; [reflexivity|].
    repeat split; try (exists []); now rewrite ?app_nil_r. }
  destruct (question_validator.is_valid_physics_question _) eqn:Hvalid;
    cbn [negb].
  2:{ eexists _, _. split; [reflexivity|]. cbn.
      repeat split. now eexists. }
  destruct dry_run.
  { exists run, batch_results. split; [reflexivity|].
    repeat split; try (exists []); now rewrite ?app_nil_r. }
  destruct (call_perplexity_api q max_retries (tracker run)
              (service (world run)))
    as [[[structured|] tracker'] service'].
  2:{ eexists _, _. split; [reflexivity|]. cbn.
      repeat split; try discriminate. now eexists. }
  destruct (question_validator.validate_question_completeness structured)
    as [[|] errors] eqn:Hcheck; cbn [negb].
  { eexists _, _. split; [reflexivity|]. cbn.
    repeat split; try discriminate. exists []. now rewrite app_nil_r. }
  destruct errors as [|error errors].
  { now destruct (validate_invalid_has_reason _ _ Hcheck). }
  eexists _, _. split; [reflexivity|]. cbn.
  repeat split; try discriminate. now eexists.
Qed.

Lemma rejected_app processed questions questions' :
  rejected processed (questions ++ questions')
  = (rejected processed questions ++ rejected processed questions')%list.
Proof. unfold rejected. now rewrite List.filter_app, List.map_app. Qed.

Lemma process_records_frame max_retries dry_run batch :
  forall run batch_results,
  exists run' batch_results',
    process_records max_retries dry_run batch run batch_results
      = Some (run', batch_results') /\
    last_completed_batch (progress run')
      = last_completed_batch (progress run) /\
    next_question_index (progress run')
      = next_question_index (progress run) /\
    batches_dir (world run') = batches_dir (world run) /\
    progress_file (world run') = progress_file (world run) /\
    (exists added,
       failed_log (world run') = (failed_log (world run) ++ added)%list) /\
    (dry_run = true ->
       service (world run') = service (world run) /\
       tracker run' = tracker run /\
       all_results run' = all_results run /\
       processed_question_ids (progress run')
         = processed_question_ids (progress run) /\
       batch_results' = batch_results /\
       failed_log (world run')
         = (failed_log (world run)
            ++ rejected (processed_question_ids (progress run)) batch)%list).
Proof.
  induction batch as [|q batch IH]; intros run batch_results.
  - exists run, batch_results. split; [reflexivity|].
    repeat split; try (exists []); now rewrite ?app_nil_r.
  - cbn [process_records].
    destruct (process_question_frame max_retries dry_run q run batch_results)
      as (run1 & results1 & -> & Hb1 & Hn1 & Hd1 & Hf1 & [added1 Hl1] & Hdry1).
    destruct (IH run1 results1)
      as (run' & results' & -> & Hb & Hn & Hd & Hf & [added Hl] & Hdry).
    exists run', results'. split; [reflexivity|].
    split; [congruence|]. split; [congruence|].
    split; [congruence|]. split; [congruence|].
    split; [exists (added1 ++ added)%list;
            now rewrite Hl, Hl1, <- app_assoc|].
    intros ->.
    destruct (Hdry1 eq_refl) as (Hs1 & Ht1 & Ha1 & Hp1 & Hr1 & Hlog1).
    destruct (Hdry eq_refl) as (Hs2 & Ht2 & Ha2 & Hp2 & Hr2 & Hlog2).
    repeat split; try congruence.
    rewrite Hlog2, Hlog1, Hp1, <- app_assoc.
    now rewrite (rejected_app _ [q] batch).
Qed.

(** A batch: the progress that it saves and what it leaves as it is. *)
Lemma process_batch_frame questions max_retries batch_size dry_run
    batch_num i run :
  exists run',
    process_batch questions max_retries batch_size dry_run batch_num i run
      = Some run' /\
    last_completed_batch (progress run')
      = last_completed_batch (progress run) + 1 + batch_num /\
    next_question_index (progress run')
      = Z.min (i + batch_size) (Z.of_nat (List.length questions)) /\
    progress_file (world run') = Some (progress run') /\
    (exists added,
       failed_log (world run') = (failed_log (world run) ++ added)%list) /\
    (dry_run = true ->
       service (world run') = service (world run) /\
       tracker run' = tracker run /\
       all_results run' = all_results run /\
       processed_question_ids (progress run')
         = processed_question_ids (progress run) /\
       batches_dir (world run') = batches_dir (world run) /\
       failed_log (world run')
         = (failed_log (world run)
            ++ rejected (processed_question_ids (progress run))
                 (py.slice_list i (i + batch_size) questions))%list).
Proof.
  unfold process_batch.
  destruct (process_records_frame max_retries dry_run
              (py.slice_list i (i + batch_size) questions) run [])
    as (run1 & results & -> & Hb & Hn & Hd & Hf & [added Hl] & Hdry).
  eexists. split; [reflexivity|].
  cbn [progress world last_completed_batch next_question_index
       progress_file save_progress failed_log].
  split; [reflexivity|]. split; [reflexivity|]. split; [reflexivity|].
  split.
  { exists added. now destruct (negb _ && negb dry_run). }
  intros ->. destruct (Hdry eq_refl) as (Hs & Ht & Ha & Hp & Hr & Hlog).
  rewrite andb_false_r.
  cbn [service tracker all_results processed_question_ids batches_dir].
  repeat split; assumption.
Qed.

Lemma process_batches_frame questions max_retries batch_size dry_run starts :
  forall batch_num run,
  exists run',
    process_batches questions max_retries batch_size dry_run batch_num
      starts run = Some run' /\
    2 * (last_completed_batch (progress run')
         - last_completed_batch (progress run))
    = Z.of_nat (List.length starts)
      * (Z.of_nat (List.length starts) + 1 + 2 * batch_num) /\
    (starts = [] -> run' = run) /\
    (starts <> [] ->
       next_question_index (progress run')
         = Z.min (List.last starts 0 + batch_size)
             (Z.of_nat (List.length questions)) /\
       progress_file (world run') = Some (progress run')) /\
    (exists added,
       failed_log (world run') = (failed_log (world run) ++ added)%list) /\
    (dry_run = true ->
       service (world run') = service (world run) /\
       tracker run' = tracker run /\
       all_results run' = all_results run /\
       processed_question_ids (progress run')
         = processed_question_ids (progress run) /\
       batches_dir (world run') = batches_dir (world run) /\
       failed_log (world run')
         = (failed_log (world run)
            ++ rejected (processed_question_ids (progress run))
                 (List.concat
                    (List.map
                       (fun i => py.slice_list i (i + batch_size) questions)
                       starts)))%list).
Proof.
  induction starts as [|i starts IH]; intros batch_num run.
  - exists run. split; [reflexivity|]. split; [cbn [List.length]; lia|].
    split; [reflexivity|]. split; [congruence|].
    split; [exists []; now rewrite app_nil_r|].
    intros _. cbn. now rewrite app_nil_r.
  - cbn [process_batches].
    destruct (process_batch_frame questions max_retries batch_size dry_run
                batch_num i run)
      as (run1 & -> & Hb1 & Hn1 & Hf1 & [added1 Hl1] & Hdry1).
    destruct (IH (batch_num + 1) run1)
      as (run' & -> & Hb & Hnil & Hlast & [added Hl] & Hdry).
    exists run'. split; [reflexivity|].
    split; [cbn [List.length]; lia|].
    split; [discriminate|].
    split.
    { intros _. destruct starts as [|i' starts'].
      - rewrite (Hnil eq_refl). split; [exact Hn1 | exact Hf1].
      - destruct Hlast as [Hn Hf]; [discriminate|]. split; [|exact Hf].
        rewrite Hn. reflexivity. }
    split; [exists (added1 ++ added)%list;
            now rewrite Hl, Hl1, <- app_assoc|].
    intros ->.
    destruct (Hdry1 eq_refl) as (Hs1 & Ht1 & Ha1 & Hp1 & Hd1 & Hlog1).
    destruct (Hdry eq_refl) as (Hs2 & Ht2 & Ha2 & Hp2 & Hd2 & Hlog2).
    repeat split; try congruence.
    cbn [List.map List.concat].
    rewrite Hlog2, Hlog1, Hp1, <- app_assoc. now rewrite rejected_app.
Qed.

Lemma range_none start stop step :
  py.range start stop step = None <-> step = 0.
Proof.
  unfold py.range. destruct (Z.eqb_spec step 0); split; congruence.
Qed.

(** [range(start, stop, step)] for a positive step, one value at a
    time. *)
Lemma range_step start stop step :
  0 < step ->
  exists rest,
    py.range (start + step) stop step = Some rest /\
    py.range start stop step
    = Some (if start <? stop then start :: rest else []).
Proof.
  intros Hstep. unfold py.range.
  destruct (Z.eqb_spec step 0); [lia|].
  destruct (Z.ltb_spec 0 step); [|lia].
  eexists. split; [reflexivity|]. f_equal.
  replace (stop - (start + step) + step - 1) with (stop - start - 1) by lia.
  replace (stop - start + step - 1) with (stop - start - 1 + 1 * step) by lia.
  rewrite Z.div_add by lia.
  destruct (Z.ltb_spec start stop) as [Hlt|Hge].
  - assert (0 <= (stop - start - 1) / step) by (apply Z.div_pos; lia).
    replace (Z.to_nat ((stop - start - 1) / step + 1))
      with (S (Z.to_nat ((stop - start - 1) / step))) by lia.
    cbn [List.seq List.map]. f_equal; [lia|].
    rewrite <- List.seq_shift, List.map_map.
    apply List.map_ext. intros k. lia.
  - assert ((stop - start - 1) / step < 0)
      by (apply Z.div_lt_upper_bound; lia).
    replace (Z.to_nat ((stop - start - 1) / step + 1)) with 0%nat by lia.
    reflexivity.
Qed.

(** The batches of a run are the questions from the start index on, and
    the last batch reaches the end of the list. *)
Lemma range_batches {A : Type} (l : list A) step (Hstep : 0 < step) n :
  forall start starts,
  (Z.to_nat (Z.of_nat (List.length l) - start) <= n)%nat ->
  py.range start (Z.of_nat (List.length l)) step = Some starts ->
  (0 <= start ->
   List.concat (List.map (fun i => py.slice_list i (i + step) l) starts)
   = List.skipn (Z.to_nat start) l) /\
  (starts = [] <-> Z.of_nat (List.length l) <= start) /\
  (starts <> [] ->
   Z.of_nat (List.length l) <= List.last starts 0 + step).
Proof.
  induction n as [|n IH]; intros start starts Hn Hrange;
    destruct (range_step start (Z.of_nat (List.length l)) step Hstep)
      as (rest & Hrest & Hhere);
    rewrite Hhere in Hrange; injection Hrange as <-;
    destruct (Z.ltb_spec start (Z.of_nat (List.length l))) as [Hlt|Hge];
    try lia.
  - split; [|split; [split; [lia | reflexivity] | congruence]].
    intros Hstart. cbn. symmetry. apply List.skipn_all2. lia.
  - destruct (IH (start + step) rest ltac:(lia) Hrest)
      as (Hconcat & Hnil & Hlast).
    split; [|split; [split; [discriminate | lia]|]].
    + intros Hstart. cbn [List.map List.concat]. rewrite Hconcat by lia.
      unfold py.slice_list, py.clamp.
      destruct (Z.ltb_spec start 0); [lia|].
      destruct (Z.ltb_spec (start + step) 0); [lia|].
      replace (Z.to_nat (Z.min start (Z.of_nat (List.length l))))
        with (Z.to_nat start) by lia.
      destruct (Z.le_gt_cases (start + step) (Z.of_nat (List.length l))).
      * replace (Z.to_nat (Z.min (start + step) (Z.of_nat (List.length l))))
          with (Z.to_nat (start + step)) by lia.
        replace (List.skipn (Z.to_nat (start + step)) l)
          with (List.skipn (Z.to_nat (start + step) - Z.to_nat start)
                  (List.skipn (Z.to_nat start) l)).
        -- apply List.firstn_skipn.
        -- rewrite List.skipn_skipn. f_equal. lia.
      * rewrite (List.skipn_all2 l (n := Z.to_nat (start + step))) by lia.
        rewrite app_nil_r. apply List.firstn_all2.
        rewrite List.length_skipn. lia.
    + intros _. destruct rest as [|i rest].
      * cbn [List.last]. pose proof (proj1 Hnil eq_refl). lia.
      * change (List.last (start :: i :: rest) 0)
          with (List.last (i :: rest) 0).
        apply Hlast. discriminate.
  - split; [|split; [split; [lia | reflexivity] | congruence]].
    intros Hstart. cbn. symmetry. apply List.skipn_all2. lia.
Qed.

(** X11.  In a run of [k] batches, [last_completed_batch] grows by [k * (k +
    1) / 2]: the batch of index [j] in the run adds [1 + j] to it. *)
Theorem batch_numbers_of_a_run
    (questions : list pdf_extractor.Question)
    (max_retries batch_size : Z) (resume dry_run : bool) (w : World)
    (run : Run) :
  run_batches questions max_retries batch_size resume dry_run w = Some run ->
  exists starts,
    batch_starts questions batch_size resume w = Some starts /\
    2 * (last_completed_batch (progress run)
         - last_completed_batch (initial_progress resume w))
    = Z.of_nat (List.length starts) * (Z.of_nat (List.length starts) + 1).
Proof.
  unfold run_batches, batch_starts, initial_progress.
  destruct (py.range _ _ batch_size) as [starts|]; [|discriminate].
  match goal with
  | |- context [process_batches _ _ _ _ 0 starts ?r] =>
      destruct (process_batches_frame questions max_retries batch_size
                  dry_run starts 0 r) as (run' & -> & Hnum & _)
  end.
  intros [= <-]. exists starts. split; [reflexivity|].
  cbn [progress] in Hnum. lia.
Qed.

Lemma batch_numbers_of_a_run_witness :
  exists run starts,
    run_batches C3_questions 2 1 true false (empty_world C3_service)
      = Some run /\
    batch_starts C3_questions 1 true (empty_world C3_service) = Some starts /\
    List.length starts = 3%nat /\
    last_completed_batch (progress run) = 5.
Proof.
  assert (Hsome : exists run,
            run_batches C3_questions 2 1 true false (empty_world C3_service)
            = Some run) by (eexists; vm_compute; reflexivity).
  destruct Hsome as [run Hrun]. exists run.
  destruct (batch_numbers_of_a_run C3_questions 2 1 true false
              (empty_world C3_service) run Hrun) as (starts & Hstarts & Hnum).
  exists starts. split; [exact Hrun|]. split; [exact Hstarts|].
  vm_compute in Hstarts. injection Hstarts as <-.
  split; [reflexivity|]. cbn in Hnum. lia.
Defined.

(** X12.  A dry run only checks the content of the questions: it runs to its
    end without a request to the service, returns no record, writes no batch
    and adds no question to the processed ones; the failure log receives one
    line for each question from the start index on that is not yet processed
    and that the content check rejects. *)
Theorem dry_run_checks_content_only
    (questions : list pdf_extractor.Question)
    (max_retries batch_size : Z) (resume : bool) (w : World) :
  0 < batch_size ->
  0 <= next_question_index (initial_progress resume w) ->
  exists run,
    run_batches questions max_retries batch_size resume true w = Some run /\
    all_results run = [] /\
    tracker run = cost_tracker.new /\
    service (world run) = service w /\
    batches_dir (world run) = batches_dir w /\
    processed_question_ids (progress run)
      = processed_question_ids (initial_progress resume w) /\
    failed_log (world run)
      = (failed_log w
         ++ rejected (processed_question_ids (initial_progress resume w))
              (List.skipn
                 (Z.to_nat (next_question_index (initial_progress resume w)))
                 questions))%list.
Proof.
  intros Hsize Hstart. unfold run_batches. fold (initial_progress resume w).
  destruct (py.range _ _ batch_size) as [starts|] eqn:Hrange;
    [|apply range_none in Hrange; lia].
  match goal with
  | |- context [process_batches _ _ _ _ 0 starts ?r] =>
      destruct (process_batches_frame questions max_retries batch_size
                  true starts 0 r) as (run & -> & _ & _ & _ & _ & Hdry)
  end.
  destruct (Hdry eq_refl) as (Hs & Ht & Ha & Hp & Hd & Hlog).
  cbn [world progress tracker all_results] in *.
  exists run. split; [reflexivity|].
  repeat split; try assumption.
  rewrite Hlog. do 2 f_equal.
  eapply (range_batches questions batch_size Hsize);
    [|exact Hrange|exact Hstart].
  reflexivity.
Qed.

Lemma dry_run_checks_content_only_witness :
  exists run,
    run_batches [physics_question 1; instructions 2; physics_question 3]
      2 2 true true (empty_world [answered]) = Some run /\
    all_results run = [] /\
    service (world run) = [answered] /\
    failed_log (world run) = [mkFailureRecord 2 InvalidPhysicsContent].
Proof.
  destruct (dry_run_checks_content_only
              [physics_question 1; instructions 2; physics_question 3]
              2 2 true (empty_world [answered]))
    as (run & Hrun & Hall & _ & Hservice & _ & _ & Hlog);
    [lia | vm_compute; discriminate |].
  exists run. split; [exact Hrun|]. split; [exact Hall|].
  split; [exact Hservice|]. rewrite Hlog. vm_compute. reflexivity.
Defined.

(** X13.  After a run that went to its end, a second run that resumes finds
    nothing to do: it processes no batch, sends no request and leaves the
    progress, the batches and the failure log as they are. The questions
    that failed in the first run are not tried again. *)
Theorem resume_after_completion
    (questions : list pdf_extractor.Question)
    (max_retries batch_size : Z) (dry_run : bool) (w : World) (run : Run) :
  0 < batch_size ->
  run_batches questions max_retries batch_size true dry_run w = Some run ->
  run_batches questions max_retries batch_size true dry_run (world run)
  = Some {| progress := progress run;
            all_results := [];
            tracker := cost_tracker.new;
            world := world run |}.
Proof.
  intros Hsize. unfold run_batches at 1.
  destruct (py.range _ _ batch_size) as [starts|] eqn:Hrange; [|discriminate].
  match goal with
  | |- context [process_batches _ _ _ _ 0 starts ?r] =>
      destruct (process_batches_frame questions max_retries batch_size
                  dry_run starts 0 r) as (run' & -> & _ & Hnil & Hlast & _)
  end.
  intros [= ->].
  destruct (range_batches questions batch_size Hsize _ _ starts
              (Nat.le_refl _) Hrange) as (_ & Hempty & Hreach).
  destruct starts as [|i starts].
  - rewrite (Hnil eq_refl). unfold run_batches. cbn [world progress].
    now rewrite Hrange.
  - destruct Hlast as [Hnext Hfile]; [discriminate|].
    specialize (Hreach ltac:(discriminate)).
    unfold run_batches, load_progress. rewrite Hfile, Hnext.
    rewrite Z.min_r by lia.
    destruct (range_step (Z.of_nat (List.length questions))
                (Z.of_nat (List.length questions)) batch_size Hsize)
      as (rest & _ & ->).
    rewrite Z.ltb_irrefl. reflexivity.
Qed.

Lemma resume_after_completion_witness :
  exists run,
    run_batches C4_questions 2 4 true false (empty_world C4_service)
      = Some run /\
    failed_log (world run) = [mkFailureRecord 5 ApiCallFailed] /\
    run_batches C4_questions 2 4 true false (world run)
    = Some {| progress := progress run;
              all_results := [];
              tracker := cost_tracker.new;
              world := world run |}.
Proof.
  assert (Hsome : exists run,
            run_batches C4_questions 2 4 true false (empty_world C4_service)
            = Some run /\
            failed_log (world run) = [mkFailureRecord 5 ApiCallFailed])
    by (eexists; split; vm_compute; reflexivity).
  destruct Hsome as (run & Hrun & Hlog). exists run.
  split; [exact Hrun|]. split; [exact Hlog|].
  apply (resume_after_completion C4_questions 2 4 false
           (empty_world C4_service) run); [lia | exact Hrun].
Defined.

End OrchestratorRun.

(** ** The merged dataset, again *)

Section MergedDataset.

Import structured process_questions_v2 properties.

Lemma merge_questions_kept batch_questions :
  forall prefix all_questions seen_ids,
  kept prefix all_questions seen_ids ->
  kept (prefix ++ batch_questions)
    (fst (merge_questions batch_questions all_questions seen_ids))
    (snd (merge_questions batch_questions all_questions seen_ids)).
Proof.
  induction batch_questions as [|q batch IH];
    intros prefix all_questions seen_ids (Hsub & Hnodup & Hseen).
  - rewrite app_nil_r. now repeat split.
  - replace (prefix ++ q :: batch)%list with ((prefix ++ [q]) ++ batch)%list
      by now rewrite <- app_assoc.
    assert (Hskip : kept (prefix ++ [q]) all_questions seen_ids).
    { split; [|now split].
      rewrite <- (app_nil_r all_questions).
      apply sublist_app; [exact Hsub | apply sublist_nil_l]. }
    cbn [merge_questions].
    destruct (id q) as [j|] eqn:Hj; [|now apply IH].
    destruct (String.eqb_spec j "") as [->|Hne]; cbn [negb andb];
      [now apply IH|].
    destruct (bool_decide (j ∈ seen_ids)) eqn:Hin; cbn [negb];
      [now apply IH|].
    apply bool_decide_eq_false in Hin.
    apply IH. split; [|split].
    + apply sublist_app; [exact Hsub | reflexivity].
    + rewrite List.map_app. cbn [List.map]. rewrite Hj.
      apply NoDup_app. split; [exact Hnodup|].
      split; [|apply NoDup_singleton].
      intros i Hi Hq. apply list_elem_of_singleton in Hq. subst i.
      apply list_elem_of_In, List.in_map_iff in Hi as (q' & Hid & Hq').
      destruct (Hseen q' Hq') as (i & Hi & Hi_seen). congruence.
    + intros q' Hq'. apply in_app_or in Hq' as [Hq'|[<-|[]]].
      * destruct (Hseen q' Hq') as (i & Hi & Hi_seen).
        exists i. split; [exact Hi | set_solver].
      * exists j. split; [exact Hj | set_solver].
Qed.

Lemma merge_files_kept dir files :
  forall prefix all_questions seen_ids,
  kept prefix all_questions seen_ids ->
  kept
    (prefix ++ List.concat (List.map (fun file => get (dir !! file) []) files))
    (fst (merge_files dir files all_questions seen_ids))
    (snd (merge_files dir files all_questions seen_ids)).
Proof.
  induction files as [|file files IH];
    intros prefix all_questions seen_ids Hinv.
  - cbn. now rewrite app_nil_r.
  - cbn [merge_files List.map List.concat].
    pose proof (merge_questions_kept (get (dir !! file) []) _ _ _ Hinv)
      as Hstep.
    destruct (merge_questions _ all_questions seen_ids) as [all' seen'].
    rewrite app_assoc. now apply IH.
Qed.

(** X16.  The dataset is made of questions of the batch files, in the order
    in which they are read, and no two of its questions have the same id. *)
Theorem merge_batches_keeps_order
    (dir : gmap string (list StructuredQuestion)) :
  sublist (questions (merge_batches dir)) (reading_order dir) /\
  NoDup (List.map id (questions (merge_batches dir))).
Proof.
  assert (Hempty : kept [] [] ∅).
  { split; [reflexivity|]. split; [constructor | intros q []]. }
  pose proof (merge_files_kept dir (batch_files dir) [] [] ∅ Hempty) as Hinv.
  unfold merge_batches, reading_order.
  destruct (merge_files dir (batch_files dir) [] ∅) as [all_questions seen].
  destruct Hinv as (Hsub & Hnodup & _). now split.
Qed.

Lemma path_le_antisym a b : path_le a b -> path_le b a -> a = b.
Proof.
  intros Hab Hba. apply path_le_cases in Hab as [->|Hab]; [reflexivity|].
  apply path_le_cases in Hba as [->|Hba]; [reflexivity|].
  rewrite String.compare_antisym, Hab in Hba. discriminate.
Qed.

(** The list of the batch files depends on the names of the files only. *)
Lemma batch_files_ext (dir1 dir2 : gmap string (list StructuredQuestion)) :
  (forall name, is_batch_file name = true ->
     is_Some (dir1 !! name) <-> is_Some (dir2 !! name)) ->
  batch_files dir1 = batch_files dir2.
Proof.
  intros Hsame. apply (StronglySorted_unique_strong path_le).
  - intros a b _ _. apply path_le_antisym.
  - apply batch_files_sorted.
  - apply batch_files_sorted.
  - apply NoDup_Permutation; try apply batch_files_NoDup.
    intros name. rewrite !list_elem_of_In, !batch_files_In.
    split; intros [Hglob Hsome]; (split; [exact Hglob|]);
      now apply (Hsame name Hglob).
Qed.

Lemma merge_files_ext (dir1 dir2 : gmap string (list StructuredQuestion))
    files :
  (forall name, In name files -> dir1 !! name = dir2 !! name) ->
  forall all_questions seen_ids,
  merge_files dir1 files all_questions seen_ids
  = merge_files dir2 files all_questions seen_ids.
Proof.
  induction files as [|file files IH]; intros Hsame all_questions seen_ids;
    [reflexivity|].
  cbn [merge_files]. rewrite (Hsame file (or_introl eq_refl)).
  destruct (merge_questions _ _ _) as [all' seen'].
  apply IH. intros name Hin. apply Hsame. now right.
Qed.

(** X17.  The dataset depends on the files of the directory whose name
    matches [batch_*.json] only: any other file, such as the progress file
    or a file named [batch_0001.json.bak], changes nothing. *)
Theorem merge_batches_reads_batch_files_only
    (dir1 dir2 : gmap string (list StructuredQuestion)) :
  (forall name, is_batch_file name = true -> dir1 !! name = dir2 !! name) ->
  merge_batches dir1 = merge_batches dir2.
Proof.
  intros Hsame. unfold merge_batches.
  rewrite (batch_files_ext dir1 dir2)
    by (intros name Hglob; now rewrite (Hsame name Hglob)).
  rewrite (merge_files_ext dir1 dir2); [reflexivity|].
  intros name Hin. apply batch_files_In in Hin as [Hglob _].
  now apply Hsame.
Qed.

Lemma merge_batches_reads_batch_files_only_witness :
  merge_batches
    (<["batch_0003.json.bak" := [C7_named "old"]]>
       (<["processing_progress.json" := [C7_named "none"]]> C7_two_batches))
  = merge_batches C7_two_batches.
Proof.
  apply merge_batches_reads_batch_files_only.
  intros name Hglob.
  rewrite !lookup_insert_ne; [reflexivity| |];
    intros <-; vm_compute in Hglob; discriminate.
Defined.

(** Merging questions whose ids are distinct and not empty keeps them
    all. *)
Lemma merge_questions_all batch_questions :
  forall all_questions seen_ids,
  NoDup (List.map id batch_questions) ->
  (forall q, In q batch_questions ->
     exists i, id q = Some i /\ i <> "" /\ i ∉ seen_ids) ->
  fst (merge_questions batch_questions all_questions seen_ids)
  = (all_questions ++ batch_questions)%list.
Proof.
  induction batch_questions as [|q batch IH];
    intros all_questions seen_ids Hnodup Hids.
  - cbn. now rewrite app_nil_r.
  - cbn [merge_questions].
    destruct (Hids q (or_introl eq_refl)) as (j & Hj & Hne & Hnew).
    rewrite Hj. apply String.eqb_neq in Hne. rewrite Hne.
    rewrite bool_decide_eq_false_2 by exact Hnew. cbn [negb andb].
    cbn [List.map] in Hnodup. apply NoDup_cons in Hnodup as [Hq Hnodup].
    rewrite IH; [now rewrite <- app_assoc | exact Hnodup |].
    intros q' Hq'.
    destruct (Hids q' (or_intror Hq')) as (i & Hi & Hi_ne & Hi_new).
    exists i. split; [exact Hi|]. split; [exact Hi_ne|].
    apply not_elem_of_union. split; [|exact Hi_new].
    apply not_elem_of_singleton. intros ->.
    apply Hq. rewrite Hj, <- Hi.
    apply list_elem_of_In, List.in_map, Hq'.
Qed.

Lemma batch_files_singleton n (questions : list StructuredQuestion) :
  batch_files {[ batch_file n := questions ]} = [batch_file n].
Proof.
  unfold batch_files. rewrite map_to_list_singleton.
  cbn [List.map List.filter fst]. now rewrite batch_file_is_batch_file.
Qed.

Lemma merge_batches_ids (dir : gmap string (list StructuredQuestion)) :
  NoDup (List.map id (questions (merge_batches dir))) /\
  (forall q, In q (questions (merge_batches dir)) ->
     exists i, id q = Some i /\ i <> "") /\
  merge_batches dir
  = {| totalQuestions := List.length (questions (merge_batches dir));
       questions := questions (merge_batches dir) |}.
Proof.
  destruct (merge_batches_merged dir) as (seen & (_ & _ & Hids) & Hlen).
  assert (Hempty : kept [] [] ∅).
  { split; [reflexivity|]. split; [constructor | intros q []]. }
  pose proof (merge_files_kept dir (batch_files dir) [] [] ∅ Hempty) as Hkept.
  unfold merge_batches in *.
  destruct (merge_files dir (batch_files dir) [] ∅) as [all_questions seen'].
  destruct Hkept as (_ & Hnodup & _). cbn [questions fst] in *.
  split; [exact Hnodup|]. split; [|reflexivity].
  intros q Hq. specialize (Hids q Hq).
  destruct (id q) as [i|]; [|discriminate].
  exists i. split; [reflexivity|].
  cbn in Hids. now apply negb_true_iff, String.eqb_neq in Hids.
Qed.

(** X18.  Merging is idempotent: a directory whose only batch is the list of
    the questions of a dataset merges into that dataset. *)
Theorem merge_batches_idempotent
    (dir : gmap string (list StructuredQuestion)) (n : Z) :
  merge_batches {[ batch_file n := questions (merge_batches dir) ]}
  = merge_batches dir.
Proof.
  destruct (merge_batches_ids dir) as (Hnodup & Hids & Heta).
  rewrite Heta at 2.
  generalize dependent (questions (merge_batches dir)).
  intros all_questions Hnodup Hids _.
  unfold merge_batches. rewrite batch_files_singleton.
  cbn [merge_files]. rewrite lookup_singleton_eq. cbn [get].
  pose proof (merge_questions_all all_questions [] ∅ Hnodup) as Hall.
  destruct (merge_questions all_questions [] ∅) as [all' seen''].
  cbn [fst merge_files] in *. rewrite Hall; [reflexivity|].
  intros q Hq. destruct (Hids q Hq) as (i & Hi & Hne).
  exists i. split; [exact Hi|]. split; [exact Hne | set_solver].
Qed.

(** A batch whose number is above those of the directory is read
    last. *)
Lemma batch_files_insert (dir : gmap string (list StructuredQuestion))
    bound m batch :
  numbered_to bound dir -> bound < m -> 0 <= m < 10000 ->
  batch_files (<[batch_file m := batch]> dir)
  = (batch_files dir ++ [batch_file m])%list /\
  forall file, In file (batch_files dir) -> file <> batch_file m.
Proof.
  intros Hdir Hbound Hm.
  assert (Hbefore : forall file, In file (batch_files dir) ->
            String.ltb file (batch_file m) = true).
  { intros file Hin. apply batch_files_In in Hin as [_ Hsome].
    destruct (Hdir file Hsome) as (n & -> & Hn).
    apply batch_file_lt; lia. }
  assert (Hnew : forall file, In file (batch_files dir) ->
            file <> batch_file m).
  { intros file Hin ->. specialize (Hbefore _ Hin).
    unfold String.ltb in Hbefore.
    now rewrite string_compare_refl in Hbefore. }
  split; [|exact Hnew].
  apply (StronglySorted_unique_strong path_le).
  - intros a b _ _. apply path_le_antisym.
  - apply batch_files_sorted.
  - apply StronglySorted_app. split; [|split].
    + intros x1 x2 Hx1 Hx2. apply list_elem_of_singleton in Hx2. subst x2.
      apply list_elem_of_In in Hx1. specialize (Hbefore x1 Hx1).
      apply path_le_cases. right. unfold String.ltb in Hbefore.
      now destruct (String.compare x1 (batch_file m)).
    + apply batch_files_sorted.
    + repeat constructor.
  - apply NoDup_Permutation.
    + apply batch_files_NoDup.
    + apply NoDup_app. split; [apply batch_files_NoDup|].
      split; [|apply NoDup_singleton].
      intros file Hfile Hsingle. apply list_elem_of_singleton in Hsingle.
      apply list_elem_of_In in Hfile. now apply (Hnew file).
    + intros file. rewrite elem_of_app, list_elem_of_singleton.
      rewrite !list_elem_of_In, !batch_files_In.
      rewrite lookup_insert_is_Some. split.
      * intros [Hglob [<-|[Hne Hsome]]]; [now right | now left].
      * intros [[Hglob Hsome]| ->].
        -- split; [exact Hglob|].
           destruct (decide (batch_file m = file)) as [Heq|Hne];
             [now left | now right].
        -- split; [apply batch_file_is_batch_file | now left].
Qed.

Lemma reading_order_insert (dir : gmap string (list StructuredQuestion))
    bound m batch :
  numbered_to bound dir -> bound < m -> 0 <= m < 10000 ->
  reading_order (<[batch_file m := batch]> dir)
  = (reading_order dir ++ batch)%list.
Proof.
  intros Hdir Hbound Hm. unfold reading_order.
  destruct (batch_files_insert dir bound m batch Hdir Hbound Hm)
    as [-> Hnew].
  rewrite List.map_app, List.concat_app. cbn [List.map List.concat].
  rewrite lookup_insert_eq, app_nil_r. cbn [get]. f_equal. f_equal.
  apply List.map_ext_in. intros file Hin.
  rewrite lookup_insert_ne; [reflexivity|].
  intros Heq. now apply (Hnew file Hin).
Qed.

Lemma numbered_to_insert (dir : gmap string (list StructuredQuestion))
    bound m batch :
  numbered_to bound dir -> bound <= m -> 0 <= m ->
  numbered_to m (<[batch_file m := batch]> dir).
Proof.
  intros Hdir Hbound Hm name Hsome.
  apply lookup_insert_is_Some in Hsome as [<-|[_ Hsome]].
  - exists m. split; [reflexivity | lia].
  - destruct (Hdir name Hsome) as (n & -> & Hn). exists n.
    split; [reflexivity | lia].
Qed.

Lemma numbered_to_le (dir : gmap string (list StructuredQuestion))
    bound bound' :
  numbered_to bound dir -> bound <= bound' -> numbered_to bound' dir.
Proof.
  intros Hdir Hle name Hsome. destruct (Hdir name Hsome) as (n & -> & Hn).
  exists n. split; [reflexivity | lia].
Qed.

(** A batch of a run that is not a dry run keeps the batches in the order
    of the records. *)
Lemma process_batch_in_order questions max_retries batch_size batch_num i
    run run' :
  process_batch questions max_retries batch_size false batch_num i run
    = Some run' ->
  0 <= batch_num -> -1 <= last_completed_batch (progress run) ->
  last_completed_batch (progress run') < 10000 ->
  in_order run -> in_order run'.
Proof.
  unfold process_batch, in_order.
  destruct (process_records_trace max_retries
              (py.slice_list i (i + batch_size) questions) run [])
    as (run1 & -> & Hlast & Hall & _ & Hdir & _).
  cbv zeta in Hall. cbn [List.app app] in *.
  intros [= <-] Hnum Hfirst Hbound [Hnumbered Horder].
  cbn [progress last_completed_batch world all_results batches_dir
       save_progress] in *.
  rewrite andb_true_r.
  destruct (List.length _ =? 0)%nat eqn:Hempty; cbn [negb].
  - apply Nat.eqb_eq, List.length_zero_iff_nil in Hempty.
    rewrite Hdir, Hall, Hempty, app_nil_r. split; [|exact Horder].
    apply (numbered_to_le _ _ _ Hnumbered). lia.
  - cbn [in_world world batches_dir save_batch all_results].
    rewrite Hdir, Hall. split.
    + apply (numbered_to_insert _ _ _ _ Hnumbered); lia.
    + rewrite (reading_order_insert _ _ _ _ Hnumbered) by lia.
      now rewrite Horder.
Qed.

Lemma process_batches_in_order questions max_retries batch_size starts :
  forall batch_num run run',
  process_batches questions max_retries batch_size false batch_num starts run
    = Some run' ->
  0 <= batch_num -> -1 <= last_completed_batch (progress run) ->
  last_completed_batch (progress run') < 10000 ->
  in_order run -> in_order run'.
Proof.
  induction starts as [|i starts IH]; intros batch_num run run';
    cbn [process_batches].
  - now intros [= <-].
  - destruct (process_batch_frame questions max_retries batch_size false
                batch_num i run) as (run1 & Hbatch & Hlast1 & _).
    rewrite Hbatch.
    destruct (process_batches_frame questions max_retries batch_size false
                starts (batch_num + 1) run1) as (run2 & Hrest & Hnum & _).
    rewrite Hrest. intros [= <-] Hbatch_num Hfirst Hbound Horder.
    assert (Hgrow : last_completed_batch (progress run1)
                    <= last_completed_batch (progress run2)) by nia.
    apply (IH (batch_num + 1) run1 run2 Hrest); try lia.
    apply (process_batch_in_order _ _ _ _ _ _ _ Hbatch); try lia.
    exact Horder.
Qed.



End MergedDataset.

(** ** The completeness check, again *)

Section ValidationSummary.

Import structured question_validator properties.

Lemma option_placeholder_errors_relabel flag note opts :
  option_placeholder_errors
    (List.map (fun opt => {| opt_id := opt_id opt;
                             opt_text := opt_text opt;
                             isCorrect := flag opt;
                             analysis := note opt |}) opts)
  = option_placeholder_errors opts.
Proof.
  induction opts as [|opt opts IH]; [reflexivity|].
  cbn [List.map option_placeholder_errors opt_text opt_id].
  now rewrite IH.
Qed.

Lemma option_errors_relabel flag note opts :
  option_errors
    (List.map (fun opt => {| opt_id := opt_id opt;
                             opt_text := opt_text opt;
                             isCorrect := flag opt;
                             analysis := note opt |}) opts)
  = option_errors opts.
Proof.
  unfold option_errors.
  rewrite List.length_map, List.map_map, option_placeholder_errors_relabel.
  reflexivity.
Qed.

(** X20.  The completeness check reads neither the [isCorrect] flags nor the
    analyses of the options, nor the question number, nor what the steps
    say: a record and the same record with other values there get the same
    verdict and the same reasons. *)
Theorem validate_question_completeness_reads
    (flag : AnswerOption -> option bool)
    (note : AnswerOption -> option string) (number : option Z)
    (step : Step -> Step) (question : StructuredQuestion) :
  validate_question_completeness (relabel flag note number step question)
  = validate_question_completeness question.
Proof.
  unfold validate_question_completeness, missing_fields, relabel.
  cbn [id questionText options correctOption classification stepByStep].
  assert (Habsent : absent
                      match options question with
                      | Some opts =>
                          Some (List.map
                                  (fun opt => {| opt_id := opt_id opt;
                                                 opt_text := opt_text opt;
                                                 isCorrect := flag opt;
                                                 analysis := note opt |})
                                  opts)
                      | None => None
                      end = absent (options question))
    by now destruct (options question).
  rewrite Habsent.
  destruct (negb _); [reflexivity|].
  assert (Hopts : option_errors
                    (get match options question with
                         | Some opts =>
                             Some (List.map
                                     (fun opt => {| opt_id := opt_id opt;
                                                    opt_text := opt_text opt;
                                                    isCorrect := flag opt;
                                                    analysis := note opt |})
                                     opts)
                         | None => None
                         end [])
                  = option_errors (get (options question) [])).
  { destruct (options question) as [opts|]; [|reflexivity].
    apply option_errors_relabel. }
  assert (Hsteps : step_errors
                     (get match stepByStep question with
                          | Some steps => Some (List.map step steps)
                          | None => None
                          end [])
                   = step_errors (get (stepByStep question) [])).
  { destruct (stepByStep question) as [steps|]; [|reflexivity].
    unfold step_errors. cbn [get]. now rewrite List.length_map. }
  rewrite Hopts, Hsteps. reflexivity.
Qed.

Lemma breakdown_total_insert breakdown error count :
  breakdown !! error = None ->
  breakdown_total (<[error := count]> breakdown)
  = count + breakdown_total breakdown.
Proof.
  intros Hnone. unfold breakdown_total.
  apply (map_fold_insert_L (fun _ count sum => count + sum)); [|exact Hnone].
  intros. lia.
Qed.

Lemma breakdown_total_delete breakdown error count :
  breakdown !! error = Some count ->
  breakdown_total breakdown
  = count + breakdown_total (delete error breakdown).
Proof.
  intros Hsome. unfold breakdown_total.
  apply (map_fold_delete_L (fun _ count sum => count + sum)); [|exact Hsome].
  intros. lia.
Qed.

(** Counting an error adds one to the sum of the counts. *)
Lemma count_error_total breakdown error :
  breakdown_total (count_error breakdown error)
  = breakdown_total breakdown + 1.
Proof.
  unfold count_error.
  destruct (breakdown !! error) as [count|] eqn:Hlookup; cbn [get].
  - rewrite <- insert_delete_eq.
    rewrite breakdown_total_insert by apply lookup_delete_eq.
    rewrite (breakdown_total_delete breakdown error count Hlookup). lia.
  - rewrite breakdown_total_insert by exact Hlookup. lia.
Qed.

Lemma count_error_positive breakdown error :
  map_Forall (fun _ count => 0 < count) breakdown ->
  map_Forall (fun _ count => 0 < count) (count_error breakdown error).
Proof.
  intros Hall. unfold count_error. apply map_Forall_insert_2; [|exact Hall].
  destruct (breakdown !! error) as [count|] eqn:Hlookup; cbn [get]; [|lia].
  specialize (Hall error count Hlookup). cbn in Hall. lia.
Qed.

Lemma count_errors_total errors : forall breakdown,
  breakdown_total (fold_left count_error errors breakdown)
  = breakdown_total breakdown + Z.of_nat (List.length errors) /\
  (map_Forall (fun _ count => 0 < count) breakdown ->
   map_Forall (fun _ count => 0 < count)
     (fold_left count_error errors breakdown)).
Proof.
  induction errors as [|error errors IH]; intros breakdown.
  - cbn. split; [lia | auto].
  - cbn [fold_left List.length].
    destruct (IH (count_error breakdown error)) as [Htotal Hpositive].
    rewrite Htotal, count_error_total. split; [lia|].
    intros Hall. now apply Hpositive, count_error_positive.
Qed.

Lemma complete_no_reasons q :
  complete q = true ->
  snd (validate_question_completeness q) = [].
Proof. apply validate_valid_iff. Qed.

Lemma summarize_all message questions : forall summary,
  let summary' := fold_left (summarize message) questions summary in
  question_validator.total summary' = question_validator.total summary /\
  valid summary'
    = valid summary
      + Z.of_nat (List.length (List.filter complete questions)) /\
  invalid summary'
    = invalid summary
      + Z.of_nat (List.length
                    (List.filter (fun q => negb (complete q)) questions)) /\
  breakdown_total (error_breakdown summary')
    = breakdown_total (error_breakdown summary)
      + Z.of_nat (List.length (all_reasons questions)) /\
  (map_Forall (fun _ count => 0 < count) (error_breakdown summary) ->
   map_Forall (fun _ count => 0 < count) (error_breakdown summary')).
Proof.
  induction questions as [|q questions IH]; intros summary.
  - cbn. repeat split; try lia. auto.
  - cbn [fold_left]. specialize (IH (summarize message summary q)).
    cbv zeta in *. destruct IH as (Htotal & Hvalid & Hinvalid & Hsum & Hpos).
    rewrite Htotal, Hvalid, Hinvalid, Hsum.
    unfold all_reasons. cbn [List.map List.concat List.filter].
    rewrite List.length_app. fold (all_reasons questions).
    pose proof (complete_no_reasons q) as Hnone.
    unfold summarize, complete in *.
    destruct (validate_question_completeness q) as [[|] errors];
      cbn [fst snd negb List.length
           question_validator.total valid invalid error_breakdown] in *.
    + rewrite (Hnone eq_refl). cbn [List.length].
      repeat split; try lia. exact Hpos.
    + destruct (count_errors_total (List.map message errors)
                  (error_breakdown summary)) as [Hcount Hcount_pos].
      rewrite Hcount, List.length_map.
      repeat split; try lia. intros Hall. apply Hpos. cbn. now apply Hcount_pos.
Qed.

(** X21.  The summary counts every question once, as valid or as invalid,
    and every reason of the invalid questions once in the breakdown, whose
    counts are all positive. *)
Theorem get_validation_summary_counts (message : Reason -> string)
    (questions : list StructuredQuestion) :
  let summary := get_validation_summary message questions in
  question_validator.total summary = Z.of_nat (List.length questions) /\
  valid summary + invalid summary = question_validator.total summary /\
  valid summary = Z.of_nat (List.length (List.filter complete questions)) /\
  breakdown_total (error_breakdown summary)
    = Z.of_nat (List.length (all_reasons questions)) /\
  map_Forall (fun _ count => 0 < count) (error_breakdown summary).
Proof.
  unfold get_validation_summary.
  pose proof (summarize_all message questions
                {| question_validator.total :=
                     Z.of_nat (List.length questions);
                   valid := 0; invalid := 0; error_breakdown := ∅ |})
    as Hall.
  cbv zeta in *.
  destruct Hall as (Htotal & Hvalid & Hinvalid & Hsum & Hpos).
  rewrite Htotal, Hvalid, Hinvalid, Hsum.
  cbn [question_validator.total valid invalid error_breakdown].
  pose proof (List.filter_length complete questions) as Hsplit.
  split; [reflexivity|]. split; [lia|]. split; [lia|].
  split; [unfold breakdown_total; rewrite map_fold_empty; lia|].
  apply Hpos, map_Forall_empty.
Qed.

End ValidationSummary.

(** ** The dataset of process_claude.py *)

Section ClaudeDataset.

Import structured generation_service process_claude properties.

Lemma letter_of_index_ABCD k : 1 <= k <= 4 -> In (letter_of_index k) ABCD.
Proof.
  intros Hk.
  assert (k = 1 \/ k = 2 \/ k = 3 \/ k = 4) as [->|[->|[->| ->]]] by lia;
    cbn; tauto.
Qed.

Lemma list_filter_sublist {A : Type} (f : A -> bool) l :
  sublist (List.filter f l) l.
Proof.
  induction l as [|x l IH]; [reflexivity|].
  cbn [List.filter]. destruct (f x);
    [now apply sublist_skip | now apply sublist_cons].
Qed.

Lemma select_sublist args questions : sublist (select args questions) questions.
Proof.
  unfold select. destruct (_ || _); [|reflexivity].
  apply list_filter_sublist.
Qed.

Lemma select_strict args questions :
  Forall strict_question questions ->
  Forall strict_question (select args questions).
Proof.
  intros Hall. unfold select. destruct (_ || _); [|exact Hall].
  apply List.Forall_forall. intros q Hq.
  apply List.filter_In in Hq as [Hq _].
  now apply (proj1 (List.Forall_forall _ _) Hall).
Qed.

End ClaudeDataset.

(** ** The start of the section *)

Section StartPatterns.

Import re properties.

(** A literal under [re.I] matches where the text, in lower case, starts
    with the literal in lower case. *)
Lemma rmatch_lit_i (A : Type) w :
  forall s caps (k : string -> list string -> option A),
  rmatch A (lit_i w) s caps k
  = if py.startswith (py.lower w) (py.lower s)
    then k (py.drop (String.length w) s) caps
    else None.
Proof.
  induction w as [|c w IH]; intros s caps k; [reflexivity|].
  assert (Hstep : rmatch A (Seq (chr_i c) (lit_i w)) s caps k
                  = if py.startswith (py.lower (String c w)) (py.lower s)
                    then k (py.drop (String.length (String c w)) s) caps
                    else None).
  { cbn [rmatch chr_i]. destruct s as [|x s]; [reflexivity|].
    cbn [py.lower py.startswith py.drop String.length].
    rewrite (Ascii.eqb_sym (py.lower_char c)).
    destruct (Ascii.eqb _ _); [apply IH | reflexivity]. }
  destruct w as [|c' w]; [|exact Hstep].
  rewrite <- Hstep. cbn [lit_i rmatch chr_i].
  destruct s as [|x s]; [reflexivity|]. now destruct (Ascii.eqb _ _).
Qed.

(** The continuation of a repetition is called on what is left of the
    text after some of its characters. *)
Lemma rep_match_suffix (A : Type) greedy p s (k : string -> option A) a :
  rep_match greedy p s k = Some a ->
  exists n, k (py.drop n s) = Some a.
Proof.
  induction s as [|c s IH]; cbn [rep_match].
  - intros Hk. now exists 0%nat.
  - destruct (p c); [|intros Hk; now exists 0%nat].
    destruct greedy.
    + destruct (rep_match true p s k) eqn:Hrep.
      * intros [= ->]. destruct (IH eq_refl) as [n Hn]. now exists (S n).
      * intros Hk. now exists 0%nat.
    + destruct (k (String c s)) eqn:Hhere.
      * intros [= ->]. now exists 0%nat.
      * intros Hrep. destruct (IH Hrep) as [n Hn]. now exists (S n).
Qed.

Lemma drop_drop n m s : py.drop n (py.drop m s) = py.drop (m + n) s.
Proof.
  revert s. induction m as [|m IH]; intros s; [reflexivity|].
  destruct s as [|c s]; [now destruct n | apply IH].
Qed.

Lemma lower_drop n s : py.lower (py.drop n s) = py.drop n (py.lower s).
Proof.
  revert s. induction n as [|n IH]; intros s; [reflexivity|].
  destruct s as [|c s]; [reflexivity | apply IH].
Qed.

(** A text that starts with [sub] after some of its characters contains
    [sub]. *)
Lemma contains_drop sub n : forall s,
  py.startswith sub (py.drop n s) = true -> py.contains sub s = true.
Proof.
  induction n as [|n IH]; intros s Hs.
  - destruct s; cbn [py.contains py.drop] in *; now rewrite Hs.
  - destruct s as [|c s]; cbn [py.contains py.drop] in *.
    + now rewrite Hs.
    + rewrite (IH s Hs). apply orb_true_r.
Qed.

Lemma search_from_found r : forall s pos m,
  search_from r pos s = Some m ->
  exists n, match_at r (pos + n) (py.drop n s) = Some m.
Proof.
  induction s as [|c s IH]; intros pos m; cbn [search_from].
  - destruct (match_at r pos "") eqn:Hhere; [|discriminate].
    intros [= ->]. exists 0%nat. now rewrite Nat.add_0_r.
  - destruct (match_at r pos (String c s)) eqn:Hhere.
    + intros [= ->]. exists 0%nat. now rewrite Nat.add_0_r.
    + intros Hrest. destruct (IH _ _ Hrest) as [n Hn].
      exists (S n). now rewrite Nat.add_succ_r.
Qed.

(** A text in which a literal is found under [re.I] is a text that
    contains it, both in lower case. *)
Lemma found_lit_i w s :
  found (lit_i w) s = py.contains (py.lower w) (py.lower s).
Proof.
  unfold found, search. generalize 0%nat.
  induction s as [|c s IH]; intros pos.
  - cbn [search_from py.lower py.contains]. unfold match_at.
    rewrite rmatch_lit_i. cbn [py.lower].
    destruct (py.startswith _ _); reflexivity.
  - cbn [search_from py.lower py.contains]. unfold match_at.
    rewrite rmatch_lit_i. cbn [py.lower].
    destruct (py.startswith _ _); [reflexivity|].
    cbn [orb]. apply IH.
Qed.

(** The words [SECTION ... A ... PHYSICS] and [PART ... A ... PHYSICS] in
    one line: the text contains the last word. *)
Lemma found_in_order_i w1 w2 w3 s :
  found (config.in_order_i w1 [w2; w3]) s = true ->
  py.contains (py.lower w3) (py.lower s) = true.
Proof.
  unfold found, search.
  destruct (search_from _ 0 s) as [m|] eqn:Hsearch; [intros _|discriminate].
  apply search_from_found in Hsearch as [n Hmatch].
  unfold match_at, config.in_order_i, config.words_i in Hmatch.
  cbn [List.map List.concat List.app app seq star rmatch] in Hmatch.
  rewrite rmatch_lit_i in Hmatch.
  destruct (py.startswith (py.lower w1) _); [|discriminate].
  apply rep_match_suffix in Hmatch as [n1 Hmatch].
  rewrite rmatch_lit_i in Hmatch.
  destruct (py.startswith (py.lower w2) _); [|discriminate].
  apply rep_match_suffix in Hmatch as [n2 Hmatch].
  rewrite rmatch_lit_i in Hmatch.
  destruct (py.startswith (py.lower w3) _) eqn:Hlast; [|discriminate].
  rewrite !lower_drop, !drop_drop in Hlast.
  now apply contains_drop in Hlast.
Qed.

(** X23.  A page matches a start pattern exactly when its text contains the
    word physics, in upper or in lower case or in a mix of both: the three
    other patterns add nothing to the first one. *)
Theorem start_patterns_physics (page_text : string) :
  is_start page_text = py.contains "physics" (py.lower page_text).
Proof.
  unfold is_start, section_locator.matches_any, config.SECTION_START_PATTERNS.
  cbn [existsb]. rewrite (found_lit_i "PHYSICS").
  change (py.lower "PHYSICS") with "physics".
  destruct (py.contains "physics" (py.lower page_text)) eqn:Hphysics;
    [reflexivity|].
  cbn [orb]. rewrite orb_false_r.
  destruct (found (config.in_order_i "SECTION" ["A"; "PHYSICS"]) page_text)
    eqn:H2.
  { apply found_in_order_i in H2.
    change (py.lower "PHYSICS") with "physics" in H2. congruence. }
  destruct (found (config.in_order_i "PART" ["A"; "PHYSICS"]) page_text)
    eqn:H4.
  { apply found_in_order_i in H4.
    change (py.lower "PHYSICS") with "physics" in H4. congruence. }
  rewrite orb_false_r. cbn [orb].
  unfold found, search.
  destruct (search_from _ 0 page_text) as [m|] eqn:Hsearch; [|reflexivity].
  apply search_from_found in Hsearch as [n Hmatch].
  unfold match_at in Hmatch. cbn [seq rmatch] in Hmatch.
  rewrite rmatch_lit_i in Hmatch.
  destruct (py.startswith (py.lower "Physics") _) eqn:Hfirst; [|discriminate].
  change (py.lower "Physics") with "physics" in Hfirst.
  rewrite lower_drop in Hfirst. apply contains_drop in Hfirst. congruence.
Qed.

Lemma lower_append (a b : string) :
  py.lower (a ++ b) = py.lower a ++ py.lower b.
Proof.
  induction a as [|c a IH]; [reflexivity|].
  rewrite append_cons. cbn [py.lower]. now rewrite append_cons, IH.
Qed.

Lemma lower_length s : String.length (py.lower s) = String.length s.
Proof. induction s as [|c s IH]; [reflexivity | cbn; now rewrite IH]. Qed.

Lemma startswith_append (a b : string) : py.startswith a (a ++ b) = true.
Proof.
  induction a as [|c a IH]; [reflexivity|].
  rewrite append_cons. cbn [py.startswith]. now rewrite Ascii.eqb_refl.
Qed.

(** A greedy or lazy run of characters other than the line break can stop
    after any text without a line break. *)
Lemma rep_match_dot (A : Type) greedy middle : forall rest
    (k : string -> option A),
  keep (Ascii.eqb "010"%char) middle = "" ->
  k rest <> None ->
  rep_match greedy dot (middle ++ rest) k <> None.
Proof.
  induction middle as [|c middle IH]; intros rest k Hmiddle Hk.
  - rewrite append_nil. destruct rest as [|x rest]; cbn [rep_match];
      [exact Hk|].
    destruct (dot x); [|exact Hk].
    destruct greedy.
    + now destruct (rep_match true dot rest k).
    + now destruct (k (String x rest)).
  - cbn [keep] in Hmiddle.
    destruct (Ascii.eqb "010"%char c) eqn:Hc; [discriminate|].
    rewrite append_cons. cbn [rep_match]. unfold dot at 1.
    rewrite Ascii.eqb_sym, Hc. cbn [negb].
    specialize (IH rest k Hmiddle Hk).
    destruct greedy.
    + now destruct (rep_match true dot (middle ++ rest) k).
    + destruct (k (String c (middle ++ rest))); [discriminate | exact IH].
Qed.

(** The two words of a pattern, found in one line. *)
Lemma match_at_in_order_i first second pos a middle b after :
  py.lower a = py.lower first ->
  py.lower b = py.lower second ->
  keep (Ascii.eqb "010"%char) middle = "" ->
  match_at (config.in_order_i first [second]) pos
    (a ++ middle ++ b ++ after) <> None.
Proof.
  intros Ha Hb Hmiddle.
  unfold match_at, config.in_order_i, config.words_i.
  cbn [List.map List.concat List.app app seq star rmatch].
  rewrite rmatch_lit_i, lower_append, <- Ha, startswith_append.
  assert (Hlen : String.length first = String.length a).
  { rewrite <- (lower_length first), <- Ha. apply lower_length. }
  rewrite Hlen, drop_append.
  apply rep_match_dot; [exact Hmiddle|].
  rewrite rmatch_lit_i, lower_append, <- Hb, startswith_append.
  discriminate.
Qed.

Lemma search_from_append r before : forall pos s,
  (forall pos', match_at r pos' s <> None) ->
  search_from r pos (before ++ s) <> None.
Proof.
  induction before as [|c before IH]; intros pos s Hs.
  - rewrite append_nil. destruct s as [|x s]; cbn [search_from].
    + specialize (Hs pos). now destruct (match_at r pos "").
    + specialize (Hs pos). now destruct (match_at r pos (String x s)).
  - rewrite append_cons. cbn [search_from].
    destruct (match_at r pos _); [discriminate|]. now apply IH.
Qed.

Lemma found_in_one_line first second text :
  in_one_line first second text ->
  found (config.in_order_i first [second]) text = true.
Proof.
  intros (before & a & middle & b & after & -> & Ha & Hb & Hmiddle).
  unfold found, search.
  pose proof (search_from_append (config.in_order_i first [second]) before
                0 (a ++ middle ++ b ++ after)) as Hsearch.
  destruct (search_from _ 0 _); [reflexivity|].
  destruct Hsearch; [|reflexivity].
  intros pos'. now apply match_at_in_order_i.
Qed.

(** X24.  The content check rejects every text in which the two words of one
    of the patterns [rough.*work], [admit.*card], [OMR.*sheet],
    [candidates.*governed], [general.*instructions] and
    [follow.*instructions] occur in this order in one line, in any case,
    whatever else the text says: a question about the work done on a rough
    surface is taken for an instruction. *)
Theorem is_valid_physics_question_word_pairs (first second text : string) :
  In (first, second) word_pairs ->
  in_one_line first second text ->
  question_validator.is_valid_physics_question text = false.
Proof.
  intros Hpair Hline. apply found_in_one_line in Hline.
  unfold question_validator.is_valid_physics_question.
  destruct (_ || _); [reflexivity|].
  assert (Hex : existsb (fun pattern => found pattern text)
                  config.INVALID_PATTERNS = true).
  { apply existsb_exists.
    exists (config.in_order_i first [second]). split; [|exact Hline].
    unfold word_pairs in Hpair. unfold config.INVALID_PATTERNS.
    cbn [In] in *.
    repeat (destruct Hpair as [[= <- <-]|Hpair]; [tauto|]).
    destruct Hpair. }
  now rewrite Hex.
Qed.

Lemma is_valid_physics_question_word_pairs_witness :
  question_validator.is_valid_physics_question friction = false.
Proof.
  apply (is_valid_physics_question_word_pairs "rough" "work" friction).
  - left. reflexivity.
  - exists "A block slides on a ", "rough", " surface. Find the ", "work",
      " done by friction.".
    repeat split; reflexivity.
Defined.

End StartPatterns.

(** ** The JSON object of an answer *)

Section ExtractJson.

Import process_claude properties.

Lemma find_startswith sub : forall s i,
  py.find sub s = Some i -> py.startswith sub (py.drop i s) = true.
Proof.
  induction s as [|c s IH]; intros i; cbn [py.find].
  - destruct (py.startswith sub "") eqn:Hhere; [|discriminate].
    now intros [= <-].
  - destruct (py.startswith sub (String c s)) eqn:Hhere;
      [now intros [= <-]|].
    destruct (py.find sub s) as [j|]; [|discriminate].
    intros [= <-]. now apply IH.
Qed.

Lemma rfind_startswith sub : forall s j,
  py.rfind sub s = Some j -> py.startswith sub (py.drop j s) = true.
Proof.
  induction s as [|c s IH]; intros j; cbn [py.rfind].
  - destruct (py.startswith sub "") eqn:Hhere; [|discriminate].
    now intros [= <-].
  - destruct (py.rfind sub s) as [i|].
    + intros [= <-]. now apply IH.
    + destruct (py.startswith sub (String c s)) eqn:Hhere; [|discriminate].
      now intros [= <-].
Qed.

Lemma startswith_char c s :
  py.startswith (String c "") s = true -> exists rest, s = String c rest.
Proof.
  destruct s as [|x s]; [discriminate|]. cbn [py.startswith].
  rewrite andb_true_r. intros Hc. apply Ascii.eqb_eq in Hc. subst x.
  now exists s.
Qed.

Lemma take_drop_last n : forall t c rest,
  py.drop n t = String c rest ->
  String.length (py.take (S n) t) = S n /\
  py.drop n (py.take (S n) t) = String c "".
Proof.
  induction n as [|n IH]; intros t c rest Hdrop.
  - cbn in Hdrop. subst t. now split.
  - destruct t as [|x t]; [discriminate|].
    cbn [py.drop] in Hdrop. destruct (IH t c rest Hdrop) as [Hlen Hlast].
    change (py.take (S (S n)) (String x t))
      with (String x (py.take (S n) t)).
    cbn [String.length py.drop]. now rewrite Hlen, Hlast.
Qed.

(** The candidate between the first opening and the last closing brace
    starts and ends with them. *)
Lemma slice_between_braces text i j :
  py.find "{" text = Some i -> py.rfind "}" text = Some j -> (i < j)%nat ->
  py.startswith "{" (py.slice i (j + 1) text)
  && py.endswith "}" (py.slice i (j + 1) text) = true.
Proof.
  intros Hi Hj Hlt.
  apply find_startswith, startswith_char in Hi as [rest Hi].
  apply rfind_startswith, startswith_char in Hj as [rest' Hj].
  unfold py.slice. replace (j + 1 - i)%nat with (S (j - i)) by lia.
  replace j with (i + (j - i))%nat in Hj by lia.
  rewrite <- drop_drop in Hj.
  destruct (take_drop_last (j - i) (py.drop i text) _ _ Hj) as [Hlen Hlast].
  apply andb_true_iff. split.
  - rewrite Hi. reflexivity.
  - unfold py.endswith. rewrite Hlen. cbn [String.length].
    replace (S (j - i) - 1)%nat with (j - i)%nat by lia.
    rewrite Hlast. reflexivity.
Qed.

Lemma code_blocks_between_braces {A : Type} (loads : string -> option A)
    parts :
  code_blocks loads parts = code_blocks (between_braces loads) parts.
Proof.
  induction parts as [|part parts IH]; [reflexivity|].
  cbn [code_blocks]. unfold between_braces at 1.
  destruct (_ && _); [|exact IH]. now rewrite IH.
Qed.

(** The characters of the parts of a text are characters of the text. *)
Lemma keep_drop p n : forall s, keep p s = "" -> keep p (py.drop n s) = "".
Proof.
  induction n as [|n IH]; intros s Hs; [exact Hs|].
  destruct s as [|c s]; [reflexivity|].
  cbn [keep] in Hs. destruct (p c); [discriminate|]. now apply IH.
Qed.

Lemma keep_lstrip p s : keep p s = "" -> keep p (py.lstrip s) = "".
Proof.
  induction s as [|c s IH]; intros Hs; [reflexivity|].
  cbn [py.lstrip]. destruct (py.isspace c); [|exact Hs].
  cbn [keep] in Hs. destruct (p c); [discriminate|]. now apply IH.
Qed.

Lemma keep_rstrip p s : keep p s = "" -> keep p (py.rstrip s) = "".
Proof.
  induction s as [|c s IH]; intros Hs; [reflexivity|].
  cbn [keep] in Hs. destruct (p c) eqn:Hc; [discriminate|].
  specialize (IH Hs). cbn [py.rstrip].
  destruct (py.rstrip s) as [|x t].
  - destruct (py.isspace c); [reflexivity|]. cbn [keep]. now rewrite Hc.
  - cbn [keep] in *. now rewrite Hc.
Qed.

Lemma keep_strip p s : keep p s = "" -> keep p (py.strip s) = "".
Proof. intros Hs. now apply keep_rstrip, keep_lstrip. Qed.

Lemma keep_split_on p sep : forall s skip cur,
  keep p s = "" -> Forall (fun c => p c = false) cur ->
  Forall (fun part => keep p part = "") (py.split_on_aux sep s skip cur).
Proof.
  induction s as [|c s IH]; intros skip cur Hs Hcur.
  - constructor; [now apply keep_rev_string | constructor].
  - cbn [keep] in Hs. destruct (p c) eqn:Hc; [discriminate|].
    cbn [py.split_on_aux]. destruct skip as [|skip]; [|now apply IH].
    destruct (py.startswith sep (String c s)).
    + constructor; [now apply keep_rev_string | apply IH; auto].
    + apply IH; auto.
Qed.

Lemma startswith_keep c s :
  py.startswith (String c "") s = true -> keep (Ascii.eqb c) s <> "".
Proof.
  intros Hs. apply startswith_char in Hs as [rest ->].
  cbn [keep]. now rewrite Ascii.eqb_refl.
Qed.

Lemma endswith_keep c s :
  py.endswith (String c "") s = true -> keep (Ascii.eqb c) s <> "".
Proof.
  unfold py.endswith. intros Hs. apply andb_true_iff in Hs as [_ Hs].
  apply String.eqb_eq in Hs. intros Hnone.
  apply (keep_drop _ (String.length s - String.length (String c ""))) in Hnone.
  rewrite Hs in Hnone. cbn [keep] in Hnone.
  now rewrite Ascii.eqb_refl in Hnone.
Qed.

Lemma code_blocks_no_brace {A : Type} (loads : string -> option A) c parts :
  c = "{"%char \/ c = "}"%char ->
  Forall (fun part => keep (Ascii.eqb c) part = "") parts ->
  code_blocks loads parts = None.
Proof.
  intros Hc. induction 1 as [|part parts Hpart _ IH]; [reflexivity|].
  cbn [code_blocks].
  set (candidate := if py.startswith "json" (py.strip part)
                    then py.strip (py.drop 4 (py.strip part))
                    else py.strip part).
  assert (Hnone : keep (Ascii.eqb c) candidate = "").
  { subst candidate. destruct (py.startswith "json" _).
    - now apply keep_strip, keep_drop, keep_strip.
    - now apply keep_strip. }
  destruct (py.startswith "{" candidate) eqn:Hopen; [|exact IH].
  destruct (py.endswith "}" candidate) eqn:Hclose; [|exact IH].
  destruct Hc as [-> | ->].
  - now apply startswith_keep in Hopen.
  - now apply endswith_keep in Hclose.
Qed.

Lemma find_none c s :
  keep (Ascii.eqb c) s = "" -> py.find (String c "") s = None.
Proof.
  intros Hs. destruct (py.find (String c "") s) as [i|] eqn:Hfind;
    [|reflexivity].
  apply find_startswith, startswith_keep in Hfind.
  destruct Hfind. now apply keep_drop.
Qed.

Lemma rfind_none c s :
  keep (Ascii.eqb c) s = "" -> py.rfind (String c "") s = None.
Proof.
  intros Hs. destruct (py.rfind (String c "") s) as [i|] eqn:Hfind;
    [|reflexivity].
  apply rfind_startswith, startswith_keep in Hfind.
  destruct Hfind. now apply keep_drop.
Qed.

(** X25.  [extract_json_from_response] gives the JSON parser nothing but
    candidates that start with an opening brace and end with a closing
    brace, so that what it returns is a JSON object; and it raises its
    [ValueError], without a call to the parser, for a text that has no
    opening brace or no closing brace. The copy in process_questions_v2.py
    is the same function. *)
Theorem extract_json_from_response_candidates {A : Type}
    (loads : string -> option A) (text : string) :
  extract_json_from_response loads text
    = extract_json_from_response (between_braces loads) text /\
  (keep (Ascii.eqb "{"%char) text = "" \/ keep (Ascii.eqb "}"%char) text = ""
   -> forall parser : string -> option A,
      extract_json_from_response parser text = None) /\
  process_questions_v2.extract_json_from_response loads text
    = extract_json_from_response loads text.
Proof.
  split; [|split; [|reflexivity]].
  - unfold extract_json_from_response.
    rewrite <- code_blocks_between_braces.
    destruct (py.find "{" text) as [i|] eqn:Hi; [|reflexivity].
    destruct (py.rfind "}" text) as [j|] eqn:Hj; [|reflexivity].
    destruct (Nat.ltb_spec i j) as [Hlt|_]; [|reflexivity].
    unfold between_braces.
    now rewrite (slice_between_braces text i j Hi Hj Hlt).
  - intros Hnone parser. unfold extract_json_from_response.
    assert (Hfirst : match py.find "{" text, py.rfind "}" text with
                     | Some start, Some end_ =>
                         if (start <? end_)%nat
                         then parser (py.slice start (end_ + 1) text)
                         else None
                     | _, _ => None
                     end = None).
    { destruct Hnone as [Hnone|Hnone].
      - now rewrite (find_none _ _ Hnone).
      - rewrite (rfind_none _ _ Hnone). now destruct (py.find "{" text). }
    rewrite Hfirst. destruct (py.contains _ text); [|reflexivity].
    destruct Hnone as [Hnone|Hnone].
    + apply (code_blocks_no_brace parser "{"%char); [now left|].
      apply keep_split_on; [exact Hnone | constructor].
    + apply (code_blocks_no_brace parser "}"%char); [now right|].
      apply keep_split_on; [exact Hnone | constructor].
Qed.

End ExtractJson.

(** * The code on the answers as they come *)

(** ** The completeness check *)

Section UntypedCompleteness.

Import json untyped untyped_properties.
Local Open Scope outcome_scope.

(** Once the required keys are there, the reasons are those of the checks
    of the other rules, in their order. *)
Lemma validate_checks question :
  missing_fields question = [] ->
  validate_question_completeness question
  = (reasons <- collect checked_rules question;;
     Return ((List.length reasons =? 0)%nat, reasons)).
Proof.
  intros Hmissing. unfold validate_question_completeness.
  rewrite Hmissing. cbn [List.length Nat.eqb negb app].
  unfold checked_rules, collect, check, question_text_of, options_of,
    correct_option_of, steps_of.
  repeat match goal with
         | |- context [bind ?m _] =>
             lazymatch m with
             | bind _ _ => fail
             | Return _ => fail
             | _ => destruct m; cbn [bind]; try reflexivity
             end
         end.
  cbn [bind]. rewrite ?app_nil_r, <- ?app_assoc. reflexivity.
Qed.

Lemma placeholder_errors_spec patterns text_lower :
  (placeholder_errors patterns text_lower = [] /\
   forall pattern compiled,
     In (pattern, compiled) patterns -> re.found compiled text_lower = false)
  \/ (exists pattern compiled,
        placeholder_errors patterns text_lower = [PlaceholderPattern pattern]
        /\ In (pattern, compiled) patterns
        /\ re.found compiled text_lower = true).
Proof.
  induction patterns as [|[pattern compiled] patterns IH].
  - left. split; [reflexivity | intros ? ? []].
  - cbn [placeholder_errors].
    destruct (re.found compiled text_lower) eqn:Hfound.
    + right. exists pattern, compiled. repeat split; [now left | exact Hfound].
    + destruct IH as [[Hnil Hall]|(p & c & Herr & Hin & Hp)].
      * left. split; [exact Hnil|].
        intros p c [[= <- <-]|Hin]; [exact Hfound | now apply (Hall p c)].
      * right. exists p, c. repeat split; [exact Herr | now right | exact Hp].
Qed.

Lemma text_decides question :
  decides QuestionText question (check QuestionText question).
Proof.
  unfold decides, check. cbn [holds]. unfold text_complete.
  destruct (question_text_of question) as [|b|n|f|s|items|d];
    cbn [len lower bind];
    try (split; [intros (text & [=] & _) | tauto]).
  destruct (placeholder_errors_spec config.PLACEHOLDER_PATTERNS (py.lower s))
    as [[-> Hall]|(p & c & -> & Hin & Hfound)].
  - rewrite app_nil_r. destruct (Nat.ltb_spec (py.len s) 50) as [Hlt|Hge].
    + right. split; [discriminate|]. split.
      * intros (text & [= <-] & Hlen & _). lia.
      * now repeat constructor.
    + left. split; [reflexivity|]. exists s. now repeat split.
  - right. split; [now destruct (_ <? _)%nat|]. split.
    + intros (text & [= <-] & _ & Hall).
      rewrite (Hall p c Hin) in Hfound. discriminate.
    + destruct (_ <? _)%nat; now repeat constructor.
Qed.

(** The ids of the options: every option is a dict. *)
Lemma option_ids_spec items :
  match option_ids items with
  | Return ids =>
      Forall (fun opt => exists d, opt = Dict d) items /\
      ids = List.map option_id items
  | Raise e =>
      e = AttributeError /\
      ~ Forall (fun opt => exists d, opt = Dict d) items
  end.
Proof.
  induction items as [|opt items IH]; [now split|].
  cbn [option_ids].
  destruct opt as [|b|n|f|s|l|d]; cbn [get bind];
    try (split; [reflexivity|];
         intros Hall; apply Forall_cons in Hall as [[d [=]] _]).
  destruct (option_ids items) as [ids|e]; cbn [bind].
  - destruct IH as [Hall ->]. split; [|reflexivity].
    constructor; [now exists d | exact Hall].
  - destruct IH as [-> Hnot]. split; [reflexivity|].
    intros Hall. apply Forall_cons in Hall as [_ Hall]. now apply Hnot.
Qed.

Lemma is_str_spec v s : is_str v s = true <-> v = Str s.
Proof.
  destruct v as [|b|n|f|t|l|d]; cbn; try (split; [discriminate|intros [=]]).
  rewrite String.eqb_eq. split; [now intros -> | now intros [= ->]].
Qed.

Lemma in_letters v :
  existsb (is_str v) ABCD = true <-> In v (List.map Str ABCD).
Proof.
  rewrite existsb_exists, List.in_map_iff. split.
  - intros (letter & Hin & Hv). apply is_str_spec in Hv. now exists letter.
  - intros (letter & <- & Hin). exists letter.
    split; [exact Hin | now apply is_str_spec].
Qed.

Lemma ids_differ_spec ids :
  match ids_differ ids with
  | Return differ =>
      differ = false <->
      forall id, In id ids <-> In id (List.map Str ABCD)
  | Raise e =>
      e = TypeError /\
      ~ (forall id, In id ids -> In id (List.map Str ABCD))
  end.
Proof.
  unfold ids_differ. destruct (forallb hashable ids) eqn:Hhash.
  - rewrite negb_false_iff, andb_true_iff, !forallb_forall. split.
    + intros [Hsub Hsup] id. split.
      * intros Hin. now apply in_letters, Hsub.
      * intros Hin. apply List.in_map_iff in Hin as (letter & <- & Hletter).
        specialize (Hsup letter Hletter).
        apply existsb_exists in Hsup as (id & Hid & Heq).
        apply is_str_spec in Heq. now subst id.
    + intros Hiff. split.
      * intros id Hin. now apply in_letters, Hiff.
      * intros letter Hletter. apply existsb_exists. exists (Str letter).
        split; [|now apply is_str_spec].
        apply Hiff, List.in_map_iff. now exists letter.
  - split; [reflexivity|]. intros Hsub.
    assert (Hall : forallb hashable ids = true); [|congruence].
    apply forallb_forall. intros id Hin.
    apply Hsub, List.in_map_iff in Hin as (letter & <- & _). reflexivity.
Qed.

Lemma option_placeholder_errors_spec items :
  let fine opt :=
    exists opt_text,
      get opt "text" (Str "") = Return (Str opt_text) /\
      placeholder_text (py.lower opt_text) = false in
  match option_placeholder_errors items with
  | Return errors =>
      (errors = [] /\ Forall fine items)
      \/ (exists id, errors = [PlaceholderInOption id]) /\ ~ Forall fine items
  | Raise e => e = AttributeError /\ ~ Forall fine items
  end.
Proof.
  intros fine. induction items as [|opt items IH].
  - left. now split.
  - cbn [option_placeholder_errors].
    assert (Hhead : forall P : Prop,
               ~ fine opt -> ~ Forall fine (opt :: items)).
    { intros _ Hnot Hall. now apply Forall_cons in Hall as [? _]. }
    destruct (get opt "text" (Str "")) as [text|e] eqn:Hget; cbn [bind].
    2:{ assert (e = AttributeError) as ->
          by (destruct opt; cbn in Hget; congruence).
        split; [reflexivity|]. apply (Hhead True).
        intros (t & Ht & _). congruence. }
    destruct text as [|b|n|f|s|l|d]; cbn [lower bind];
      try (split; [reflexivity|]; apply (Hhead True);
           intros (t & Ht & _); congruence).
    fold (placeholder_text (py.lower s)).
    destruct (placeholder_text (py.lower s)) eqn:Hplace.
    + destruct (get opt "id" Null) as [id|e] eqn:Hid; cbn [bind].
      * right. split; [now exists id|]. apply (Hhead True).
        intros (t & Ht' & Ht). congruence.
      * destruct opt; discriminate.
    + destruct (option_placeholder_errors items) as [errors|e].
      * destruct IH as [[-> Hall]|[Herr Hnot]].
        -- left. split; [reflexivity|]. constructor; [|exact Hall].
           now exists s.
        -- right. split; [exact Herr|]. intros Hall.
           apply Forall_cons in Hall as [_ Hall]. now apply Hnot.
      * destruct IH as [-> Hnot]. split; [reflexivity|]. intros Hall.
        apply Forall_cons in Hall as [_ Hall]. now apply Hnot.
Qed.

Lemma options_decides question :
  decides Options question (check Options question).
Proof.
  unfold decides, check, option_errors. cbn [holds].
  unfold four_ABCD, no_placeholder_option.
  assert (Hrule : forall errors : list Reason,
            Forall (fun reason => rule_of reason = Options) errors ->
            errors <> [] ->
            (~ exists options, options_of question = List options) ->
            (errors = [] /\
             (exists options,
                options_of question = List options /\
                List.length options = 4%nat /\
                Forall (fun opt => exists d, opt = Dict d) options /\
                forall id,
                  In id (List.map option_id options)
                  <-> In id (List.map Str ABCD)) /\
             no_placeholder_option (options_of question))
            \/ (errors <> [] /\
                ~ ((exists options,
                      options_of question = List options /\
                      List.length options = 4%nat /\
                      Forall (fun opt => exists d, opt = Dict d) options /\
                      forall id,
                        In id (List.map option_id options)
                        <-> In id (List.map Str ABCD)) /\
                   no_placeholder_option (options_of question)) /\
                Forall (fun reason => rule_of reason = Options) errors)).
  { intros errors Hall Hne Hnot. right. split; [exact Hne|].
    split; [|exact Hall]. intros [(options & Heq & _) _].
    apply Hnot. now exists options. }
  unfold no_placeholder_option in Hrule.
  destruct (options_of question) as [|b|n|f|s|items|d];
    cbn [len bind];
    try (split; [intros [(options & [=] & _) _] | now left]).
  - (* a string *)
    destruct (Nat.eqb_spec (py.len s) 4) as [Hlen|Hlen]; cbn [negb].
    + destruct s as [|c s]; [discriminate|]. cbn.
      split; [intros [(options & [=] & _) _] | now right].
    + apply Hrule; [now repeat constructor | discriminate |].
      intros (options & [=]).
  - (* a list *)
    destruct (Nat.eqb_spec (List.length items) 4) as [Hlen|Hlen]; cbn [negb].
    2:{ right. split; [discriminate|]. split; [|now repeat constructor].
        intros [(options & [= <-] & Hfour & _) _]. contradiction. }
    cbn [iter bind].
    pose proof (option_ids_spec items) as Hids.
    destruct (option_ids items) as [ids|e]; cbn [bind].
    2:{ destruct Hids as [-> Hnot]. split; [|now right].
        intros [(options & [= <-] & _ & Hdicts & _) _]. contradiction. }
    destruct Hids as [Hdicts ->].
    pose proof (ids_differ_spec (List.map option_id items)) as Hdiffer.
    destruct (ids_differ _) as [differ|e]; cbn [bind].
    2:{ destruct Hdiffer as [-> Hnot]. split; [|now left].
        intros [(options & [= <-] & _ & _ & Hiff) _]. apply Hnot.
        intros id. apply Hiff. }
    pose proof (option_placeholder_errors_spec items) as Hplace.
    cbv zeta in Hplace.
    destruct (option_placeholder_errors items) as [errors|e]; cbn [bind].
    2:{ destruct Hplace as [-> Hnot]. split; [|now right].
        intros [_ (options & [= <-] & Hfine)]. contradiction. }
    destruct differ.
    + right. split; [discriminate|]. split.
      * intros [(options & [= <-] & _ & _ & Hiff) _].
        apply Hdiffer in Hiff. discriminate.
      * constructor; [reflexivity|].
        destruct Hplace as [[-> _]|[[id ->] _]]; now repeat constructor.
    + destruct Hplace as [[-> Hfine]|[[id ->] Hnot]]; cbn [app].
      * left. split; [reflexivity|]. split.
        -- exists items. repeat split; try assumption;
             now apply (proj1 Hdiffer eq_refl).
        -- now exists items.
      * right. split; [discriminate|]. split; [|now repeat constructor].
        intros [_ (options & [= <-] & Hfine)]. contradiction.
  - (* a dict *)
    destruct (Nat.eqb_spec (size d) 4) as [Hlen|Hlen]; cbn [negb].
    + cbn [iter bind]. rewrite <- length_map_to_list in Hlen.
      destruct (map_to_list d) as [|[key item] rest]; [discriminate|].
      cbn. split; [intros [(options & [=] & _) _] | now right].
    + apply Hrule; [now repeat constructor | discriminate |].
      intros (options & [=]).
Qed.

Lemma correct_option_decides question :
  decides CorrectOption question (check CorrectOption question).
Proof.
  unfold decides, check, correct_option_errors. cbn [holds].
  unfold letter_ABCD.
  destruct (existsb _ ABCD) eqn:Hex.
  - left. split; [reflexivity|].
    apply in_letters, List.in_map_iff in Hex as (letter & <- & Hin).
    now exists letter.
  - right. split; [discriminate|]. split; [|now repeat constructor].
    intros (letter & Hin & Heq).
    assert (existsb (is_str (correct_option_of question)) ABCD = true);
      [|congruence].
    apply in_letters, List.in_map_iff. now exists letter.
Qed.

(** The check of a name of the classification. *)
Lemma name_decides classification key placeholder (reason : Reason) :
  let name :=
    match classification with
    | Dict c => get_item c key (Str "")
    | _ => Null
    end in
  match
    (name <- get classification key (Str "");;
     missing <- missing_or_placeholder name placeholder;;
     Return (if missing then [reason] else []))
  with
  | Return errors =>
      (errors = [] /\ named placeholder name)
      \/ (errors = [reason] /\ ~ named placeholder name)
  | Raise e =>
      ~ named placeholder name /\ (e = TypeError \/ e = AttributeError)
  end.
Proof.
  unfold named.
  destruct classification as [|b|n|f|s|l|c]; cbn [get bind];
    try (split; [intros (name & [=] & _) | now right]).
  unfold missing_or_placeholder.
  destruct (get_item c key (Str "")) as [|b|n|f|s|l|d];
    cbn [truthy negb lower bind];
    try (right; split; [reflexivity|]; intros (name & [=] & _)).
  - destruct b; cbn [negb bind].
    + split; [intros (name & [=] & _) | now right].
    + right. split; [reflexivity|]. intros (name & [=] & _).
  - destruct (n =? 0); cbn [negb bind].
    + right. split; [reflexivity|]. intros (name & [=] & _).
    + split; [intros (name & [=] & _) | now right].
  - destruct f; cbn [negb bind];
      first [ right; split; [reflexivity|]; intros (name & [=] & _)
            | split; [intros (name & [=] & _) | now right] ].
  - destruct (String.eqb_spec s "") as [->|Hne]; cbn [negb bind].
    + right. split; [reflexivity|]. intros (name & [= <-] & Hname & _).
      now apply Hname.
    + cbn [existsb]. rewrite orb_false_r.
      destruct (String.eqb_spec (py.lower s) "unknown") as [Hu|Hu];
        cbn [orb].
      * right. split; [reflexivity|].
        intros (name & [= <-] & _ & Hname & _). now apply Hname.
      * destruct (String.eqb_spec (py.lower s) placeholder) as [Hp|Hp].
        -- right. split; [reflexivity|].
           intros (name & [= <-] & _ & _ & Hname). now apply Hname.
        -- left. split; [reflexivity|]. now exists s.
  - destruct (List.length l =? 0)%nat; cbn [negb bind].
    + right. split; [reflexivity|]. intros (name & [=] & _).
    + split; [intros (name & [=] & _) | now right].
  - destruct (size d =? 0)%nat; cbn [negb bind].
    + right. split; [reflexivity|]. intros (name & [=] & _).
    + split; [intros (name & [=] & _) | now right].
Qed.

Lemma len_raises v e : len v = Raise e -> e = TypeError.
Proof. destruct v; cbn; congruence. Qed.

(** A value that has a length is true when its length is not zero, and
    can be iterated. *)
Lemma truthy_len v n : len v = Return n -> truthy v = negb (n =? 0)%nat.
Proof.
  destruct v as [|b|k|f|s|l|d]; cbn; try discriminate; intros [= <-];
    try reflexivity.
  now destruct s.
Qed.

Lemma iter_len v n : len v = Return n -> exists items, iter v = Return items.
Proof.
  destruct v as [|b|k|f|s|l|d]; cbn; try discriminate; intros _;
    now eexists.
Qed.

Lemma two_items_spec v :
  match len v with
  | Return n => two_items v <-> (2 <= n)%nat
  | Raise _ => ~ two_items v
  end.
Proof.
  unfold two_items. destruct (len v) as [n|e].
  - split; [now intros (k & [= <-] & Hk) | now exists n].
  - now intros (k & [=] & _).
Qed.

Lemma any_placeholder_tag_spec tags :
  let fine tag :=
    concept_in_str tag = true ->
    exists s, tag = Str s /\ py.startswith "concept" (py.lower s) = true in
  match any_placeholder_tag tags with
  | Return false => Forall fine tags
  | Return true => ~ Forall fine tags
  | Raise e => e = AttributeError /\ ~ Forall fine tags
  end.
Proof.
  intros fine. induction tags as [|tag tags IH]; [constructor|].
  cbn [any_placeholder_tag]. unfold placeholder_tag.
  assert (Hhead : ~ fine tag -> ~ Forall fine (tag :: tags)).
  { intros Hnot Hall. now apply Forall_cons in Hall as [? _]. }
  assert (Htail : ~ Forall fine tags -> ~ Forall fine (tag :: tags)).
  { intros Hnot Hall. now apply Forall_cons in Hall as [_ ?]. }
  assert (Hrest : fine tag ->
            match any_placeholder_tag tags with
            | Return false => Forall fine (tag :: tags)
            | Return true => ~ Forall fine (tag :: tags)
            | Raise e => e = AttributeError /\ ~ Forall fine (tag :: tags)
            end).
  { intros Hfine. destruct (any_placeholder_tag tags) as [[|]|e].
    - now apply Htail.
    - now constructor.
    - destruct IH as [-> Hnot]. split; [reflexivity | now apply Htail]. }
  destruct (concept_in_str tag) eqn:Hconcept; cbn [bind].
  2:{ apply Hrest. unfold fine. intros Htrue. congruence. }
  destruct tag as [|b|n|f|s|l|d]; cbn [lower bind];
    try (split; [reflexivity|]; apply Hhead; unfold fine; intros Hfine;
         destruct (Hfine Hconcept) as (s & [=] & _)).
  destruct (py.startswith "concept" (py.lower s)) eqn:Hstart; cbn [negb].
  - apply Hrest. intros _. now exists s.
  - apply Hhead. unfold fine. intros Hfine.
    destruct (Hfine Hconcept) as (s' & [= <-] & Hs). congruence.
Qed.

Lemma concept_tags_decides question :
  decides ConceptTags question (check ConceptTags question).
Proof.
  unfold decides, check. cbn [holds].
  unfold concept_tags_of, classified, no_placeholder_tag.
  destruct (get_item question "classification" (Dict ∅))
    as [|b|n|f|s|l|c]; cbn [get bind];
    try (split; [intros [(k & [=] & _) _] | now right]).
  set (v := get_item c "conceptTags" (List [])).
  unfold concept_tag_errors.
  pose proof (two_items_spec v) as Htwo.
  pose proof (truthy_len v) as Htruthy.
  pose proof (iter_len v) as Hiter.
  destruct (len v) as [n|e] eqn:Hlen.
  2:{ apply len_raises in Hlen as ->.
      destruct (truthy v); cbn [negb bind]; (split; [tauto | now left]). }
  rewrite (Htruthy n eq_refl), negb_involutive.
  destruct (Hiter n eq_refl) as [tags Htags].
  destruct (Nat.eqb_spec n 0) as [->|Hn]; cbn [bind].
  { right. split; [discriminate|]. split; [|now repeat constructor].
    intros [Hn _]. apply Htwo in Hn. lia. }
  destruct (Nat.ltb_spec n 2) as [Hlt|Hge].
  { right. split; [discriminate|]. split; [|now repeat constructor].
    intros [Hk _]. apply Htwo in Hk. lia. }
  rewrite Htags. cbn [bind].
  pose proof (any_placeholder_tag_spec tags) as Hany. cbv zeta in Hany.
  destruct (any_placeholder_tag tags) as [[|]|e]; cbn [bind].
  - right. split; [discriminate|]. split; [|now repeat constructor].
    intros [_ (tags' & [= <-] & Hfine)]. contradiction.
  - left. split; [reflexivity|]. split; [now apply Htwo | now exists tags].
  - destruct Hany as [-> Hnot]. split; [|now right].
    intros [_ (tags' & [= <-] & Hfine)]. contradiction.
Qed.

Lemma steps_decides question :
  decides Steps question (check Steps question).
Proof.
  unfold decides, check, step_errors. cbn [holds].
  pose proof (two_items_spec (steps_of question)) as Htwo.
  pose proof (truthy_len (steps_of question)) as Htruthy.
  destruct (len (steps_of question)) as [n|e] eqn:Hlen.
  - rewrite (Htruthy n eq_refl), negb_involutive.
    destruct (Nat.eqb_spec n 0) as [->|Hn]; cbn [bind].
    { right. split; [discriminate|]. split; [|now repeat constructor].
      intros Hk. apply Htwo in Hk. lia. }
    destruct (Nat.ltb_spec n 2) as [Hlt|Hge].
    + right. split; [discriminate|]. split; [|now repeat constructor].
      intros Hk. apply Htwo in Hk. lia.
    + left. split; [reflexivity | now apply Htwo].
  - apply len_raises in Hlen as ->.
    destruct (truthy (steps_of question)); cbn [negb bind].
    + split; [exact Htwo | now left].
    + right. split; [discriminate|]. split; [exact Htwo|].
      now repeat constructor.
Qed.

(** Every check decides its rule. *)
Lemma check_decides rule question :
  rule <> RequiredFields -> decides rule question (check rule question).
Proof.
  intros Hrule. destruct rule; try contradiction.
  - apply text_decides.
  - apply options_decides.
  - apply correct_option_decides.
  - unfold decides, check. cbn [holds]. unfold classified.
    pose proof (name_decides (get_item question "classification" (Dict ∅))
                  "chapter" "chapter name here" ChapterMissing) as Hname.
    cbv zeta in Hname.
    destruct (bind _ _) as [errors|e]; [|exact Hname].
    destruct Hname as [[-> Hname]|[-> Hname]]; [now left|].
    right. split; [discriminate|]. split; [exact Hname|].
    now repeat constructor.
  - unfold decides, check. cbn [holds]. unfold classified.
    pose proof (name_decides (get_item question "classification" (Dict ∅))
                  "topic" "topic name here" TopicMissing) as Hname.
    cbv zeta in Hname.
    destruct (bind _ _) as [errors|e]; [|exact Hname].
    destruct Hname as [[-> Hname]|[-> Hname]]; [now left|].
    right. split; [discriminate|]. split; [exact Hname|].
    now repeat constructor.
  - apply concept_tags_decides.
  - apply steps_decides.
Qed.

(** The reasons of the first loop: one for each required key that is
    absent. *)
Lemma missing_fields_spec question :
  (missing_fields question = [] <-> has_required_fields question) /\
  (forall field,
     In (MissingField field) (missing_fields question)
     <-> In field required_fields /\ question !! field = None) /\
  Forall (fun reason => rule_of reason = RequiredFields)
    (missing_fields question).
Proof.
  unfold missing_fields, has_required_fields.
  set (absent := fun field : string =>
                   match question !! field with
                   | Some _ => false
                   | None => true
                   end).
  assert (Habsent : forall field,
            absent field = true <-> question !! field = None).
  { intros field. unfold absent.
    destruct (question !! field); split; congruence. }
  split; [|split].
  - split.
    + intros Hnil field Hin.
      destruct (question !! field) as [v|] eqn:Hfield; [now exists v|].
      assert (Hmissing : In field (List.filter absent required_fields))
        by (apply List.filter_In; split; [exact Hin | now apply Habsent]).
      apply (List.in_map MissingField) in Hmissing.
      rewrite Hnil in Hmissing. destruct Hmissing.
    + intros Hall.
      destruct (List.filter absent required_fields) as [|field l] eqn:Hfilter;
        [reflexivity|].
      assert (Hin : In field (List.filter absent required_fields))
        by (rewrite Hfilter; now left).
      apply List.filter_In in Hin as [Hin Hnone].
      apply Habsent in Hnone. destruct (Hall field Hin) as [v Hv]. congruence.
  - intros field. rewrite List.in_map_iff. split.
    + intros (field' & [= ->] & Hin).
      apply List.filter_In in Hin as [Hin Hnone].
      split; [exact Hin | now apply Habsent].
    + intros [Hin Hnone]. exists field. split; [reflexivity|].
      apply List.filter_In. split; [exact Hin | now apply Habsent].
  - apply List.Forall_forall. intros reason Hin.
    apply List.in_map_iff in Hin as (field & <- & _). reflexivity.
Qed.

(** The checks of a list of rules give, when none of them raises, the
    reasons of the rules of the list that do not hold. *)
Lemma collect_spec question rules :
  Forall (fun rule => rule <> RequiredFields) rules ->
  match collect rules question with
  | Return reasons =>
      (forall reason,
         In reason reasons ->
         In (rule_of reason) rules /\ ~ holds (rule_of reason) question) /\
      (forall rule,
         In rule rules ->
         holds rule question
         \/ exists reason, In reason reasons /\ rule_of reason = rule)
  | Raise e =>
      (e = TypeError \/ e = AttributeError) /\
      exists rule, In rule rules /\ ~ holds rule question
  end.
Proof.
  induction 1 as [|rule rules Hrule Hrules IH].
  - cbn. split; [intros ? [] | intros ? []].
  - cbn [collect].
    pose proof (check_decides rule question Hrule) as Hcheck.
    unfold decides in Hcheck.
    destruct (check rule question) as [errors|e]; cbn [bind].
    2:{ destruct Hcheck as [Hnot He]. split; [exact He|].
        exists rule. split; [now left | exact Hnot]. }
    destruct (collect rules question) as [others|e]; cbn [bind].
    2:{ destruct IH as [He (rule' & Hin & Hnot)]. split; [exact He|].
        exists rule'. split; [now right | exact Hnot]. }
    destruct IH as [Hsound Hfull]. split.
    + intros reason Hin. apply in_app_or in Hin as [Hin|Hin].
      * destruct Hcheck as [[-> _]|(_ & Hnot & Hall)]; [destruct Hin|].
        rewrite (proj1 (List.Forall_forall _ _) Hall reason Hin).
        split; [now left | exact Hnot].
      * destruct (Hsound reason Hin) as [Hin' Hnot].
        split; [now right | exact Hnot].
    + intros rule' [<-|Hin].
      * destruct Hcheck as [[_ Hholds]|(Hne & _ & Hall)]; [now left|].
        right. destruct errors as [|reason errors]; [contradiction|].
        exists reason. split; [now left|].
        now apply Forall_cons in Hall as [? _].
      * destruct (Hfull rule' Hin) as [Hholds|(reason & Hreason & Heq)];
          [now left|].
        right. exists reason. split; [|exact Heq].
        apply in_or_app. now right.
Qed.

Lemma checked_rules_spec rule :
  rule = RequiredFields \/ In rule checked_rules.
Proof. destruct rule; cbn; tauto. Qed.

(** What the completeness check returns, and when it raises. *)
Lemma validate_spec question :
  match validate_question_completeness question with
  | Return (is_valid, reasons) =>
      is_valid = (List.length reasons =? 0)%nat /\
      (forall reason,
         In reason reasons -> ~ holds (rule_of reason) question) /\
      (has_required_fields question ->
       forall rule,
         holds rule question
         \/ exists reason, In reason reasons /\ rule_of reason = rule) /\
      (~ has_required_fields question ->
       reasons = missing_fields question /\ reasons <> [])
  | Raise e =>
      (e = TypeError \/ e = AttributeError) /\
      has_required_fields question /\
      exists rule, ~ holds rule question
  end.
Proof.
  destruct (missing_fields_spec question) as (Hnil & Hfields & Hall).
  destruct (missing_fields question) as [|reason missing] eqn:Hmissing.
  - pose proof (proj1 Hnil eq_refl) as Hrequired.
    rewrite (validate_checks _ Hmissing).
    assert (Hrules : Forall (fun rule => rule <> RequiredFields)
                       checked_rules) by (repeat constructor; discriminate).
    pose proof (collect_spec question checked_rules Hrules) as Hcollect.
    destruct (collect checked_rules question) as [reasons|e]; cbn [bind].
    + destruct Hcollect as [Hsound Hfull]. split; [reflexivity|].
      split; [intros reason Hin; now apply Hsound|].
      split; [|contradiction].
      intros _ rule. destruct (checked_rules_spec rule) as [->|Hin];
        [now left | now apply Hfull].
    + destruct Hcollect as [He (rule & _ & Hnot)].
      split; [exact He|]. split; [exact Hrequired | now exists rule].
  - unfold validate_question_completeness. rewrite Hmissing.
    cbn [List.length Nat.eqb negb].
    assert (Hnot : ~ has_required_fields question)
      by (intros Hrequired; apply Hnil in Hrequired; discriminate).
    split; [reflexivity|]. split.
    + intros reason' Hin.
      rewrite (proj1 (List.Forall_forall _ _) Hall reason' Hin). exact Hnot.
    + split; [contradiction|]. intros _. split; [reflexivity | discriminate].
Qed.

Lemma validate_invalid_first_reason record errors :
  validate_question_completeness record = Return (false, errors) ->
  errors <> [].
Proof.
  intros Hrun. pose proof (validate_spec record) as Hspec.
  rewrite Hrun in Hspec. destruct Hspec as [Hvalid _].
  intros ->. discriminate.
Qed.

Lemma validate_raises record e :
  validate_question_completeness record = Raise e ->
  e = TypeError \/ e = AttributeError.
Proof.
  intros Hrun. pose proof (validate_spec record) as Hspec.
  rewrite Hrun in Hspec. apply Hspec.
Qed.

(** On values of the types of the schema no check raises. *)
Lemma absent_or_get_item p d key default :
  absent_or p d key = true -> p default = true ->
  p (get_item d key default) = true.
Proof.
  unfold absent_or, get_item. now destruct (d !! key).
Qed.

Lemma absent_or_present p d key :
  absent_or p d key = true -> is_Some (d !! key) ->
  forall default, p (get_item d key default) = true.
Proof.
  unfold absent_or, get_item. intros Hp [v Hv] default.
  now rewrite Hv in *.
Qed.

Lemma is_string_spec v : is_string v = true -> exists s, v = Str s.
Proof. destruct v; try discriminate. now eexists. Qed.

Lemma is_list_of_spec p v :
  is_list_of p v = true ->
  exists items, v = List items /\ forallb p items = true.
Proof. destruct v; try discriminate. now eexists. Qed.

Lemma typed_option_ids items :
  forallb typed_option items = true ->
  exists ids,
    option_ids items = Return ids /\ forallb hashable ids = true.
Proof.
  induction items as [|opt items IH]; [now exists []|].
  cbn [forallb]. intros [Hopt Hitems]%andb_true_iff.
  destruct (IH Hitems) as (ids & Hids & Hhash).
  destruct opt as [|b|n|f|s|l|d]; try discriminate.
  apply andb_true_iff in Hopt as [Hid _].
  exists (get_item d "id" Null :: ids). cbn [option_ids get bind].
  rewrite Hids. split; [reflexivity|]. cbn [forallb]. rewrite Hhash.
  unfold absent_or in Hid. unfold get_item.
  destruct (d !! "id") as [[]|]; cbn in *; congruence.
Qed.

Lemma typed_option_placeholders items :
  forallb typed_option items = true ->
  exists errors, option_placeholder_errors items = Return errors.
Proof.
  induction items as [|opt items IH]; [now exists []|].
  cbn [forallb]. intros [Hopt Hitems]%andb_true_iff.
  destruct (IH Hitems) as (errors & Herrors).
  destruct opt as [|b|n|f|s|l|d]; try discriminate.
  apply andb_true_iff in Hopt as [_ Htext].
  apply (absent_or_get_item _ _ _ (Str "")), is_string_spec in Htext
    as [text Htext]; [|reflexivity].
  cbn [option_placeholder_errors get bind]. rewrite Htext.
  cbn [lower bind]. destruct (_ || _); [now eexists|].
  now exists errors.
Qed.

Lemma typed_tags tags :
  forallb is_string tags = true ->
  exists found, any_placeholder_tag tags = Return found.
Proof.
  induction tags as [|tag tags IH]; [now exists false|].
  cbn [forallb]. intros [Htag Htags]%andb_true_iff.
  destruct (IH Htags) as (found & Hfound).
  apply is_string_spec in Htag as [s ->].
  cbn [any_placeholder_tag]. unfold placeholder_tag.
  destruct (concept_in_str (Str s)); cbn [lower bind].
  - destruct (negb _); [now exists true | now exists found].
  - now exists found.
Qed.

Lemma typed_name c key placeholder (reason : Reason) :
  absent_or is_string c key = true ->
  exists errors,
    (name <- get (Dict c) key (Str "");;
     missing <- missing_or_placeholder name placeholder;;
     Return (if missing then [reason] else []))
    = Return errors.
Proof.
  intros Hname.
  apply (absent_or_get_item _ _ _ (Str "")), is_string_spec in Hname
    as [name Hname]; [|reflexivity].
  cbn [get bind]. rewrite Hname. unfold missing_or_placeholder.
  cbn [truthy]. destruct (negb (negb _)); cbn [lower bind]; now eexists.
Qed.

Lemma typed_check rule question :
  schema_typed question = true ->
  has_required_fields question ->
  exists errors, check rule question = Return errors.
Proof.
  unfold schema_typed. rewrite !andb_true_iff.
  intros [[[Htext Hoptions] Hclass] Hsteps] Hrequired.
  assert (Hdict : exists c,
            get_item question "classification" (Dict ∅) = Dict c /\
            typed_classification (Dict c) = true).
  { pose proof (absent_or_present _ _ _ Hclass
                  (Hrequired "classification" ltac:(cbn; tauto)) (Dict ∅))
      as Htyped.
    destruct (get_item question "classification" (Dict ∅));
      try discriminate.
    now eexists. }
  destruct Hdict as (c & Hc & Htyped). cbn [typed_classification] in Htyped.
  rewrite !andb_true_iff in Htyped.
  destruct Htyped as [[Hchapter Htopic] Htags].
  destruct rule; cbn [check].
  - now eexists.
  - pose proof (absent_or_present _ _ _ Htext
                  (Hrequired "questionText" ltac:(cbn; tauto)) (Str ""))
      as Hs.
    apply is_string_spec in Hs as [s Hs]. unfold question_text_of.
    rewrite Hs. cbn [len lower bind]. now eexists.
  - pose proof (absent_or_present _ _ _ Hoptions
                  (Hrequired "options" ltac:(cbn; tauto)) (List []))
      as Hitems.
    apply is_list_of_spec in Hitems as (items & Hitems & Htyped).
    unfold options_of, option_errors. rewrite Hitems. cbn [len bind].
    destruct (negb _); [now eexists|]. cbn [iter bind].
    destruct (typed_option_ids items Htyped) as (ids & -> & Hhash).
    cbn [bind]. unfold ids_differ. rewrite Hhash. cbn [bind].
    destruct (typed_option_placeholders items Htyped) as (errors & ->).
    cbn [bind]. now eexists.
  - now eexists.
  - rewrite Hc. now apply typed_name.
  - rewrite Hc. now apply typed_name.
  - rewrite Hc. cbn [get bind].
    apply (absent_or_get_item _ _ _ (List [])), is_list_of_spec in Htags
      as (tags & -> & Hstrings); [|reflexivity].
    unfold concept_tag_errors. cbn [truthy len bind].
    destruct (negb (negb _)); cbn [bind]; [now eexists|].
    destruct (_ <? 2)%nat; [now eexists|]. cbn [iter bind].
    destruct (typed_tags tags Hstrings) as (found & ->). cbn [bind].
    now eexists.
  - unfold steps_of, step_errors.
    apply (absent_or_get_item _ _ _ (List [])), is_list_of_spec in Hsteps
      as (steps & -> & _); [|reflexivity].
    cbn [truthy len bind]. destruct (negb (negb _)); now eexists.
Qed.

Lemma typed_collect question rules :
  schema_typed question = true ->
  has_required_fields question ->
  exists reasons, collect rules question = Return reasons.
Proof.
  intros Htyped Hrequired. induction rules as [|rule rules IH].
  - now exists [].
  - cbn [collect].
    destruct (typed_check rule question Htyped Hrequired) as (errors & ->).
    destruct IH as (others & ->). cbn [bind]. now eexists.
Qed.

(** The completeness check returns on every record of the types of the
    schema. *)
Lemma validate_typed question :
  schema_typed question = true ->
  exists is_valid reasons,
    validate_question_completeness question = Return (is_valid, reasons).
Proof.
  intros Htyped.
  destruct (missing_fields question) as [|reason missing] eqn:Hmissing.
  - rewrite (validate_checks _ Hmissing).
    destruct (typed_collect question checked_rules Htyped) as (reasons & ->).
    + now apply missing_fields_spec.
    + cbn [bind]. now eexists _, _.
  - unfold validate_question_completeness. rewrite Hmissing.
    cbn [List.length Nat.eqb negb]. now eexists _, _.
Qed.

Lemma has_required_fields_dec question :
  has_required_fields question \/ ~ has_required_fields question.
Proof.
  destruct (missing_fields_spec question) as (Hnil & _).
  destruct (missing_fields question); [left; now apply Hnil|].
  right. intros Hrequired. apply Hnil in Hrequired. discriminate.
Qed.




End UntypedCompleteness.

(** ** The run of the orchestrator *)

Section UntypedOrchestrator.

Import json untyped untyped_properties.
Import process_questions_v2 (Progress, last_completed_batch,
  next_question_index, processed_question_ids, fresh_progress, batch_file).
Local Open Scope outcome_scope.

Lemma setdefault_same key default d :
  is_Some (setdefault key default d !! key).
Proof.
  unfold setdefault. destruct (d !! key) as [v|] eqn:Hkey.
  - rewrite Hkey. now exists v.
  - rewrite lookup_insert_eq. now exists default.
Qed.

Lemma setdefault_other key default d key' :
  key <> key' -> setdefault key default d !! key' = d !! key'.
Proof.
  intros Hne. unfold setdefault. destruct (d !! key); [reflexivity|].
  now apply lookup_insert_ne.
Qed.

Lemma setdefault_keeps key default d key' :
  is_Some (d !! key') -> is_Some (setdefault key default d !! key').
Proof.
  intros Hsome. destruct (String.eqb_spec key key') as [->|Hne].
  - apply setdefault_same.
  - now rewrite setdefault_other.
Qed.

(** The record that [call_perplexity_api] returns has the three keys that
    it fills in. *)
Lemma ensure_required_fields_v2_keys question result :
  let record := ensure_required_fields_v2 question result in
  is_Some (record !! "id") /\
  is_Some (record !! "questionNumber") /\
  is_Some (record !! "questionText").
Proof.
  unfold ensure_required_fields_v2. cbv zeta. split; [|split].
  - do 2 apply setdefault_keeps. apply setdefault_same.
  - apply setdefault_keeps. apply setdefault_same.
  - apply setdefault_same.
Qed.

Lemma something d key : is_Some (d !! key) -> is_nothing (Some d) = false.
Proof.
  intros [v Hv]. cbn. rewrite negb_involutive. apply Nat.eqb_neq.
  intros Hsize. apply map_size_empty_iff in Hsize. subst d.
  now rewrite lookup_empty in Hv.
Qed.

Lemma absent_or_setdefault p key default d key' :
  key <> key' ->
  absent_or p (setdefault key default d) key' = absent_or p d key'.
Proof. intros Hne. unfold absent_or. now rewrite setdefault_other. Qed.

(** Filling in the three keys keeps the types of the schema. *)
Lemma ensure_required_fields_v2_typed question result :
  schema_typed (ensure_required_fields_v2 question result)
  = schema_typed result.
Proof.
  assert (Hother : forall p key,
            "id" <> key -> "questionNumber" <> key -> "questionText" <> key ->
            absent_or p (ensure_required_fields_v2 question result) key
            = absent_or p result key).
  { intros p key Hid Hnumber Htext. unfold ensure_required_fields_v2.
    cbv zeta. now rewrite !absent_or_setdefault. }
  unfold schema_typed.
  rewrite (Hother _ "options"), (Hother _ "classification"),
    (Hother _ "stepByStep") by (intro; discriminate).
  do 3 f_equal.
  unfold ensure_required_fields_v2, absent_or. cbv zeta.
  unfold setdefault at 1.
  rewrite !(setdefault_other "questionNumber" _ _ "questionText"),
    !(setdefault_other "id" _ _ "questionText") by (intro; discriminate).
  destruct (result !! "questionText") as [v|] eqn:Htext.
  - rewrite !setdefault_other, Htext by (intro; discriminate). reflexivity.
  - now rewrite lookup_insert_eq.
Qed.

(** What the retry loop returns comes from a parsed answer of the service,
    and the service is left with the answers that were not asked for. *)
Lemma attempts_v2_spec n question : forall tracker service,
  match attempts_v2 n question tracker service with
  | (structured, _, service') =>
      (exists k, service' = List.skipn k service) /\
      forall record,
        structured = Some record ->
        exists i o result,
          In (AttemptParsed i o result) service /\
          record = ensure_required_fields_v2 question result
  end.
Proof.
  induction n as [|n IH]; intros tracker service.
  - cbn. split; [now exists 0%nat | discriminate].
  - cbn [attempts_v2].
    assert (Hrest : forall tracker' outcome rest,
              service = outcome :: rest \/ service = [] /\ rest = [] ->
              match attempts_v2 n question tracker' rest with
              | (structured, _, service') =>
                  (exists k, service' = List.skipn k service) /\
                  forall record,
                    structured = Some record ->
                    exists i o result,
                      In (AttemptParsed i o result) service /\
                      record = ensure_required_fields_v2 question result
              end).
    { intros tracker' outcome rest Hservice.
      specialize (IH tracker' rest).
      destruct (attempts_v2 n question tracker' rest)
        as [[structured tracker''] service'].
      destruct IH as [[k Hk] Hrecord]. split.
      - destruct Hservice as [->|[-> ->]].
        + now exists (S k).
        + exists 0%nat. rewrite Hk. now destruct k.
      - intros record Hsome.
        destruct (Hrecord record Hsome) as (i & o & result & Hin & Heq).
        exists i, o, result. split; [|exact Heq].
        destruct Hservice as [->|[-> ->]]; [now right | exact Hin]. }
    destruct service as [|outcome rest]; cbn [request].
    { apply (Hrest _ AttemptError). now right. }
    destruct outcome as [|i o|i o result].
    + apply (Hrest _ AttemptError). now left.
    + apply (Hrest _ (AttemptUnparsed i o)). now left.
    + split; [now exists 1%nat|].
      intros record [= <-]. exists i, o, result. split; [now left|].
      reflexivity.
Qed.

Lemma call_perplexity_api_spec question max_retries tracker service :
  match call_perplexity_api question max_retries tracker service with
  | (structured, _, service') =>
      (exists k, service' = List.skipn k service) /\
      forall record,
        structured = Some record ->
        is_nothing (Some record) = false /\
        exists i o result,
          In (AttemptParsed i o result) service /\
          record = ensure_required_fields_v2 question result
  end.
Proof.
  unfold call_perplexity_api.
  pose proof (attempts_v2_spec (Z.to_nat max_retries) question tracker
                service) as Hspec.
  destruct (attempts_v2 _ _ _ _) as [[structured tracker'] service'].
  destruct Hspec as [Hk Hrecord]. split; [exact Hk|].
  intros record Hsome. split; [|now apply Hrecord].
  destruct (Hrecord record Hsome) as (i & o & result & _ & ->).
  apply (something _ "id"), ensure_required_fields_v2_keys.
Qed.

Lemma in_skipn {A : Type} (x : A) k l : In x (List.skipn k l) -> In x l.
Proof.
  revert l. induction k as [|k IH]; intros l; [trivial|].
  destruct l as [|y l]; [trivial|]. cbn. intros Hin. right. now apply IH.
Qed.

(** A parsed answer of the service that is not of the types of the
    schema. *)
Lemma validate_raises_untyped question result e :
  validate_question_completeness (ensure_required_fields_v2 question result)
    = Raise e ->
  schema_typed result = false.
Proof.
  intros Hraise. destruct (schema_typed result) eqn:Htyped; [|reflexivity].
  rewrite <- (ensure_required_fields_v2_typed question) in Htyped.
  destruct (validate_typed _ Htyped) as (is_valid & reasons & Hrun).
  congruence.
Qed.

(** A record of a batch: what stops the run. *)
Lemma process_question_stops max_retries dry_run q run batch_results :
  match process_question max_retries dry_run q run batch_results with
  | Done (run', _) =>
      exists k, service (world run') = List.skipn k (service (world run))
  | Aborted e w' =>
      dry_run = false /\
      (e = TypeError \/ e = AttributeError) /\
      exists i o result,
        In (AttemptParsed i o result) (service (world run)) /\
        schema_typed result = false
  end.
Proof.
  unfold process_question.
  destruct (existsb _ _); [now exists 0%nat|].
  destruct (negb _); [now exists 0%nat|].
  destruct dry_run; [now exists 0%nat|].
  pose proof (call_perplexity_api_spec q max_retries (tracker run)
                (service (world run))) as Hcall.
  destruct (call_perplexity_api _ _ _ _) as [[[record|] tracker'] service'];
    destruct Hcall as [Hk Hrecord]; [|exact Hk].
  destruct (Hrecord record eq_refl)
    as (-> & i & o & result & Hin & ->).
  pose proof (validate_raises_untyped q result) as Huntyped.
  pose proof (validate_raises (ensure_required_fields_v2 q result))
    as Hclass.
  pose proof (validate_invalid_first_reason
                (ensure_required_fields_v2 q result)) as Hfirst.
  destruct (validate_question_completeness _)
    as [[[|] errors]|e]; cbn [negb].
  - exact Hk.
  - destruct errors as [|error errors]; [now destruct (Hfirst [])|].
    exact Hk.
  - split; [reflexivity|]. split; [now apply Hclass|].
    exists i, o, result. split; [exact Hin | now apply (Huntyped e)].
Qed.

Lemma process_records_stops max_retries dry_run batch :
  forall run batch_results,
  match process_records max_retries dry_run batch run batch_results with
  | Done (run', _) =>
      exists k, service (world run') = List.skipn k (service (world run))
  | Aborted e w' =>
      dry_run = false /\
      (e = TypeError \/ e = AttributeError) /\
      exists i o result,
        In (AttemptParsed i o result) (service (world run)) /\
        schema_typed result = false
  end.
Proof.
  induction batch as [|q batch IH]; intros run batch_results;
    [now exists 0%nat|].
  cbn [process_records].
  pose proof (process_question_stops max_retries dry_run q run batch_results)
    as Hstep.
  destruct (process_question _ _ _ _ _) as [[run1 results1]|e w'];
    [|exact Hstep].
  destruct Hstep as [k Hk]. specialize (IH run1 results1).
  destruct (process_records _ _ _ _ _) as [[run' results']|e w'].
  - destruct IH as [k' Hk']. exists (k' + k)%nat.
    now rewrite Hk', Hk, List.skipn_skipn.
  - destruct IH as (Hdry & He & i & o & result & Hin & Huntyped).
    split; [exact Hdry|]. split; [exact He|].
    exists i, o, result. split; [|exact Huntyped].
    rewrite Hk in Hin. now apply in_skipn in Hin.
Qed.

Lemma process_batch_stops questions max_retries batch_size dry_run
    batch_num i run :
  match process_batch questions max_retries batch_size dry_run batch_num i
          run with
  | Done run' =>
      exists k, service (world run') = List.skipn k (service (world run))
  | Aborted e w' =>
      dry_run = false /\
      (e = TypeError \/ e = AttributeError) /\
      exists i o result,
        In (AttemptParsed i o result) (service (world run)) /\
        schema_typed result = false
  end.
Proof.
  unfold process_batch.
  pose proof (process_records_stops max_retries dry_run
                (py.slice_list i (i + batch_size) questions) run []) as Hstep.
  destruct (process_records _ _ _ _ _) as [[run1 results]|e w'];
    [|exact Hstep].
  cbn [world save_progress service].
  now destruct (negb _ && negb dry_run).
Qed.

Lemma process_batches_stops questions max_retries batch_size dry_run starts :
  forall batch_num run,
  match process_batches questions max_retries batch_size dry_run batch_num
          starts run with
  | Done run' =>
      exists k, service (world run') = List.skipn k (service (world run))
  | Aborted e w' =>
      dry_run = false /\
      (e = TypeError \/ e = AttributeError) /\
      exists i o result,
        In (AttemptParsed i o result) (service (world run)) /\
        schema_typed result = false
  end.
Proof.
  induction starts as [|i starts IH]; intros batch_num run;
    [now exists 0%nat|].
  cbn [process_batches].
  pose proof (process_batch_stops questions max_retries batch_size dry_run
                batch_num i run) as Hstep.
  destruct (process_batch _ _ _ _ _ _ _) as [run1|e w']; [|exact Hstep].
  destruct Hstep as [k Hk]. specialize (IH (batch_num + 1) run1).
  destruct (process_batches _ _ _ _ _ _ _) as [run'|e w'].
  - destruct IH as [k' Hk']. exists (k' + k)%nat.
    now rewrite Hk', Hk, List.skipn_skipn.
  - destruct IH as (Hdry & He & j & o & result & Hin & Huntyped).
    split; [exact Hdry|]. split; [exact He|].
    exists j, o, result. split; [|exact Huntyped].
    rewrite Hk in Hin. now apply in_skipn in Hin.
Qed.


(** With answers of the types of the schema the loops come to their
    end. *)
Lemma typed_answers_in service i o result :
  forallb typed_answer service = true ->
  In (AttemptParsed i o result) service ->
  schema_typed result = false ->
  False.
Proof.
  intros Hall Hin Huntyped.
  apply (proj1 (forallb_forall _ _) Hall) in Hin. cbn in Hin. congruence.
Qed.

Lemma process_records_typed max_retries dry_run batch run batch_results :
  forallb typed_answer (service (world run)) = true ->
  exists run' batch_results',
    process_records max_retries dry_run batch run batch_results
    = Done (run', batch_results').
Proof.
  intros Htyped.
  pose proof (process_records_stops max_retries dry_run batch run
                batch_results) as Hframe.
  destruct (process_records _ _ _ _ _) as [[run' results']|e w'];
    [now eexists _, _|].
  destruct Hframe as (_ & _ & i & o & result & Hin & Huntyped).
  destruct (typed_answers_in _ _ _ _ Htyped Hin Huntyped).
Qed.

Lemma run_batches_typed questions max_retries batch_size resume dry_run w :
  batch_size <> 0 ->
  forallb typed_answer (service w) = true ->
  exists run,
    run_batches questions max_retries batch_size resume dry_run w = Done run.
Proof.
  intros Hsize Htyped. unfold run_batches.
  destruct (py.range _ _ batch_size) as [starts|] eqn:Hrange;
    [|now apply range_none in Hrange].
  match goal with
  | |- context [process_batches _ _ _ _ 0 starts ?r] =>
      pose proof (process_batches_stops questions max_retries batch_size
                    dry_run starts 0 r) as Hframe
  end.
  destruct (process_batches _ _ _ _ _ _ _) as [run|e w']; [now eexists|].
  destruct Hframe as (_ & _ & i & o & result & Hin & Huntyped).
  destruct (typed_answers_in _ _ _ _ Htyped Hin Huntyped).
Qed.

Lemma failure_records_step entry trace :
  failure_records (entry :: trace)
  = (failure_records [entry] ++ failure_records trace)%list.
Proof.
  unfold failure_records. cbn [List.flat_map]. now rewrite app_nil_r.
Qed.

(** What the orchestrator makes of a record: it raises, or it is a
    success. *)
Lemma checked_spec record :
  match validate_question_completeness record with
  | Raise e => checked record = Raised record e
  | Return (is_valid, errors) =>
      checked record = Succeeded record /\
      (is_valid = false -> errors <> [])
  end.
Proof.
  unfold checked.
  pose proof (validate_invalid_first_reason record) as Hfirst.
  destruct (validate_question_completeness record)
    as [[[|] errors]|e]; [now split| |reflexivity].
  destruct errors as [|error errors]; [now destruct (Hfirst [])|].
  now split.
Qed.

(** The loop over the records of a batch follows the trace of their
    outcomes: it comes to its end when no check raises, and stops where
    the trace stops otherwise. *)
Lemma process_records_follows_trace max_retries batch :
  forall run batch_results,
  let trace :=
    outcomes max_retries batch (processed_question_ids (progress run))
      (tracker run) (service (world run)) in
  match process_records max_retries false batch run batch_results with
  | Done (run', batch_results') =>
      raised trace = None /\
      batch_results' = (batch_results ++ succeeded trace)%list /\
      last_completed_batch (progress run')
        = last_completed_batch (progress run) /\
      all_results run' = (all_results run ++ succeeded trace)%list /\
      failed_log (world run')
        = (failed_log (world run) ++ failure_records trace)%list /\
      batches_dir (world run') = batches_dir (world run) /\
      progress_file (world run') = progress_file (world run)
  | Aborted e w' =>
      raised trace = Some e /\
      failed_log w'
        = (failed_log (world run) ++ failure_records trace)%list /\
      batches_dir w' = batches_dir (world run) /\
      progress_file w' = progress_file (world run)
  end.
Proof.
  induction batch as [|q batch IH]; intros run batch_results.
  - cbn. rewrite !app_nil_r. repeat split.
  - cbn [outcomes process_records]. unfold process_question.
    destruct (existsb _ _) eqn:Hseen.
    { specialize (IH run batch_results). cbv zeta in *.
      destruct (process_records _ _ _ _ _) as [[run' results']|e w'];
        exact IH. }
    destruct (negb (question_validator.is_valid_physics_question _))
      eqn:Hvalid.
    { specialize (IH (in_world (log_failed_question (pdf_extractor.number q)
                                  InvalidPhysicsContent) run) batch_results).
      cbv zeta in *.
      cbn [in_world progress tracker world log_failed_question service
           failed_log batches_dir progress_file all_results] in IH.
      rewrite failure_records_step.
      cbn [failure_records List.flat_map raised succeeded app].
      rewrite ?app_nil_r.
      destruct (process_records _ _ _ _ _) as [[run' results']|e w'].
      - destruct IH as (Hr & Hres & Hb & Hall & Hlog & Hdir & Hfile).
        rewrite Hlog, <- app_assoc. now repeat split.
      - destruct IH as (Hr & Hlog & Hdir & Hfile).
        rewrite Hlog, <- app_assoc. now repeat split. }
    pose proof (call_perplexity_api_spec q max_retries (tracker run)
                  (service (world run))) as Hcall.
    destruct (call_perplexity_api q max_retries (tracker run)
                (service (world run)))
      as [[[record|] tracker'] service'].
    + destruct Hcall as [_ Hrecord].
      destruct (Hrecord record eq_refl) as (-> & _).
      pose proof (checked_spec record) as Hchecked.
      destruct (validate_question_completeness record)
        as [[is_valid errors]|e] eqn:Hcheck.
      2:{ rewrite Hchecked. cbn. rewrite ?app_nil_r. now repeat split. }
      destruct Hchecked as [-> Hfirst].
      set (run1 := {| progress := progress run;
                      all_results := all_results run;
                      tracker := tracker';
                      world := with_service service' (world run) |}).
      assert (Hlogged : exists run2,
        (if negb is_valid
         then match errors with
              | error :: _ =>
                  Done (in_world
                          (log_failed_question (pdf_extractor.number q)
                             (Validation error)) run1)
              | [] => Aborted IndexError (world run1)
              end
         else Done run1) = Done run2 /\
        progress run2 = progress run /\
        all_results run2 = all_results run /\
        service (world run2) = service' /\
        failed_log (world run2)
          = (failed_log (world run)
             ++ failure_records
                  [(pdf_extractor.number q, Succeeded record)])%list /\
        batches_dir (world run2) = batches_dir (world run) /\
        progress_file (world run2) = progress_file (world run)).
      { cbn [failure_records List.flat_map]. rewrite Hcheck.
        destruct is_valid; cbn [negb].
        - exists run1. cbn. rewrite ?app_nil_r. repeat split.
        - destruct errors as [|error errors];
            [now destruct (Hfirst eq_refl)|].
          eexists. split; [reflexivity|]. cbn. rewrite ?app_nil_r.
          repeat split. }
      destruct Hlogged as (run2 & -> & Hp & Ha & Hs & Hl & Hd & Hf).
      rewrite Hp, Ha.
      match goal with
      | |- context [process_records _ _ batch ?r ?acc] =>
          specialize (IH r acc)
      end.
      cbv zeta in *.
      cbn [progress all_results tracker world processed_question_ids
           last_completed_batch] in IH.
      rewrite Hs in IH.
      rewrite (failure_records_step _ (outcomes _ _ _ _ _)).
      cbn [raised succeeded List.flat_map].
      destruct (process_records _ _ _ _ _) as [[run' results']|e w'].
      * destruct IH as (Hr & Hres & Hb & Hall & Hlog & Hdir & Hfile).
        rewrite Hres, Hall, Hlog, Hl, <- !app_assoc.
        repeat split; congruence.
      * destruct IH as (Hr & Hlog & Hdir & Hfile).
        rewrite Hlog, Hl, <- !app_assoc. repeat split; congruence.
    + match goal with
      | |- context [process_records _ _ batch ?r ?acc] =>
          specialize (IH r acc)
      end.
      cbv zeta in *.
      cbn [in_world progress tracker world log_failed_question service
           failed_log batches_dir progress_file all_results with_service]
        in IH.
      rewrite failure_records_step.
      cbn [failure_records List.flat_map raised succeeded app].
      rewrite ?app_nil_r.
      destruct (process_records _ _ _ _ _) as [[run' results']|e w'].
      * destruct IH as (Hr & Hres & Hb & Hall & Hlog & Hdir & Hfile).
        rewrite Hlog, <- app_assoc. now repeat split.
      * destruct IH as (Hr & Hlog & Hdir & Hfile).
        rewrite Hlog, <- app_assoc. now repeat split.
Qed.

(** Only a failed record adds an "API call failed" line. *)
Lemma api_failures_in_trace trace :
  List.filter is_api_failure (failure_records trace)
  = List.map (fun q_num => mkFailureRecord q_num ApiCallFailed)
      (failed_numbers trace).
Proof.
  induction trace as [|[q_num outcome] trace IH]; [reflexivity|].
  rewrite failure_records_step, List.filter_app, IH.
  unfold failed_numbers. cbn [List.flat_map]. rewrite List.map_app.
  f_equal. destruct outcome as [| | |record|record e]; try reflexivity.
  cbn [failure_records List.flat_map].
  destruct (validate_question_completeness record)
    as [[[|] [|error errors]]|e]; reflexivity.
Qed.




(** The loop over the records reads nothing but the core of the run: two
    runs with the same core add the same records and come to the same
    core, or stop on the same exception with the same failure log and the
    same service. *)
Lemma process_question_reads_core
    max_retries dry_run q run1 run2 results1 results2 :
  core run1 = core run2 ->
  match process_question max_retries dry_run q run1 results1,
        process_question max_retries dry_run q run2 results2 with
  | Done (run1', results1'), Done (run2', results2') =>
      exists new,
        results1' = (results1 ++ new)%list /\
        results2' = (results2 ++ new)%list /\
        core run1' = core run2' /\
        all_results run1' = (all_results run1 ++ new)%list
  | Aborted e1 w1, Aborted e2 w2 =>
      e1 = e2 /\ failed_log w1 = failed_log w2 /\ service w1 = service w2
  | _, _ => False
  end.
Proof.
  destruct run1
    as [[last1 next1 ids1] all1 tracker1 [file1 dir1 log1 service1]].
  destruct run2
    as [[last2 next2 ids2] all2 tracker2 [file2 dir2 log2 service2]].
  unfold core. cbn. intros [= -> -> -> -> ->].
  unfold process_question. cbn.
  destruct (existsb _ _).
  { exists []. rewrite !app_nil_r. repeat split. }
  destruct (negb _).
  { exists []. rewrite !app_nil_r. repeat split. }
  destruct dry_run.
  { exists []. rewrite !app_nil_r. repeat split. }
  destruct (call_perplexity_api q max_retries tracker2 service2)
    as [[[record|] tracker'] service'].
  2:{ exists []. rewrite !app_nil_r. repeat split. }
  destruct (is_nothing (Some record)).
  { exists []. rewrite !app_nil_r. repeat split. }
  destruct (validate_question_completeness record)
    as [[[|] errors]|e]; cbn [negb].
  - exists [record]. repeat split.
  - destruct errors as [|error errors]; [now repeat split|].
    exists [record]. repeat split.
  - now repeat split.
Qed.

Lemma process_records_reads_core max_retries dry_run batch :
  forall run1 run2 results1 results2,
  core run1 = core run2 ->
  match process_records max_retries dry_run batch run1 results1,
        process_records max_retries dry_run batch run2 results2 with
  | Done (run1', results1'), Done (run2', results2') =>
      exists new,
        results1' = (results1 ++ new)%list /\
        results2' = (results2 ++ new)%list /\
        core run1' = core run2' /\
        all_results run1' = (all_results run1 ++ new)%list
  | Aborted e1 w1, Aborted e2 w2 =>
      e1 = e2 /\ failed_log w1 = failed_log w2 /\ service w1 = service w2
  | _, _ => False
  end.
Proof.
  induction batch as [|q batch IH]; intros run1 run2 results1 results2 Hcore.
  - exists []. rewrite !app_nil_r. repeat split. exact Hcore.
  - cbn [process_records].
    pose proof (process_question_reads_core max_retries dry_run q run1 run2
                  results1 results2 Hcore) as Hstep.
    destruct (process_question _ _ q run1 _) as [[run1' r1]|e1 w1],
             (process_question _ _ q run2 _) as [[run2' r2]|e2 w2];
      try contradiction; [|exact Hstep].
    destruct Hstep as (new & -> & -> & Hcore' & Hall').
    specialize (IH run1' run2' (results1 ++ new)%list
                  (results2 ++ new)%list Hcore').
    destruct (process_records _ _ batch run1' _) as [[run1'' r1']|e1 w1],
             (process_records _ _ batch run2' _) as [[run2'' r2']|e2 w2];
      try contradiction; [|exact IH].
    destruct IH as (new' & -> & -> & Hcore'' & Hall'').
    exists (new ++ new')%list. rewrite !app_assoc.
    repeat split; [exact Hcore''|]. now rewrite Hall'', Hall'.
Qed.

Lemma process_records_concat max_retries dry_run batch batch' run results :
  process_records max_retries dry_run (batch ++ batch') run results
  = match process_records max_retries dry_run batch run results with
    | Done (run', results') =>
        process_records max_retries dry_run batch' run' results'
    | Aborted e w => Aborted e w
    end.
Proof.
  revert run results. induction batch as [|q batch IH]; intros run results.
  - reflexivity.
  - cbn [List.app app process_records].
    destruct (process_question _ _ _ _ _) as [[run' results']|e w];
      [apply IH | reflexivity].
Qed.

(** A batch leaves the core of the run as the loop over its records does,
    and stops as it does. *)
Lemma process_batch_reads_core questions max_retries batch_size dry_run
    batch_num i run :
  match process_batch questions max_retries batch_size dry_run batch_num i
          run,
        process_records max_retries dry_run
          (py.slice_list i (i + batch_size) questions) run [] with
  | Done run', Done (run1, _) => core run' = core run1
  | Aborted e w, Aborted e1 w1 => e = e1 /\ w = w1
  | _, _ => False
  end.
Proof.
  unfold process_batch.
  destruct (process_records _ _ _ _ _) as [[run1 results]|e w];
    [|now split].
  unfold core. cbn. now destruct (negb _ && negb dry_run).
Qed.

Lemma process_batches_reads_core
    questions max_retries batch_size dry_run starts :
  forall batch_num run reference results,
  core run = core reference ->
  match process_batches questions max_retries batch_size dry_run batch_num
          starts run,
        process_records max_retries dry_run
          (List.concat
             (List.map (fun i => py.slice_list i (i + batch_size) questions)
                starts))
          reference results with
  | Done run', Done (reference', _) => core run' = core reference'
  | Aborted e w, Aborted e1 w1 =>
      e = e1 /\ failed_log w = failed_log w1 /\ service w = service w1
  | _, _ => False
  end.
Proof.
  induction starts as [|i starts IH];
    intros batch_num run reference results Hcore.
  - exact Hcore.
  - cbn [process_batches List.map List.concat].
    rewrite process_records_concat.
    pose proof (process_batch_reads_core
                  questions max_retries batch_size dry_run
                  batch_num i run) as Hbatch.
    pose proof (process_records_reads_core max_retries dry_run
                  (py.slice_list i (i + batch_size) questions)
                  run reference [] results Hcore) as Hrecords.
    destruct (process_batch _ _ _ _ _ _ _) as [run'|e w],
             (process_records _ _ _ run _) as [[run1 results1]|e1 w1];
      try contradiction.
    + destruct (process_records _ _ _ reference _)
        as [[reference1 results']|e2 w2]; [|contradiction].
      destruct Hrecords as (new & _ & _ & Hcore1 & _).
      apply (IH (batch_num + 1) run' reference1). congruence.
    + destruct Hbatch as [-> ->].
      destruct (process_records _ _ _ reference _)
        as [[reference1 results']|e2 w2]; [contradiction|].
      exact Hrecords.
Qed.

(** The run and the loop over the questions from the start index on, taken
    as one batch. *)
Lemma run_batches_core questions max_retries batch_size resume dry_run w :
  0 < batch_size ->
  0 <= next_question_index (initial_progress resume w) ->
  match run_batches questions max_retries batch_size resume dry_run w,
        process_records max_retries dry_run
          (List.skipn
             (Z.to_nat (next_question_index (initial_progress resume w)))
             questions)
          (initial_run resume w) [] with
  | Done run, Done (reference, _) => core run = core reference
  | Aborted e w1, Aborted e2 w2 =>
      e = e2 /\ failed_log w1 = failed_log w2 /\ service w1 = service w2
  | _, _ => False
  end.
Proof.
  intros Hsize Hstart. unfold run_batches. fold (initial_progress resume w).
  destruct (py.range _ _ batch_size) as [starts|] eqn:Hrange;
    [|apply range_none in Hrange; lia].
  fold (initial_run resume w).
  pose proof (process_batches_reads_core
                questions max_retries batch_size dry_run
                starts 0 (initial_run resume w) (initial_run resume w) []
                eq_refl) as Hcore.
  now rewrite (proj1 (range_batches questions batch_size Hsize _ _ starts
                        (Nat.le_refl _) Hrange) Hstart) in Hcore.
Qed.





End UntypedOrchestrator.

(** ** The dataset of process_claude.py *)

Section UntypedClaudeDataset.

Import json untyped untyped_properties.
Local Open Scope outcome_scope.

Lemma eq_answer_spec v letter :
  eq_answer v (Some letter) = true <-> v = Str letter.
Proof.
  destruct v as [|b|n|f|s|l|d]; cbn;
    try (split; [discriminate | intros [=]]).
  rewrite String.eqb_eq. split; [now intros -> | now intros [= ->]].
Qed.

(** After the check of the answer, [correctOption] is the answer of the
    question. *)
Lemma verify_answer_correct_option question result checked letter :
  pdf_extractor.correct_answer question = Some letter ->
  verify_answer question result = Return checked ->
  checked !! "correctOption" = Some (Str letter).
Proof.
  intros Hanswer. unfold verify_answer. rewrite Hanswer.
  destruct (eq_answer _ _) eqn:Hsame; cbn [negb].
  - intros [= <-]. apply eq_answer_spec in Hsame.
    unfold get_item in Hsame.
    destruct (result !! "correctOption") as [v|]; congruence.
  - cbn [of_answer].
    set (forced := <["correctOption" := Str letter]> result).
    assert (Hforced : forced !! "correctOption" = Some (Str letter))
      by apply lookup_insert_eq.
    assert (Hoptions : forall options,
              match forced !! "options" with
              | Some _ => <["options" := List options]> forced
              | None => forced
              end !! "correctOption" = Some (Str letter)).
    { intros options. destruct (forced !! "options"); [|exact Hforced].
      now rewrite lookup_insert_ne. }
    destruct (get_item forced "options" (List [])) as [|b|n|f|s|l|d];
      cbn [iter bind]; try discriminate.
    + destruct (fix_options _ _); cbn [bind]; [|discriminate].
      now intros [= <-].
    + destruct (fix_options _ l) as [options|e]; cbn [bind]; [|discriminate].
      intros [= <-]. apply Hoptions.
    + destruct (fix_options _ _); cbn [bind]; [|discriminate].
      now intros [= <-].
Qed.

Lemma ensure_required_fields_keys question checked :
  let record := ensure_required_fields question checked in
  is_Some (record !! "id") /\
  is_Some (record !! "questionNumber") /\
  is_Some (record !! "questionText") /\
  forall v,
    checked !! "correctOption" = Some v -> record !! "correctOption" = Some v.
Proof.
  unfold ensure_required_fields. cbv zeta. split; [|split; [|split]].
  - do 3 apply setdefault_keeps. apply setdefault_same.
  - do 2 apply setdefault_keeps. apply setdefault_same.
  - apply setdefault_keeps. apply setdefault_same.
  - intros v Hv. unfold setdefault at 1.
    rewrite !setdefault_other, Hv by (intro; discriminate).
    now rewrite !setdefault_other by (intro; discriminate).
Qed.

Lemma attempts_record n question : forall tracker service record tracker'
    service',
  attempts n question tracker service = (Some record, tracker', service') ->
  exists result checked,
    verify_answer question result = Return checked /\
    record = ensure_required_fields question checked.
Proof.
  induction n as [|n IH]; intros tracker service record tracker' service';
    [discriminate|].
  cbn [attempts]. destruct (request service) as [[|i o|i o result] rest].
  - apply IH.
  - apply IH.
  - destruct (verify_answer question result) as [checked|e] eqn:Hverify.
    + intros [= <- _ _]. now exists result, checked.
    + apply IH.
Qed.

(** The record that [call_claude_api] returns carries the answer of the
    question. *)
Lemma call_claude_api_answer question max_retries tracker service record
    tracker' service' letter :
  pdf_extractor.correct_answer question = Some letter ->
  call_claude_api question max_retries tracker service
    = (Some record, tracker', service') ->
  record !! "correctOption" = Some (Str letter) /\
  is_Some (record !! "id") /\
  is_Some (record !! "questionNumber") /\
  is_Some (record !! "questionText").
Proof.
  intros Hanswer Hcall. unfold call_claude_api in Hcall.
  apply attempts_record in Hcall as (result & checked & Hverify & ->).
  destruct (ensure_required_fields_keys question checked)
    as (Hid & Hnumber & Htext & Hcorrect).
  split; [|now repeat split].
  apply Hcorrect.
  now apply (verify_answer_correct_option question result).
Qed.

Lemma process_all_records max_retries questions :
  Forall properties.strict_question questions ->
  forall tracker service all_results,
  exists answered new,
    sublist answered questions /\
    fst (fst (process_all max_retries questions tracker service all_results))
    = (all_results ++ new)%list /\
    Forall2 answers answered new.
Proof.
  induction 1 as [|q questions Hq Hall IH];
    intros tracker service all_results.
  - exists [], []. rewrite app_nil_r. repeat split; constructor.
  - cbn [process_all]. destruct (negb _).
    { destruct (IH tracker service all_results)
        as (answered & new & Hsub & Hnew & Hanswers).
      exists answered, new. split; [now apply sublist_cons | now split]. }
    destruct (call_claude_api q max_retries tracker service)
      as [[[r|] tracker'] service'] eqn:Hcall.
    + destruct Hq as (_ & Hindex & Hletter & _).
      apply (call_claude_api_answer _ _ _ _ _ _ _ _ Hletter) in Hcall
        as (Hcorrect & Hid & Hkeys).
      rewrite (something r "id" Hid).
      destruct (IH tracker' service' (all_results ++ [r])%list)
        as (answered & new & Hsub & Hnew & Hanswers).
      exists (q :: answered), (r :: new).
      split; [now apply sublist_skip|].
      split; [now rewrite Hnew, <- app_assoc|].
      constructor; [|exact Hanswers].
      split; [|now split].
      exists (properties.letter_of_index (pdf_extractor.correct_index q)).
      split; [now apply letter_of_index_ABCD | now split].
    + destruct (IH tracker' service' all_results)
        as (answered & new & Hsub & Hnew & Hanswers).
      exists answered, new. split; [now apply sublist_cons | now split].
Qed.


End UntypedClaudeDataset.
